(** * gen_toa_data_v2.py: a shallow embedding and its verified properties

    The development follows the layout of the Python script:

    - [Binary64]: Python floats.  A float is modelled by the rational number
      it denotes, and every arithmetic operation rounds its exact result to
      the nearest binary64 value (ties to even), so that [fadd], [fmul] and
      [py_round] compute what CPython computes.  Magnitudes in this program
      stay below 300, so overflow, infinities and NaN do not arise.
    - [PyRandom]: the calls made into the [random] module, reading an
      arbitrary tape of raw draws.  A call takes its outcome from one cell;
      [randint] is also given as CPython computes it, by rejection over
      [k]-bit draws, which is what the distribution of a quantity rests on.
    - [PyText], [PyDatetime]: [str] and [int] between integers and texts of
      code points below 256, and naive datetimes.
    - [Script]: the script itself, function by function, over a world made
      of the random generator, the heap of weather dictionaries and the
      counter file.  *)

From Stdlib Require Import ZArith QArith Qround Qpower Qabs Qcanon Lia Lqa.
From Stdlib Require Import String Ascii List Sorted DecimalString DecimalZ DecimalPos.
From stdpp Require Import gmap strings list.

(* ===================================================================== *)
(** * Python floats: binary64 values and round-to-nearest-even           *)
(* ===================================================================== *)

Module Binary64.

Local Open Scope Q_scope.

(** Nearest integer, ties to even. *)
Definition rneQ (x : Q) : Z :=
  let f := Qfloor x in
  match Qcompare (x - inject_Z f) (1 # 2) with
  | Lt => f
  | Gt => (f + 1)%Z
  | Eq => if Z.even f then f else (f + 1)%Z
  end.

(** [Qilog2 x] is the integer [l] with [2^l <= x < 2^(l+1)], for [0 < x]. *)
Definition Qilog2 (x : Q) : Z :=
  let k := (Z.log2 (Qnum x) - Z.log2 (Zpos (Qden x)))%Z in
  if Qle_bool (2 ^ k) x then k else (k - 1)%Z.

(** Exponent of the unit in the last place of a binary64 number near [x]:
    53 bits of precision, smallest exponent -1074 (subnormal numbers). *)
Definition expo (x : Q) : Z := Z.max (Qilog2 x - 52) (-1074).

Definition rnd_pos (x : Q) : Q :=
  let e := expo x in
  inject_Z (rneQ (x * 2 ^ (- e))) * 2 ^ e.

(** The binary64 value nearest to [x], in lowest terms. *)
Definition rnd64 (x : Q) : Q :=
  match Qnum x with
  | Z0 => 0
  | Zpos _ => Qred (rnd_pos x)
  | Zneg _ => Qred (- rnd_pos (- x))
  end.

(** Float arithmetic: the exact result, rounded. *)
Definition fadd (x y : Q) : Q := rnd64 (x + y).
Definition fsub (x y : Q) : Q := rnd64 (x - y).
Definition fmul (x y : Q) : Q := rnd64 (x * y).

(** [float(n)] for a Python integer, and a decimal literal of the source. *)
Definition float_of_int (n : Z) : Q := rnd64 (inject_Z n).
Definition literal (x : Q) : Q := rnd64 x.

(** Comparisons are exact on the denoted values. *)
Definition flt (x y : Q) : bool := negb (Qle_bool y x).

(** The builtins [max(a, b)] and [min(a, b)] on two arguments: the first
    argument is kept unless the second is strictly larger (smaller). *)
Definition py_max (a b : Q) : Q := if flt a b then b else a.
Definition py_min (a b : Q) : Q := if flt b a then b else a.

(** [round(x, ndigits)] on a float: the exact value of [x] is rounded to
    [ndigits] decimals with ties to even, and the decimal result is
    converted back to the nearest binary64 value. *)
Definition py_round (x : Q) (ndigits : nat) : Q :=
  let p := inject_Z (10 ^ Z.of_nat ndigits) in
  rnd64 (inject_Z (rneQ (x * p)) / p).

End Binary64.

(* ===================================================================== *)
(** * The [random] module                                                *)
(* ===================================================================== *)

Module PyRandom.

Import Binary64.

(** The generator: an arbitrary infinite tape of raw draws and a cursor.
    Every library call below consumes exactly one cell. *)
Record rng := mk_rng { tape : nat -> N; cursor : nat }.

Definition next_raw (g : rng) : N * rng :=
  (tape g (cursor g), mk_rng (tape g) (S (cursor g))).

(** [random.random()]: a 53-bit fraction [k / 2^53], [0 <= k < 2^53]. *)
Definition unit_of_raw (r : N) : Q :=
  Z.of_N (r mod 2 ^ 53)%N # (2 ^ 53)%positive.

Definition random (g : rng) : Q * rng :=
  let (r, g') := next_raw g in (unit_of_raw r, g').

(** [random.uniform(a, b)] is [a + (b - a) * random()], in floats. *)
Definition uniform_of_unit (a b u : Q) : Q := fadd a (fmul (fsub b a) u).

Definition uniform (a b : Q) (g : rng) : Q * rng :=
  let (u, g') := random g in (uniform_of_unit a b u, g').

(** [_randbelow(n)]: an integer of [0 .. n-1], for [0 < n]. *)
Definition randbelow (n : Z) (g : rng) : Z * rng :=
  let (r, g') := next_raw g in ((Z.of_N r mod n)%Z, g').

(** [random.randint(a, b)] is [a + _randbelow(b - a + 1)]. *)
Definition randint (a b : Z) (g : rng) : Z * rng :=
  let (k, g') := randbelow (b - a + 1)%Z g in ((a + k)%Z, g').

(** [random.choice(seq)]: [seq[_randbelow(len(seq))]]; [None] stands for the
    [IndexError] raised on an empty sequence. *)
Definition choice {A} (l : list A) (g : rng) : option A * rng :=
  match l with
  | [] => (None, g)
  | _ => let (k, g') := randbelow (Z.of_nat (length l)) g in
         (l !! Z.to_nat k, g')
  end.

(** [itertools.accumulate(weights)] with float addition. *)
Fixpoint accumulate_from (acc : Q) (ws : list Q) : list Q :=
  match ws with
  | [] => []
  | w :: ws' => let acc' := fadd acc w in acc' :: accumulate_from acc' ws'
  end.

Definition accumulate (ws : list Q) : list Q :=
  match ws with
  | [] => []
  | w :: ws' => w :: accumulate_from w ws'
  end.

(** [bisect(a, x, 0, hi)] on the sorted cumulative weights: the number of
    leading entries, among the first [hi], that are [<= x]. *)
Fixpoint bisect (a : list Q) (x : Q) (hi : nat) : nat :=
  match hi, a with
  | S hi', y :: a' => if flt x y then O else S (bisect a' x hi')
  | _, _ => O
  end.

(** [random.choices(population, weights=weights)[0]]; [None] stands for the
    [ValueError] raised when the weights do not fit the population or do not
    add up to a positive total. *)
Definition choices1 {A} (population : list A) (weights : list Q) (g : rng)
  : option A * rng :=
  let cum := accumulate weights in
  if negb (length cum =? length population)%nat then (None, g) else
  let total := fadd (List.last cum 0%Q) 0 in
  if Qle_bool total 0 then (None, g) else
  let (u, g') := random g in
  (population !! bisect cum (fmul u total) (length population - 1), g').

(** ** [randint] as CPython computes it

    The definitions above take the outcome of a call of [_randbelow] from one
    cell.  CPython computes that outcome by rejection: it draws [k]-bit
    numbers, [k] the bit length of [n], until one of them is below [n]. *)

(** [n.bit_length()], for [0 <= n]. *)
Definition bit_length (n : Z) : Z :=
  if (n =? 0)%Z then 0%Z else (Z.log2 n + 1)%Z.

(** The [k] leading bits of the 32-bit word that a cell holds. *)
Definition leading_bits (k : Z) (r : N) : Z :=
  Z.shiftr (Z.of_N r mod 2 ^ 32) (32 - k).

(** [getrandbits(k)] for [0 < k <= 32]: one 32-bit word of the generator,
    shifted right by [32 - k]. *)
Definition getrandbits (k : Z) (g : rng) : Z * rng :=
  let (r, g') := next_raw g in (leading_bits k r, g').

(** [_randbelow_with_getrandbits(n)], for [0 < n]:
    [r = getrandbits(k); while r >= n: r = getrandbits(k)].
    The loop is run for at most [fuel] draws, one cell each; [None] says that
    it is still drawing after them. *)
Fixpoint randbelow_with_getrandbits (fuel : nat) (n : Z) (g : rng)
  : option Z * rng :=
  match fuel with
  | O => (None, g)
  | S fuel' =>
      let (r, g') := getrandbits (bit_length n) g in
      if (r <? n)%Z then (Some r, g')
      else randbelow_with_getrandbits fuel' n g'
  end.

(** [random.randint(a, b)], computed as [a + _randbelow(b - a + 1)]. *)
Definition randint_by_rejection (fuel : nat) (a b : Z) (g : rng)
  : option Z * rng :=
  let (r, g') := randbelow_with_getrandbits fuel (b - a + 1)%Z g in
  (option_map (Z.add a) r, g').

End PyRandom.

(* ===================================================================== *)
(** * [str] and [int] on integers                                        *)
(* ===================================================================== *)

Module PyText.

Local Open Scope string_scope.

(** [str(n)]: decimal digits, with a leading minus sign when negative. *)
Definition py_str (n : Z) : string := NilZero.string_of_int (Z.to_int n).

(** A text is a sequence of code points below 256.  White space as
    [str.strip()] and [int] see it there: the characters 9 to 13, 28 to 32,
    133 (next line) and 160 (no-break space). *)
Definition is_space (c : ascii) : bool :=
  let n := nat_of_ascii c in
  ((9 <=? n) && (n <=? 13) || (28 <=? n) && (n <=? 32)
   || (n =? 133) || (n =? 160))%nat.

Fixpoint lstrip (s : string) : string :=
  match s with
  | EmptyString => EmptyString
  | String c s' => if is_space c then lstrip s' else s
  end.

Fixpoint rstrip (s : string) : string :=
  match s with
  | EmptyString => EmptyString
  | String c s' =>
      match rstrip s' with
      | EmptyString => if is_space c then EmptyString else String c EmptyString
      | r => String c r
      end
  end.

Definition strip (s : string) : string := rstrip (lstrip s).

(** The digits of a number written with single underscores between digits,
    as [int] accepts them; [None] when the text is empty or an underscore is
    not between two characters (first, last, or next to another one).
    [after_digit] tells whether a character precedes that is no underscore. *)
Fixpoint digit_groups (after_digit : bool) (s : string) : option string :=
  match s with
  | EmptyString => if after_digit then Some EmptyString else None
  | String "_" s' => if after_digit then digit_groups false s' else None
  | String c s' => option_map (String c) (digit_groups true s')
  end.

(** The decimal number that a text without sign denotes. *)
Definition unsigned_of_text (s : string) : option Z :=
  match digit_groups false s with
  | Some digits => option_map Z.of_uint (NilZero.uint_of_string digits)
  | None => None
  end.

(** [int(s)] in base 10, on a text of code points below 256: white space
    around, an optional sign, and one or more digits 0 to 9 with single
    underscores allowed between them; leading zeros are accepted.  [None]
    stands for [ValueError].  Below 256 the digits 0 to 9 are the only
    decimal digits.  The limit that CPython puts on the number of digits of
    a conversion (4300 by default) is not part of [py_int] and [py_str]. *)
Definition py_int (s : string) : option Z :=
  match strip s with
  | String "-" d => option_map Z.opp (unsigned_of_text d)
  | String "+" d => unsigned_of_text d
  | t => unsigned_of_text t
  end.

(** The number of digits 0 to 9 in a text, and the default limit of CPython
    on the digits of a conversion between [int] and [str]. *)
Fixpoint digits_in (s : string) : nat :=
  match s with
  | EmptyString => O
  | String c s' =>
      let n := nat_of_ascii c in
      ((if (48 <=? n) && (n <=? 57) then 1 else 0) + digits_in s')%nat
  end.

Definition MAX_STR_DIGITS : Z := 4300.

(** ["%0<width>d" % n] for a non-negative [n]. *)
Fixpoint zeros (k : nat) : string :=
  match k with
  | O => EmptyString
  | S k' => String "0" (zeros k')
  end.

Definition zero_pad (width : nat) (n : Z) : string :=
  let d := py_str n in zeros (width - String.length d) ++ d.

End PyText.

(* ===================================================================== *)
(** * Naive [datetime] values and [timedelta(seconds=...)]               *)
(* ===================================================================== *)

Module PyDatetime.

Import PyText.
Local Open Scope Z_scope.

(** A naive datetime, held as the number of microseconds elapsed since
    0001-01-01T00:00:00; valid values run up to 9999-12-31T23:59:59.999999. *)
Record datetime := mk_datetime { micros : Z }.

Definition US_PER_SECOND : Z := 1000000.
Definition US_PER_DAY : Z := 86400 * US_PER_SECOND.
Definition MAXORDINAL : Z := 3652059.
Definition MAX_DELTA_DAYS : Z := 999999999.

Definition valid (t : datetime) : Prop :=
  0 <= micros t < MAXORDINAL * US_PER_DAY.

(** Calendar arithmetic of the [datetime] module. *)
Definition is_leap (year : Z) : bool :=
  (year mod 4 =? 0) && (negb (year mod 100 =? 0) || (year mod 400 =? 0)).

Definition days_before_year (year : Z) : Z :=
  let y := year - 1 in y * 365 + y / 4 - y / 100 + y / 400.

Definition DAYS_IN_MONTH : list Z :=
  [31; 28; 31; 30; 31; 30; 31; 31; 30; 31; 30; 31].

Definition days_in_month (year month : Z) : Z :=
  if (month =? 2) && is_leap year then 29
  else nth (Z.to_nat (month - 1)) DAYS_IN_MONTH 0.

Definition DAYS_BEFORE_MONTH (month : Z) : Z :=
  fold_right Z.add 0 (firstn (Z.to_nat (month - 1)) DAYS_IN_MONTH).

Definition days_before_month (year month : Z) : Z :=
  DAYS_BEFORE_MONTH month + (if (2 <? month) && is_leap year then 1 else 0).

Definition ymd2ord (year month day : Z) : Z :=
  days_before_year year + days_before_month year month + day.

Definition DI400Y : Z := days_before_year 401.
Definition DI100Y : Z := days_before_year 101.
Definition DI4Y : Z := days_before_year 5.

Definition ord2ymd (ordinal : Z) : Z * Z * Z :=
  let n := ordinal - 1 in
  let n400 := n / DI400Y in let n := n mod DI400Y in
  let year := n400 * 400 + 1 in
  let n100 := n / DI100Y in let n := n mod DI100Y in
  let n4 := n / DI4Y in let n := n mod DI4Y in
  let n1 := n / 365 in let n := n mod 365 in
  let year := year + n100 * 100 + n4 * 4 + n1 in
  if (n1 =? 4) || (n100 =? 4) then (year - 1, 12, 31)
  else
    let leapyear := (n1 =? 3) && (negb (n4 =? 24) || (n100 =? 3)) in
    let month := Z.shiftr (n + 50) 5 in
    let preceding :=
      DAYS_BEFORE_MONTH month + (if (2 <? month) && leapyear then 1 else 0) in
    if n <? preceding then
      let month := month - 1 in
      let preceding :=
        preceding - (nth (Z.to_nat (month - 1)) DAYS_IN_MONTH 0
                     + (if (month =? 2) && leapyear then 1 else 0)) in
      (year, month, n - preceding + 1)
    else (year, month, n - preceding + 1).

(** [datetime(year, month, day, hour, minute, second)]. *)
Definition datetime_of (year month day hour minute second : Z) : datetime :=
  mk_datetime
    ((((ymd2ord year month day - 1) * 86400)
      + hour * 3600 + minute * 60 + second) * US_PER_SECOND).

(** [a <= b]. *)
Definition dt_le (a b : datetime) : bool := micros a <=? micros b.

(** [t + timedelta(seconds=secs)]; [None] stands for the [OverflowError]
    raised when the timedelta exceeds 999999999 days or the sum leaves the
    years 1..9999. *)
Definition add_seconds (t : datetime) (secs : Z) : option datetime :=
  if MAX_DELTA_DAYS <? Z.abs (secs / 86400) then None
  else
    let t' := micros t + secs * US_PER_SECOND in
    if (0 <=? t') && (t' <? MAXORDINAL * US_PER_DAY)
    then Some (mk_datetime t') else None.

(** [t.isoformat()]: YYYY-MM-DDTHH:MM:SS, followed by .ffffff when the
    microsecond is not zero. *)
Definition isoformat (t : datetime) : string :=
  let us := micros t mod US_PER_SECOND in
  let s := micros t / US_PER_SECOND in
  let '(y, m, d) := ord2ymd (s / 86400 + 1) in
  let sod := s mod 86400 in
  let hh := sod / 3600 in
  let mm := sod mod 3600 / 60 in
  let ss := sod mod 60 in
  let fraction := if us =? 0 then EmptyString else ("." ++ zero_pad 6 us)%string in
  (zero_pad 4 y ++ "-" ++ zero_pad 2 m ++ "-" ++ zero_pad 2 d ++ "T"
   ++ zero_pad 2 hh ++ ":" ++ zero_pad 2 mm ++ ":" ++ zero_pad 2 ss
   ++ fraction)%string.

End PyDatetime.

(* ===================================================================== *)
(** * The script                                                         *)
(* ===================================================================== *)

Module Script.

Import Binary64 PyRandom PyText PyDatetime.

Local Open Scope string_scope.

(** ** Module-level constants *)

Definition MENU_PRICES : list (string * Q) :=
  [ ("hamburger",     literal 12.0);
    ("fried_chicken", literal 14.0);
    ("fries",         literal 6.0);
    ("drink",         literal 5.0);
    ("ice_cream",     literal 7.0);
    ("dessert",       literal 8.0) ]%Q.

(** [[f"{prefix}{i+1}" for i in range(n)]]. *)
Definition numbered (prefix : string) (n : nat) : list string :=
  map (fun i => prefix ++ py_str (Z.of_nat i + 1)) (seq 0 n).

Definition EMPLOYEES : list string := numbered "employee_" 15.

Definition REGISTERS : list (string * list string) :=
  [ ("stationary", numbered "stationary_" 3);
    ("drive",      numbered "drive_" 2);
    ("kiosk",      numbered "kiosk_" 2) ].

Definition WEATHER_CONDITIONS : list string :=
  ["sunny"; "cloudy"; "rainy"; "snowy"].

(** ** Values and records *)

(** The values a caller may pass where the script expects an order size. *)
Inductive pyvalue :=
| PyNone
| PyBool (b : bool)
| PyInt (n : Z)
| PyFloat (x : Q)
| PyStr (s : string).

(** [v == "..."] against a string literal. *)
Definition eq_str (v : pyvalue) (lit : string) : bool :=
  match v with
  | PyStr s => String.eqb s lit
  | _ => false
  end.

(** The weather dictionary, with its three keys. *)
Record weather := mk_weather {
  temperature : Q;
  humidity : Q;
  condition : string
}.

(** Dictionaries live on a heap; a variable holds a reference. *)
Definition loc := positive.

(** An insertion-ordered [dict] from item name to quantity. *)
Definition items_dict := list (string * Z).

Fixpoint dict_set (d : items_dict) (k : string) (v : Z) : items_dict :=
  match d with
  | [] => [(k, v)]
  | (k', v') :: d' =>
      if String.eqb k' k then (k', v) :: d' else (k', v') :: dict_set d' k v
  end.

Fixpoint dict_get {V} (d : list (string * V)) (k : string) : option V :=
  match d with
  | [] => None
  | (k', v) :: d' => if String.eqb k' k then Some v else dict_get d' k
  end.

(** The dictionary returned by [create_order]. *)
Record order := mk_order {
  order_id : string;
  timestamp : string;
  restaurant_id : string;
  register_type : string;
  register_id : string;
  employee_id : string;
  order_size : string;
  items : items_dict;
  total_amount : Q;
  processing_time : string;
  IsWeather : loc
}.

(** A row of the CSV file: the order, with the weather dictionary as it is
    when the row is written. *)
Record csv_row := mk_row { row_order : order; row_weather : weather }.

(** ** The world and the monad of the script *)

Record world := mk_world {
  w_rng : rng;                            (* state of the [random] module *)
  w_heap : gmap loc weather;              (* weather dictionaries *)
  w_counter_file : option string;         (* order_id_counter.txt, if present *)
  w_csv : gmap string (list csv_row)      (* CSV files, by path *)
}.

Definition set_rng (g : rng) (w : world) : world :=
  mk_world g (w_heap w) (w_counter_file w) (w_csv w).
Definition set_heap (h : gmap loc weather) (w : world) : world :=
  mk_world (w_rng w) h (w_counter_file w) (w_csv w).
Definition set_counter_file (f : option string) (w : world) : world :=
  mk_world (w_rng w) (w_heap w) f (w_csv w).
Definition set_csv (c : gmap string (list csv_row)) (w : world) : world :=
  mk_world (w_rng w) (w_heap w) (w_counter_file w) c.

Inductive exn := ValueError | IndexError | KeyError | OverflowError.

Inductive result (A : Type) :=
| Ok (a : A)
| Raise (e : exn).
Arguments Ok {A} a.
Arguments Raise {A} e.

Definition M (A : Type) : Type := world -> result A * world.

Definition ret {A} (a : A) : M A := fun w => (Ok a, w).

Definition raise {A} (e : exn) : M A := fun w => (Raise e, w).

Definition bind {A B} (c : M A) (k : A -> M B) : M B :=
  fun w =>
    match c w with
    | (Ok a, w') => k a w'
    | (Raise e, w') => (Raise e, w')
    end.

Notation "x <- c1 ;; c2" := (bind c1 (fun x => c2))
  (at level 100, c1 at next level, right associativity).
Notation "c1 ;;; c2" := (bind c1 (fun _ => c2))
  (at level 100, right associativity).

(** A call into the [random] module. *)
Definition draw {A} (f : rng -> A * rng) : M A :=
  fun w => let (a, g) := f (w_rng w) in (Ok a, set_rng g w).

(** A library call that may raise. *)
Definition draw_or {A} (e : exn) (f : rng -> option A * rng) : M A :=
  fun w =>
    let (o, g) := f (w_rng w) in
    match o with
    | Some a => (Ok a, set_rng g w)
    | None => (Raise e, set_rng g w)
    end.

Definition or_raise {A} (e : exn) (o : option A) : M A :=
  match o with
  | Some a => ret a
  | None => raise e
  end.

(** Heap accesses.  A reference that is not allocated cannot be built in
    Python; the model answers [KeyError] there. *)
Definition deref (l : loc) : M weather :=
  fun w => or_raise KeyError (w_heap w !! l) w.

Definition store (l : loc) (d : weather) : M unit :=
  fun w => (Ok tt, set_heap (<[l := d]> (w_heap w)) w).

Definition alloc (d : weather) : M loc :=
  fun w =>
    let l := fresh (dom (w_heap w)) in
    (Ok l, set_heap (<[l := d]> (w_heap w)) w).

(** ** The order-id counter *)

Definition load_last_order_id : M Z :=
  fun w =>
    match w_counter_file w with
    | None => (Ok 0%Z, set_counter_file (Some "0") w)
    | Some text => or_raise ValueError (py_int text) w
    end.

Definition save_last_order_id (last_id : Z) : M unit :=
  fun w => (Ok tt, set_counter_file (Some (py_str last_id)) w).

Definition next_order_id : M string :=
  last <- load_last_order_id ;;
  let new := (last + 1)%Z in
  save_last_order_id new ;;;
  ret ("order_" ++ py_str new).

(** ** WeatherSimulator *)

Record WeatherSimulator := mk_sim { current : loc }.

Definition default_weather : weather :=
  mk_weather (literal 20.0) (literal 50.0) "sunny".

(** [__init__(self, start=None)]: [self.current = start or {...}].  A
    dictionary that is passed in is kept by reference. *)
Definition WeatherSimulator_init (start : option loc) : M WeatherSimulator :=
  match start with
  | Some l => ret (mk_sim l)
  | None => l <- alloc default_weather ;; ret (mk_sim l)
  end.

Definition step (self : WeatherSimulator) : M loc :=
  (* self.current["temperature"] = round(min(max(... + uniform, -5), 35), 1) *)
  cur <- deref (current self) ;;
  u <- draw (uniform (- literal 0.2) (literal 0.2))%Q ;;
  store (current self)
    (mk_weather
       (py_round (py_min (py_max (fadd (temperature cur) u) (-5)) 35) 1)
       (humidity cur) (condition cur)) ;;;
  (* self.current["humidity"] = round(min(max(... + uniform, 20), 90), 1) *)
  cur <- deref (current self) ;;
  u <- draw (uniform (- literal 0.5) (literal 0.5))%Q ;;
  store (current self)
    (mk_weather (temperature cur)
       (py_round (py_min (py_max (fadd (humidity cur) u) 20) 90) 1)
       (condition cur)) ;;;
  (* if random.random() < 0.05: self.current["condition"] = random.choice(...) *)
  r <- draw random ;;
  (if flt r (literal 0.05)
   then c <- draw_or IndexError (choice WEATHER_CONDITIONS) ;;
        cur <- deref (current self) ;;
        store (current self) (mk_weather (temperature cur) (humidity cur) c)
   else ret tt) ;;;
  (* return dict(self.current) *)
  cur <- deref (current self) ;;
  alloc cur.

(** ** generate_items *)

Definition base_prob_of (item : string) : Q :=
  let base_prob := literal 0.5 in
  let base_prob := if String.eqb item "fries" then literal 0.7 else base_prob in
  let base_prob :=
    if String.eqb item "ice_cream" || String.eqb item "dessert"
    then literal 0.3 else base_prob in
  base_prob.

(** One turn of the [for item, price in MENU_PRICES.items()] loop, on the
    loop state [(items, total)]. *)
Definition generate_items_turn (order_size : pyvalue)
    (acc : items_dict * Q) (entry : string * Q) : M (items_dict * Q) :=
  let (items, total) := acc in
  let (item, price) := entry in
  r <- draw random ;;
  if flt r (base_prob_of item) then
    let max_qty := if eq_str order_size "small" then 2%Z else 5%Z in
    qty <- draw (randint 1 max_qty) ;;
    ret (dict_set items item qty, fadd total (fmul (float_of_int qty) price))
  else ret (items, total).

Fixpoint for_each {S E} (body : S -> E -> M S) (l : list E) (s : S) : M S :=
  match l with
  | [] => ret s
  | e :: l' => s' <- body s e ;; for_each body l' s'
  end.

Definition generate_items (order_size : pyvalue) : M (items_dict * Q) :=
  acc <- for_each (generate_items_turn order_size) MENU_PRICES ([], literal 0.0) ;;
  ret (fst acc, py_round (snd acc) 2).

(** ** generate_items, with the [randint] of CPython *)

(** The same turn of the loop, with [random.randint] computed by rejection.
    Each call of [randint] draws at most [fuel] times; [None] says that a
    call was still drawing. *)
Definition generate_items_turn_by_rejection (fuel : nat) (order_size : pyvalue)
    (acc : items_dict * Q) (entry : string * Q) : M (option (items_dict * Q)) :=
  let (items, total) := acc in
  let (item, price) := entry in
  r <- draw random ;;
  if flt r (base_prob_of item) then
    let max_qty := if eq_str order_size "small" then 2%Z else 5%Z in
    drawn <- draw (randint_by_rejection fuel 1 max_qty) ;;
    match drawn with
    | Some qty =>
        ret (Some (dict_set items item qty,
                   fadd total (fmul (float_of_int qty) price)))
    | None => ret None
    end
  else ret (Some (items, total)).

Fixpoint for_each_until {S E} (body : S -> E -> M (option S)) (l : list E) (s : S)
  : M (option S) :=
  match l with
  | [] => ret (Some s)
  | e :: l' =>
      r <- body s e ;;
      match r with
      | Some s' => for_each_until body l' s'
      | None => ret None
      end
  end.

Definition generate_items_by_rejection (fuel : nat) (order_size : pyvalue)
  : M (option (items_dict * Q)) :=
  acc <- for_each_until (generate_items_turn_by_rejection fuel order_size)
           MENU_PRICES ([], literal 0.0) ;;
  ret (option_map (fun acc => (fst acc, py_round (snd acc) 2)) acc).

(** ** create_order *)

Definition create_order (ts : datetime) (weather : loc) : M order :=
  register_type <- draw_or IndexError (choice (map fst REGISTERS)) ;;
  pool <- or_raise KeyError (dict_get REGISTERS register_type) ;;
  register_id <- draw_or IndexError (choice pool) ;;
  employee_id <- draw_or IndexError (choice EMPLOYEES) ;;
  let size_weights := [literal 0.6; literal 0.4] in
  order_size <- draw_or ValueError (choices1 ["small"; "large"] size_weights) ;;
  generated <- generate_items (PyStr order_size) ;;
  let (items, total_amount) := generated in
  oid <- next_order_id ;;
  ret (mk_order oid (isoformat ts) "restaurant_001" register_type register_id
         employee_id order_size items total_amount (isoformat ts) weather).

(** ** historical_mode *)

Definition open_csv (output : string) : M unit :=
  fun w => (Ok tt, set_csv (<[output := []]> (w_csv w)) w).

(** [writer.writerow(order)]: the values are rendered when the row is
    written, the weather dictionary included. *)
Definition writerow (output : string) (o : order) : M unit :=
  weather_now <- deref (IsWeather o) ;;
  fun w =>
    (Ok tt,
     set_csv (<[output := (default [] (w_csv w !! output)
                           ++ [mk_row o weather_now])%list]> (w_csv w)) w).

(** What a bounded run of a loop reports when it does not raise. *)
Inductive progress := Finished | StillRunning.

(** The loop [while ts <= end: ...], run for at most [fuel] turns. *)
Fixpoint historical_loop (fuel : nat) (output : string)
    (weather_sim : WeatherSimulator) (ts end_ : datetime) (interval_sec : Z)
  : M progress :=
  match fuel with
  | O => ret (if dt_le ts end_ then StillRunning else Finished)
  | S fuel' =>
      if dt_le ts end_ then
        weather <- step weather_sim ;;
        order <- create_order ts weather ;;
        writerow output order ;;;
        ts' <- or_raise OverflowError (add_seconds ts interval_sec) ;;
        historical_loop fuel' output weather_sim ts' end_ interval_sec
      else ret Finished
  end.

Definition historical_mode (fuel : nat) (start end_ : datetime)
    (interval_sec : Z) (output : string) : M progress :=
  weather_sim <- WeatherSimulator_init None ;;
  open_csv output ;;;
  historical_loop fuel output weather_sim start end_ interval_sec.

End Script.

(* ===================================================================== *)
(** * Vocabulary of the properties                                       *)
(* ===================================================================== *)

Module Statements.

Import Binary64 PyRandom PyText PyDatetime Script.

(** ** Weather *)

(** [round(min(max(x, lo), hi), 1)]. *)
Definition clamp_round (x lo hi : Q) : Q := py_round (py_min (py_max x lo) hi) 1.

(** What one call of [step] does to the dictionary [d] and to the generator,
    as a function of both. *)
Definition step_pure (d : weather) (g : rng) : weather * rng :=
  let (u, g1) := uniform (- literal 0.2) (literal 0.2) g in
  let t := clamp_round (fadd (temperature d) u) (-5) 35 in
  let (v, g2) := uniform (- literal 0.5) (literal 0.5) g1 in
  let h := clamp_round (fadd (humidity d) v) 20 90 in
  let (r, g3) := random g2 in
  if flt r (literal 0.05) then
    let (k, g4) := randbelow (Z.of_nat (length WEATHER_CONDITIONS)) g3 in
    (mk_weather t h (default (condition d) (WEATHER_CONDITIONS !! Z.to_nat k)), g4)
  else (mk_weather t h (condition d), g3).

Definition weather_in_range (d : weather) : Prop :=
  ((-5 <= temperature d)%Q /\ (temperature d <= 35)%Q) /\
  ((20 <= humidity d)%Q /\ (humidity d <= 90)%Q).

(** [n] calls of [step] in a row; the snapshots they return. *)
Fixpoint steps (n : nat) (self : WeatherSimulator) : M (list loc) :=
  match n with
  | O => ret []
  | S n' => l <- step self ;; ls <- steps n' self ;; ret (l :: ls)
  end.

(** ** Items *)

(** The catalog price of an item. *)
Definition price_of (item : string) : Q := default 0%Q (dict_get MENU_PRICES item).

(** The exact sum of quantity times catalog price over an items mapping. *)
Definition items_value (items : items_dict) : Q :=
  fold_right (fun kq acc => (inject_Z (snd kq) * price_of (fst kq) + acc)%Q) 0%Q items.

Definition quantities_within (hi : Z) (items : items_dict) : Prop :=
  Forall (fun kq : string * Z => (1 <= snd kq <= hi)%Z) items.

(** The bound [max_qty] that [generate_items] computes from its argument. *)
Definition max_qty_of (order_size : pyvalue) : Z :=
  if eq_str order_size "small" then 2%Z else 5%Z.

(** A catalog entry whose price is a small integer, stored under its name. *)
Definition priced (e : string * Q) : Prop :=
  exists p : Z, snd e = inject_Z p /\ (0 <= p <= 14)%Z /\ price_of (fst e) = snd e.

(** ** The counter file and order identifiers *)

Definition counter_value (w : world) : Z :=
  match w_counter_file w with
  | None => 0%Z
  | Some text => default 0%Z (py_int text)
  end.

(** The counter file is absent, or holds what [save_last_order_id] wrote. *)
Definition counter_file_ok (w : world) : Prop :=
  w_counter_file w = None \/ exists n : Z, w_counter_file w = Some (py_str n).

Fixpoint no_space (s : string) : bool :=
  match s with
  | EmptyString => true
  | String c s' => negb (is_space c) && no_space s'
  end.

Fixpoint strip_prefix (p s : string) : option string :=
  match p, s with
  | EmptyString, _ => Some s
  | String a p', String b s' => if Ascii.eqb a b then strip_prefix p' s' else None
  | String _ _, EmptyString => None
  end.

(** The integer that an identifier [order_<n>] carries. *)
Definition order_number (oid : string) : option Z :=
  match strip_prefix "order_" oid with
  | Some digits => py_int digits
  | None => None
  end.

Definition id_lt (a b : string) : Prop :=
  match order_number a, order_number b with
  | Some m, Some n => (m < n)%Z
  | _, _ => False
  end.

(** What happens to the script over time: an order is created, or the
    process is restarted, which loses the memory (heap and generator) and
    keeps the files. *)
Inductive event :=
| EvCreate (ts : datetime) (weather : loc)
| EvRestart (g : rng).

Definition restart (g : rng) (w : world) : world :=
  mk_world g ∅ (w_counter_file w) (w_csv w).

Definition is_create (e : event) : bool :=
  match e with
  | EvCreate _ _ => true
  | EvRestart _ => false
  end.

(** The identifiers of the orders created along a sequence of events. *)
Fixpoint created_ids (evs : list event) (w : world) : list string :=
  match evs with
  | [] => []
  | EvCreate ts weather :: evs' =>
      match create_order ts weather w with
      | (Ok o, w') => order_id o :: created_ids evs' w'
      | (Raise _, w') => created_ids evs' w'
      end
  | EvRestart g :: evs' => created_ids evs' (restart g w)
  end.

(** ** Historical mode *)

(** The rows written so far to the CSV file at [output]. *)
Definition rows_of (output : string) (w : world) : list csv_row :=
  default [] (w_csv w !! output).

Definition row_timestamps (rows : list csv_row) : list string :=
  map (fun r => timestamp (row_order r)) rows.

(** The simulator's dictionary is allocated and the counter file is usable. *)
Definition ready (sim : WeatherSimulator) (w : world) : Prop :=
  (exists d, w_heap w !! current sim = Some d) /\ counter_file_ok w.

(** [walk end_ i n ts visited ts'] : starting at [ts], the loop test succeeds
    [n] times in a row, visiting the instants [visited] and leaving the
    clock at [ts']. *)
Inductive walk (end_ : datetime) (interval_sec : Z)
  : nat -> datetime -> list datetime -> datetime -> Prop :=
| walk_stop ts : walk end_ interval_sec 0 ts [] ts
| walk_turn n ts ts' visited ts'' :
    dt_le ts end_ = true ->
    add_seconds ts interval_sec = Some ts' ->
    walk end_ interval_sec n ts' visited ts'' ->
    walk end_ interval_sec (S n) ts (ts :: visited) ts''.

(** ** Further vocabulary: items *)

(** The sum of the catalog prices, in whole units. *)
Definition catalog_units (l : list (string * Q)) : Z :=
  fold_right (fun e acc => (Qfloor (snd e) + acc)%Z) 0%Z l.

(** A catalog entry priced between 5 and 14 units and stored under its name. *)
Definition priced_5_14 (e : string * Q) : Prop :=
  exists p : Z, snd e = inject_Z p /\ (5 <= p <= 14)%Z /\ price_of (fst e) = snd e.

(** The least value of a 53-bit draw that is not below the largest of the
    inclusion probabilities, 0.7. *)
Definition SKIP_DRAWS : N := 6305039478318694%N.

(** The mapping in which every catalog item has the quantity [q]. *)
Definition every_item (q : Z) : items_dict :=
  map (fun e : string * Q => (fst e, q)) MENU_PRICES.

(** A tape that holds the same draw in every cell. *)
Definition constant_tape (r : N) : nat -> N := fun _ => r.

(** The world whose generator is at the start of the tape [t]. *)
Definition on_tape (t : nat -> N) (w : world) : world := set_rng (mk_rng t 0) w.

(** The tape [t] with cell [p] replaced by [r]. *)
Definition replace_cell (t : nat -> N) (p : nat) (r : N) : nat -> N :=
  fun i => if (i =? p)%nat then r else t i.

(** The world with cell [p] of the tape replaced by [r]. *)
Definition with_cell (p : nat) (r : N) (w : world) : world :=
  set_rng (mk_rng (replace_cell (tape (w_rng w)) p r) (cursor (w_rng w))) w.

(** The rejection loop started at cell [c] stops at cell [p]. *)
Definition accepted_at (n : Z) (t : nat -> N) (c p : nat) : Prop :=
  (c <= p)%nat /\
  (forall i, (c <= i < p)%nat -> (n <= leading_bits (bit_length n) (t i))%Z) /\
  (leading_bits (bit_length n) (t p) < n)%Z.

(** The 32-bit word made of the [k] leading bits [v] and zeros. *)
Definition word_of_leading_bits (k v : Z) : N := Z.to_N (v * 2 ^ (32 - k)).

(** ** Further vocabulary: historical mode *)

(** The instant of the [k]-th turn of the loop, [start + k * interval]. *)
Definition tick (start : datetime) (interval_sec : Z) (k : nat) : datetime :=
  mk_datetime (micros start + Z.of_nat k * (interval_sec * US_PER_SECOND)).

(** How many instants [start + k * interval] are not after [end_]. *)
Definition turns (start end_ : datetime) (interval_sec : Z) : nat :=
  Z.to_nat ((micros end_ - micros start) / (interval_sec * US_PER_SECOND) + 1).

(** What the [k]-th row of a run holds, when the counter was at [base]. *)
Definition row_of_turn (start : datetime) (interval_sec base : Z)
    (k : nat) (r : csv_row) : Prop :=
  timestamp (row_order r) = isoformat (tick start interval_sec k) /\
  order_id (row_order r) = ("order_" ++ py_str (base + Z.of_nat k + 1))%string /\
  weather_in_range (row_weather r) /\
  condition (row_weather r) ∈ WEATHER_CONDITIONS.

(** How many instants [start + k * interval] are not before year 1, for a
    negative interval. *)
Definition turns_back (start : datetime) (interval_sec : Z) : nat :=
  Z.to_nat (micros start / (- interval_sec * US_PER_SECOND) + 1).

End Statements.

(* ===================================================================== *)
(** * Facts about binary64 rounding                                      *)
(* ===================================================================== *)

Module Binary64Facts.

Import Binary64.
Local Open Scope Q_scope.

(** ** Rounding to the nearest integer *)

Lemma rneQ_cases x : rneQ x = Qfloor x \/ rneQ x = (Qfloor x + 1)%Z.
Proof.
  unfold rneQ. destruct (Qcompare _ _); auto. destruct (Z.even _); auto.
Qed.

Lemma rneQ_mono x y : x <= y -> (rneQ x <= rneQ y)%Z.
Proof.
  intros Hxy.
  pose proof (Qfloor_resp_le _ _ Hxy) as Hf.
  destruct (Z.eq_dec (Qfloor x) (Qfloor y)) as [E|NE].
  - unfold rneQ. rewrite <- E.
    destruct (Qcompare_spec (x - inject_Z (Qfloor x)) (1#2));
    destruct (Qcompare_spec (y - inject_Z (Qfloor x)) (1#2));
    try destruct (Z.even (Qfloor x)); try lia; exfalso; lra.
  - destruct (rneQ_cases x) as [-> | ->]; destruct (rneQ_cases y) as [-> | ->]; lia.
Qed.

Lemma rneQ_inject z x : x == inject_Z z -> rneQ x = z.
Proof.
  intros E. unfold rneQ.
  assert (Qfloor x = z) as ->.
  { rewrite E. apply Qfloor_Z. }
  destruct (Qcompare_spec (x - inject_Z z) (1#2)); try reflexivity; exfalso; lra.
Qed.

(** ** Powers of two and the binary logarithm *)

Lemma pow2_pos e : 0 < 2 ^ e.
Proof. apply Qpower_0_lt. reflexivity. Qed.

Lemma pow2_add a b : 2 ^ (a + b) == 2 ^ a * 2 ^ b.
Proof. apply Qpower_plus. discriminate. Qed.

Lemma pow2_le a b : (a <= b)%Z -> 2 ^ a <= 2 ^ b.
Proof. intros H. apply Qpower_le_compat_l; [exact H | discriminate]. Qed.

Lemma pow2_lt_inv a b : 2 ^ a < 2 ^ b -> (a < b)%Z.
Proof. intros H. apply (Qpower_lt_compat_l_inv 2); [exact H | reflexivity]. Qed.

Lemma pow2_inject n : (0 <= n)%Z -> inject_Z (2 ^ n) == 2 ^ n.
Proof. intros H. apply (Zpower_Qpower 2 n H). Qed.

Lemma pow2_cancel e : 2 ^ (- e) * 2 ^ e == 1.
Proof. rewrite <- pow2_add. replace (- e + e)%Z with 0%Z by lia. reflexivity. Qed.

Lemma log2_bounds_Q (n : Z) :
  (0 < n)%Z -> 2 ^ Z.log2 n <= inject_Z n /\ inject_Z n < 2 ^ (Z.log2 n + 1).
Proof.
  intros Hn. destruct (Z.log2_spec n Hn) as [Hlo Hhi].
  pose proof (Z.log2_nonneg n) as Hnn.
  rewrite <- !pow2_inject by lia.
  rewrite <- Zle_Qle, <- Zlt_Qlt. replace (Z.log2 n + 1)%Z with (Z.succ (Z.log2 n)) by lia.
  split; assumption.
Qed.

Lemma Q_num_den x : x * inject_Z (Zpos (Qden x)) == inject_Z (Qnum x).
Proof.
  destruct x as [n d]. unfold Qeq, Qmult, inject_Z. simpl. lia.
Qed.

Lemma Qilog2_rough x :
  0 < x ->
  let k := (Z.log2 (Qnum x) - Z.log2 (Zpos (Qden x)))%Z in
  2 ^ (k - 1) < x /\ x < 2 ^ (k + 1).
Proof.
  intros Hx k.
  assert (Hn : (0 < Qnum x)%Z).
  { destruct x as [n d]. unfold Qlt in Hx. simpl in *. lia. }
  destruct (log2_bounds_Q (Qnum x) Hn) as [Hn1 Hn2].
  destruct (log2_bounds_Q (Zpos (Qden x)) eq_refl) as [Hd1 Hd2].
  pose proof (Q_num_den x) as E.
  set (a := Z.log2 (Qnum x)) in *. set (b := Z.log2 (Zpos (Qden x))) in *.
  pose proof (pow2_pos b) as Pb. pose proof (pow2_pos (b + 1)) as Pb1.
  split.
  - apply (Qmult_lt_r _ _ (2 ^ (b + 1))); [exact Pb1|].
    rewrite <- pow2_add. replace (k - 1 + (b + 1))%Z with a by (unfold k; lia).
    apply Qle_lt_trans with (inject_Z (Qnum x)); [exact Hn1|].
    rewrite <- E. apply Qmult_lt_l; assumption.
  - apply (Qmult_lt_r _ _ (2 ^ b)); [exact Pb|].
    rewrite <- pow2_add. replace (k + 1 + b)%Z with (a + 1)%Z by (unfold k; lia).
    apply Qle_lt_trans with (inject_Z (Qnum x)); [|exact Hn2].
    rewrite <- E. apply Qmult_le_l; assumption.
Qed.

Lemma Qilog2_spec x :
  0 < x -> 2 ^ Qilog2 x <= x /\ x < 2 ^ (Qilog2 x + 1).
Proof.
  intros Hx. destruct (Qilog2_rough x Hx) as [Hlo Hhi].
  unfold Qilog2.
  set (k := (Z.log2 (Qnum x) - Z.log2 (Zpos (Qden x)))%Z) in *.
  destruct (Qle_bool (2 ^ k) x) eqn:E.
  - apply Qle_bool_iff in E. split; assumption.
  - split; [apply Qlt_le_weak; exact Hlo|].
    replace (k - 1 + 1)%Z with k by lia.
    apply Qnot_le_lt. intros C. apply Qle_bool_iff in C. congruence.
Qed.

Lemma Qilog2_mono x y : 0 < x -> x <= y -> (Qilog2 x <= Qilog2 y)%Z.
Proof.
  intros Hx Hxy.
  assert (Hy : 0 < y) by (eapply Qlt_le_trans; eassumption).
  destruct (Qilog2_spec x Hx) as [Hx1 _].
  destruct (Qilog2_spec y Hy) as [_ Hy2].
  assert (H : 2 ^ Qilog2 x < 2 ^ (Qilog2 y + 1)).
  { eapply Qle_lt_trans; [exact Hx1|]. eapply Qle_lt_trans; eassumption. }
  apply pow2_lt_inv in H. lia.
Qed.

Lemma rneQ_le_inject x z : x <= inject_Z z -> (rneQ x <= z)%Z.
Proof.
  intros H. rewrite <- (rneQ_inject z (inject_Z z)) by reflexivity.
  apply rneQ_mono, H.
Qed.

Lemma rneQ_ge_inject x z : inject_Z z <= x -> (z <= rneQ x)%Z.
Proof.
  intros H. rewrite <- (rneQ_inject z (inject_Z z)) at 1 by reflexivity.
  apply rneQ_mono, H.
Qed.

(** ** Rounding to binary64 is monotone *)

Lemma rnd_pos_same_expo x y :
  expo x = expo y -> x <= y -> rnd_pos x <= rnd_pos y.
Proof.
  intros E Hxy. unfold rnd_pos. rewrite E.
  apply Qmult_le_compat_r; [|apply Qlt_le_weak, pow2_pos].
  rewrite <- Zle_Qle. apply rneQ_mono.
  apply Qmult_le_compat_r; [exact Hxy|apply Qlt_le_weak, pow2_pos].
Qed.

Lemma rnd_pos_nonneg x : 0 <= x -> 0 <= rnd_pos x.
Proof.
  intros Hx. unfold rnd_pos.
  apply Qmult_le_0_compat; [|apply Qlt_le_weak, pow2_pos].
  change 0 with (inject_Z 0). rewrite <- Zle_Qle.
  apply rneQ_ge_inject. apply Qmult_le_0_compat; [exact Hx|apply Qlt_le_weak, pow2_pos].
Qed.

Lemma rnd_pos_upper x : 0 < x -> rnd_pos x <= 2 ^ (expo x + 53).
Proof.
  intros Hx. destruct (Qilog2_spec x Hx) as [_ Hhi].
  unfold rnd_pos. set (e := expo x).
  assert (He : (Qilog2 x + 1 <= e + 53)%Z) by (unfold e, expo; lia).
  rewrite (Z.add_comm e 53), pow2_add.
  apply Qmult_le_compat_r; [|apply Qlt_le_weak, pow2_pos].
  rewrite <- (pow2_inject 53) by lia.
  rewrite <- Zle_Qle. apply rneQ_le_inject. rewrite (pow2_inject 53) by lia.
  apply (Qmult_le_r _ _ (2 ^ e)); [apply pow2_pos|].
  rewrite <- Qmult_assoc, pow2_cancel, Qmult_1_r, <- pow2_add.
  apply Qlt_le_weak. eapply Qlt_le_trans; [exact Hhi|]. apply pow2_le. lia.
Qed.

Lemma rnd_pos_lower y :
  0 < y -> expo y = (Qilog2 y - 52)%Z -> 2 ^ Qilog2 y <= rnd_pos y.
Proof.
  intros Hy E. destruct (Qilog2_spec y Hy) as [Hlo _].
  unfold rnd_pos. rewrite E. set (l := Qilog2 y) in *.
  replace l with (52 + (l - 52))%Z at 1 by lia. rewrite pow2_add.
  apply Qmult_le_compat_r; [|apply Qlt_le_weak, pow2_pos].
  rewrite <- (pow2_inject 52) by lia.
  rewrite <- Zle_Qle. apply rneQ_ge_inject. rewrite (pow2_inject 52) by lia.
  apply (Qmult_le_r _ _ (2 ^ (l - 52))); [apply pow2_pos|].
  rewrite <- Qmult_assoc, pow2_cancel, Qmult_1_r, <- pow2_add.
  replace (52 + (l - 52))%Z with l by lia. exact Hlo.
Qed.

Lemma rnd_pos_mono x y : 0 < x -> x <= y -> rnd_pos x <= rnd_pos y.
Proof.
  intros Hx Hxy.
  assert (Hy : 0 < y) by (eapply Qlt_le_trans; eassumption).
  pose proof (Qilog2_mono x y Hx Hxy) as Hl.
  destruct (Z.eq_dec (expo x) (expo y)) as [E|NE].
  - apply rnd_pos_same_expo; assumption.
  - assert (Ey : expo y = (Qilog2 y - 52)%Z) by (unfold expo in *; lia).
    apply Qle_trans with (2 ^ (expo x + 53)); [apply rnd_pos_upper; exact Hx|].
    apply Qle_trans with (2 ^ Qilog2 y); [|apply rnd_pos_lower; assumption].
    apply pow2_le. unfold expo in *. lia.
Qed.

Lemma Qnum_sign_pos x : 0 < x <-> (0 < Qnum x)%Z.
Proof. destruct x as [n d]. unfold Qlt. simpl. lia. Qed.

Lemma Qnum_sign_neg x : x < 0 <-> (Qnum x < 0)%Z.
Proof. destruct x as [n d]. unfold Qlt. simpl. lia. Qed.

Lemma rnd64_pos x : 0 < x -> rnd64 x == rnd_pos x.
Proof.
  intros H. apply Qnum_sign_pos in H. unfold rnd64.
  destruct (Qnum x); try lia. apply Qred_correct.
Qed.

Lemma rnd64_neg x : x < 0 -> rnd64 x == - rnd_pos (- x).
Proof.
  intros H. apply Qnum_sign_neg in H. unfold rnd64.
  destruct (Qnum x); try lia. apply Qred_correct.
Qed.

Lemma rnd64_zero x : x == 0 -> rnd64 x = 0.
Proof.
  intros H. unfold rnd64. destruct x as [n d]. unfold Qeq in H. simpl in *.
  replace n with 0%Z by lia. reflexivity.
Qed.

Lemma rnd64_nonneg x : 0 <= x -> 0 <= rnd64 x.
Proof.
  intros H. apply Qle_lt_or_eq in H. destruct H as [H|H].
  - rewrite (rnd64_pos x H). apply rnd_pos_nonneg, Qlt_le_weak, H.
  - rewrite (rnd64_zero x) by (symmetry; exact H). apply Qle_refl.
Qed.

Lemma rnd64_nonpos x : x <= 0 -> rnd64 x <= 0.
Proof.
  intros H. apply Qle_lt_or_eq in H. destruct H as [H|H].
  - rewrite (rnd64_neg x H).
    assert (0 <= rnd_pos (- x)) by (apply rnd_pos_nonneg; lra). lra.
  - rewrite (rnd64_zero x H). apply Qle_refl.
Qed.

Lemma rnd64_mono x y : x <= y -> rnd64 x <= rnd64 y.
Proof.
  intros Hxy.
  destruct (Qlt_le_dec 0 x) as [Hx|Hx].
  - assert (Hy : 0 < y) by (eapply Qlt_le_trans; eassumption).
    rewrite (rnd64_pos x Hx), (rnd64_pos y Hy). apply rnd_pos_mono; assumption.
  - destruct (Qlt_le_dec y 0) as [Hy|Hy].
    + assert (Hx' : x < 0) by (eapply Qle_lt_trans; [exact Hxy | exact Hy]).
      rewrite (rnd64_neg x Hx'), (rnd64_neg y Hy).
      apply Qopp_le_compat. apply rnd_pos_mono; lra.
    + apply Qle_trans with 0; [apply rnd64_nonpos|apply rnd64_nonneg]; assumption.
Qed.

(** ** Rounded values are canonical, and small integers are exact *)

Lemma rnd64_canon x : Qred (rnd64 x) = rnd64 x.
Proof.
  unfold rnd64. destruct (Qnum x); [reflexivity | |]; apply Qred_involutive.
Qed.

Lemma rnd64_Qeq x y : x == y -> rnd64 x = rnd64 y.
Proof.
  intros E. rewrite <- (rnd64_canon x), <- (rnd64_canon y).
  apply Qred_complete. apply Qle_antisym; apply rnd64_mono; rewrite E; apply Qle_refl.
Qed.

Lemma Qred_inject_Z z : Qred (inject_Z z) = inject_Z z.
Proof. apply Qred_iff. simpl. apply Z.gcd_1_r. Qed.

Lemma rnd_pos_inject_Z z :
  (0 < z < 2 ^ 53)%Z -> rnd_pos (inject_Z z) == inject_Z z.
Proof.
  intros [Hz Hb].
  assert (Hq : 0 < inject_Z z) by (change 0 with (inject_Z 0); rewrite <- Zlt_Qlt; exact Hz).
  destruct (Qilog2_spec _ Hq) as [Hlo _].
  assert (Hl : (Qilog2 (inject_Z z) < 53)%Z).
  { apply pow2_lt_inv. eapply Qle_lt_trans; [exact Hlo|].
    rewrite <- (pow2_inject 53) by lia. rewrite <- Zlt_Qlt. exact Hb. }
  unfold rnd_pos.
  assert (He : (expo (inject_Z z) <= 0)%Z) by (unfold expo; lia).
  set (e := expo (inject_Z z)) in *.
  rewrite (rneQ_inject (z * 2 ^ (- e))%Z).
  - rewrite inject_Z_mult, (pow2_inject (- e)) by lia.
    rewrite <- Qmult_assoc, pow2_cancel. apply Qmult_1_r.
  - rewrite inject_Z_mult, (pow2_inject (- e)) by lia. reflexivity.
Qed.

Lemma rnd64_inject_Z z :
  (Z.abs z < 2 ^ 53)%Z -> rnd64 (inject_Z z) = inject_Z z.
Proof.
  intros Hb.
  transitivity (Qred (rnd64 (inject_Z z))); [symmetry; apply rnd64_canon|].
  transitivity (Qred (inject_Z z)); [|apply Qred_inject_Z].
  apply Qred_complete.
  destruct (Z.lt_trichotomy z 0) as [Hz | [-> | Hz]].
  - assert (Hq : inject_Z z < 0)
      by (change 0 with (inject_Z 0); rewrite <- Zlt_Qlt; exact Hz).
    rewrite (rnd64_neg (inject_Z z) Hq).
    rewrite <- inject_Z_opp, (rnd_pos_inject_Z (- z)) by lia.
    rewrite inject_Z_opp. apply Qopp_involutive.
  - reflexivity.
  - assert (Hq : 0 < inject_Z z)
      by (change 0 with (inject_Z 0); rewrite <- Zlt_Qlt; exact Hz).
    rewrite (rnd64_pos (inject_Z z) Hq).
    apply rnd_pos_inject_Z. lia.
Qed.

(** ** [round(x, ndigits)], [min] and [max] *)

Lemma py_round_mono x y n : x <= y -> py_round x n <= py_round y n.
Proof.
  intros Hxy. unfold py_round.
  assert (Hp : 0 < inject_Z (10 ^ Z.of_nat n)).
  { change 0 with (inject_Z 0). rewrite <- Zlt_Qlt. apply Z.pow_pos_nonneg; lia. }
  apply rnd64_mono. apply Qmult_le_compat_r.
  - rewrite <- Zle_Qle. apply rneQ_mono. apply Qmult_le_compat_r; [exact Hxy|].
    apply Qlt_le_weak, Hp.
  - apply Qlt_le_weak, Qinv_lt_0_compat, Hp.
Qed.

Lemma py_round_Qeq x y n : x == y -> py_round x n = py_round y n.
Proof.
  intros E.
  transitivity (Qred (py_round x n)); [symmetry; apply rnd64_canon|].
  transitivity (Qred (py_round y n)); [|apply rnd64_canon].
  apply Qred_complete.
  apply Qle_antisym; apply py_round_mono; rewrite E; apply Qle_refl.
Qed.

Lemma flt_true x y : flt x y = true <-> x < y.
Proof.
  unfold flt. rewrite negb_true_iff. split.
  - intros H. apply Qnot_le_lt. intros C. apply Qle_bool_iff in C. congruence.
  - intros H. destruct (Qle_bool y x) eqn:E; [|reflexivity].
    apply Qle_bool_iff in E. exfalso. apply (Qlt_not_le _ _ H E).
Qed.

Lemma flt_false x y : flt x y = false <-> y <= x.
Proof.
  unfold flt. rewrite negb_false_iff. apply Qle_bool_iff.
Qed.

Lemma clamp_bounds x lo hi :
  lo <= hi -> lo <= py_min (py_max x lo) hi /\ py_min (py_max x lo) hi <= hi.
Proof.
  intros H. unfold py_min, py_max.
  destruct (flt x lo) eqn:E1.
  - destruct (flt hi lo) eqn:E2.
    + apply flt_true in E2. exfalso. apply (Qlt_not_le _ _ E2 H).
    + split; [apply Qle_refl | exact H].
  - apply flt_false in E1. destruct (flt hi x) eqn:E2.
    + split; [exact H | apply Qle_refl].
    + apply flt_false in E2. split; assumption.
Qed.

End Binary64Facts.

(* ===================================================================== *)
(** * Facts about [str] and [int] *)
(* ===================================================================== *)

Module PyTextFacts.

Import PyText Statements.

Local Open Scope string_scope.

Lemma no_space_digits d : no_space (NilEmpty.string_of_uint d) = true.
Proof. induction d; simpl; try rewrite IHd; reflexivity. Qed.

Lemma lstrip_no_space s : no_space s = true -> lstrip s = s.
Proof.
  destruct s as [|c s]; [reflexivity|]. simpl. intros H.
  apply andb_prop in H as [H _]. apply negb_true_iff in H. rewrite H. reflexivity.
Qed.

Lemma rstrip_no_space s : no_space s = true -> rstrip s = s.
Proof.
  induction s as [|c s IH]; [reflexivity|]. simpl. intros H.
  apply andb_prop in H as [Hc Hs]. apply negb_true_iff in Hc.
  rewrite (IH Hs). destruct s; [rewrite Hc|]; reflexivity.
Qed.

Lemma strip_no_space s : no_space s = true -> strip s = s.
Proof.
  intros H. unfold strip. rewrite (lstrip_no_space s H). apply rstrip_no_space, H.
Qed.

Lemma no_space_py_str n : no_space (py_str n) = true.
Proof.
  unfold py_str. destruct n as [|p|p]; simpl; [reflexivity| |].
  - unfold NilZero.string_of_uint. destruct (Pos.to_uint p); try reflexivity;
      apply (no_space_digits (_ _)).
  - unfold NilZero.string_of_uint. destruct (Pos.to_uint p); try reflexivity;
      apply (no_space_digits (_ _)).
Qed.

Lemma of_uint_to_uint p : Z.of_uint (Pos.to_uint p) = Zpos p.
Proof. unfold Z.of_uint. rewrite DecimalPos.Unsigned.of_to. reflexivity. Qed.

Lemma digit_groups_digits d b :
  digit_groups b (NilEmpty.string_of_uint d)
    = if b then Some (NilEmpty.string_of_uint d)
      else match d with
           | Decimal.Nil => None
           | _ => Some (NilEmpty.string_of_uint d)
           end.
Proof.
  revert b. induction d; intros b; cbn [NilEmpty.string_of_uint digit_groups];
    try rewrite IHd; destruct b; reflexivity.
Qed.

Lemma unsigned_of_text_to_uint p :
  unsigned_of_text (NilEmpty.string_of_uint (Pos.to_uint p)) = Some (Zpos p).
Proof.
  unfold unsigned_of_text. rewrite digit_groups_digits.
  pose proof (DecimalPos.Unsigned.to_uint_nonnil p) as Hnil.
  pose proof (of_uint_to_uint p) as Hz.
  pose proof (NilZero.usu (Pos.to_uint p) Hnil) as Hu.
  assert (Hs : NilZero.string_of_uint (Pos.to_uint p)
               = NilEmpty.string_of_uint (Pos.to_uint p)).
  { unfold NilZero.string_of_uint. destruct (Pos.to_uint p); congruence. }
  rewrite Hs in Hu.
  destruct (Pos.to_uint p); try congruence; rewrite Hu; cbn [option_map]; rewrite Hz;
    reflexivity.
Qed.

(** [int(str(n)) == n]. *)
Lemma py_int_py_str n : py_int (py_str n) = Some n.
Proof.
  unfold py_int. rewrite (strip_no_space _ (no_space_py_str n)).
  unfold py_str. destruct n as [|p|p]; [reflexivity| |].
  - cbn [Z.to_int NilZero.string_of_int].
    pose proof (DecimalPos.Unsigned.to_uint_nonnil p) as Hnil.
    pose proof (unsigned_of_text_to_uint p) as Hu.
    unfold NilZero.string_of_uint.
    destruct (Pos.to_uint p) eqn:E; try congruence;
      cbn [NilEmpty.string_of_uint] in *; exact Hu.
  - cbn [Z.to_int NilZero.string_of_int].
    pose proof (DecimalPos.Unsigned.to_uint_nonnil p) as Hnil.
    pose proof (unsigned_of_text_to_uint p) as Hu.
    unfold NilZero.string_of_uint.
    destruct (Pos.to_uint p) eqn:E; try congruence; rewrite Hu; reflexivity.
Qed.

Lemma py_str_inj a b : py_str a = py_str b -> a = b.
Proof.
  intros H. pose proof (py_int_py_str a) as Ha. rewrite H, py_int_py_str in Ha.
  congruence.
Qed.

End PyTextFacts.

(* ===================================================================== *)
(** * Facts about the weather simulator *)
(* ===================================================================== *)

Module WeatherFacts.

Import Binary64 PyRandom Script Statements Binary64Facts.
Local Open Scope Q_scope.

#[local] Arguments rnd64 : simpl never.
#[local] Arguments literal : simpl never.
#[local] Arguments py_round : simpl never.
#[local] Arguments fadd : simpl never.
#[local] Arguments fmul : simpl never.
#[local] Arguments uniform : simpl never.
#[local] Arguments random : simpl never.
#[local] Arguments randbelow : simpl never.
#[local] Arguments randint : simpl never.
#[local] Arguments flt : simpl never.
#[local] Arguments py_min : simpl never.
#[local] Arguments py_max : simpl never.

(** ** One call of [step] *)

Lemma step_run self w d :
  w_heap w !! current self = Some d ->
  step self w =
    let (d', g') := step_pure d (w_rng w) in
    let l := fresh (dom (w_heap w)) in
    (Ok l, mk_world g' (<[l := d']> (<[current self := d']> (w_heap w)))
             (w_counter_file w) (w_csv w)).
Proof.
  intros Hd. destruct w as [g h f c]. cbn [w_heap w_rng w_counter_file w_csv] in *.
  assert (Hdom : forall x, dom (<[current self := x]> h) = dom h).
  { intros x. rewrite dom_insert_L. apply subseteq_union_1_L.
    apply singleton_subseteq_l. apply (elem_of_dom_2 _ _ _ Hd). }
  unfold step, step_pure, bind, deref, draw, draw_or, store, alloc, or_raise, ret,
    clamp_round, uniform, random, randbelow, next_raw.
  cbn [w_heap w_rng w_counter_file w_csv set_rng set_heap tape cursor].
  rewrite Hd.
  cbn [w_heap w_rng w_counter_file w_csv set_rng set_heap tape cursor].
  rewrite lookup_insert_eq.
  cbn [w_heap w_rng w_counter_file w_csv set_rng set_heap tape cursor
       temperature humidity condition].
  match goal with |- context [flt ?r ?c] => destruct (flt r c) end.
  - unfold choice, randbelow, next_raw.
    cbn [WEATHER_CONDITIONS w_heap w_rng w_counter_file w_csv set_rng set_heap
         tape cursor].
    change (["sunny"; "cloudy"; "rainy"; "snowy"]%string) with WEATHER_CONDITIONS.
    match goal with |- context [WEATHER_CONDITIONS !! ?k] =>
      destruct (lookup_lt_is_Some_2 WEATHER_CONDITIONS k) as [x Hn]
    end.
    { match goal with |- context [(?a mod ?b)%Z] =>
        pose proof (Z.mod_pos_bound a b) as Hb end.
      change (length WEATHER_CONDITIONS) with 4%nat in *. lia. }
    rewrite Hn.
    repeat (rewrite ?lookup_insert_eq, ?insert_insert_eq;
            cbn [w_heap w_rng w_counter_file w_csv set_rng set_heap tape cursor
                 temperature humidity condition default]).
    rewrite Hdom. reflexivity.
  - repeat (rewrite ?lookup_insert_eq, ?insert_insert_eq;
            cbn [w_heap w_rng w_counter_file w_csv set_rng set_heap tape cursor
                 temperature humidity condition default]).
    rewrite Hdom. reflexivity.
Qed.

Lemma clamp_round_range x lo hi :
  lo <= hi ->
  py_round lo 1 <= clamp_round x lo hi /\ clamp_round x lo hi <= py_round hi 1.
Proof.
  intros H. destruct (clamp_bounds x lo hi H) as [H1 H2].
  unfold clamp_round. split; apply py_round_mono; assumption.
Qed.

Lemma temperature_bounds x : -5 <= clamp_round x (-5) 35 /\ clamp_round x (-5) 35 <= 35.
Proof.
  assert (H : -5 <= 35) by (vm_compute; discriminate).
  destruct (clamp_round_range x _ _ H) as [H1 H2].
  replace (py_round (-5) 1) with (-5) in H1 by (vm_compute; reflexivity).
  replace (py_round 35 1) with 35 in H2 by (vm_compute; reflexivity).
  split; assumption.
Qed.

Lemma humidity_bounds x : 20 <= clamp_round x 20 90 /\ clamp_round x 20 90 <= 90.
Proof.
  assert (H : 20 <= 90) by (vm_compute; discriminate).
  destruct (clamp_round_range x _ _ H) as [H1 H2].
  replace (py_round 20 1) with 20 in H1 by (vm_compute; reflexivity).
  replace (py_round 90 1) with 90 in H2 by (vm_compute; reflexivity).
  split; assumption.
Qed.

Lemma step_pure_fields d g :
  exists u v c,
    fst (step_pure d g) =
      mk_weather (clamp_round (fadd (temperature d) u) (-5) 35)
                 (clamp_round (fadd (humidity d) v) 20 90) c.
Proof.
  unfold step_pure.
  destruct (uniform _ _ g) as [u g1]. destruct (uniform _ _ g1) as [v g2].
  destruct (random g2) as [r g3]. exists u, v.
  destruct (flt r _).
  - destruct (randbelow _ g3) as [k g4]. eexists. reflexivity.
  - eexists. reflexivity.
Qed.

Lemma step_pure_in_range d g : weather_in_range (fst (step_pure d g)).
Proof.
  destruct (step_pure_fields d g) as (u & v & c & ->).
  split; simpl; [apply temperature_bounds | apply humidity_bounds].
Qed.

Lemma fresh_not_current (h : gmap loc weather) (l : loc) (d : weather) :
  h !! l = Some d -> fresh (dom h) <> l.
Proof.
  intros Hd E. apply (is_fresh (dom h)). rewrite E. apply (elem_of_dom_2 _ _ _ Hd).
Qed.

Lemma steps_invariant self n : forall w d,
  w_heap w !! current self = Some d ->
  weather_in_range d ->
  exists ls w',
    steps n self w = (Ok ls, w') /\
    length ls = n /\
    (exists d', w_heap w' !! current self = Some d' /\ weather_in_range d') /\
    Forall (fun l => exists s, w_heap w' !! l = Some s /\ weather_in_range s) ls /\
    (forall l x, l <> current self -> w_heap w !! l = Some x -> w_heap w' !! l = Some x) /\
    w_counter_file w' = w_counter_file w /\ w_csv w' = w_csv w.
Proof.
  induction n as [|n IH]; intros w d Hd Hr.
  - exists [], w. simpl. unfold ret. repeat split; eauto.
  - simpl. unfold bind at 1. rewrite (step_run self w d Hd).
    destruct (step_pure d (w_rng w)) as [d1 g1] eqn:E1.
    assert (Hr1 : weather_in_range d1).
    { pose proof (step_pure_in_range d (w_rng w)) as H. rewrite E1 in H. exact H. }
    cbv zeta. set (l1 := fresh (dom (w_heap w))).
    assert (Hl1 : l1 <> current self) by (eapply fresh_not_current; eassumption).
    match goal with |- context [(Ok l1, ?x)] => set (w1 := x) end.
    assert (Hd1 : w_heap w1 !! current self = Some d1).
    { simpl. rewrite lookup_insert_ne by exact Hl1. apply lookup_insert_eq. }
    destruct (IH w1 d1 Hd1 Hr1) as (ls & w' & Hrun & Hlen & Hcur & Hall & Hframe & Hf & Hc).
    exists (l1 :: ls), w'. unfold bind. rewrite Hrun. unfold ret.
    split; [reflexivity|]. split; [simpl; congruence|]. split; [exact Hcur|].
    split; [|split; [|split; [rewrite Hf; reflexivity | rewrite Hc; reflexivity]]].
    + constructor; [|exact Hall]. exists d1. split; [|exact Hr1].
      apply Hframe; [exact Hl1|]. simpl. apply lookup_insert_eq.
    + intros l x Hne Hx. apply Hframe; [exact Hne|]. simpl.
      assert (l <> l1).
      { intros ->. apply (is_fresh (dom (w_heap w))). apply (elem_of_dom_2 _ _ _ Hx). }
      rewrite !lookup_insert_ne by congruence. exact Hx.
Qed.

(** ** The draws of [step] *)

Lemma unit_of_raw_range r : 0 <= unit_of_raw r /\ unit_of_raw r < 1.
Proof.
  unfold unit_of_raw, Qle, Qlt. cbn [Qnum Qden].
  assert (H : (r mod 2 ^ 53 < 2 ^ 53)%N) by (apply N.mod_lt; discriminate).
  change (Z.pos (2 ^ 53)) with (Z.of_N (2 ^ 53)).
  set (K := (2 ^ 53)%N) in *. clearbody K.
  set (m := (r mod K)%N) in *. clearbody m. lia.
Qed.

Lemma uniform_of_unit_range a b u :
  0 <= u -> u <= 1 -> 0 <= fsub b a ->
  rnd64 a <= uniform_of_unit a b u /\
  uniform_of_unit a b u <= fadd a (rnd64 (fsub b a)).
Proof.
  intros Hu0 Hu1 Hc. unfold uniform_of_unit.
  set (c := fsub b a) in *.
  assert (Hm0 : 0 <= fmul c u).
  { unfold fmul. apply rnd64_nonneg. apply Qmult_le_0_compat; assumption. }
  assert (Hm1 : fmul c u <= rnd64 c).
  { unfold fmul. apply rnd64_mono. nra. }
  unfold fadd. split; apply rnd64_mono.
  - lra.
  - lra.
Qed.

Lemma temperature_draw_range r :
  - literal 0.2 <= uniform_of_unit (- literal 0.2) (literal 0.2) (unit_of_raw r) /\
  uniform_of_unit (- literal 0.2) (literal 0.2) (unit_of_raw r) <= literal 0.2.
Proof.
  destruct (unit_of_raw_range r) as [H0 H1].
  destruct (uniform_of_unit_range (- literal 0.2) (literal 0.2) (unit_of_raw r))
    as [Hlo Hhi]; [exact H0 | apply Qlt_le_weak, H1 | vm_compute; discriminate |].
  replace (rnd64 (- literal 0.2)) with (- literal 0.2) in Hlo by (vm_compute; reflexivity).
  replace (fadd (- literal 0.2) (rnd64 (fsub (literal 0.2) (- literal 0.2))))
    with (literal 0.2) in Hhi by (vm_compute; reflexivity).
  split; assumption.
Qed.

Lemma humidity_draw_range r :
  - literal 0.5 <= uniform_of_unit (- literal 0.5) (literal 0.5) (unit_of_raw r) /\
  uniform_of_unit (- literal 0.5) (literal 0.5) (unit_of_raw r) <= literal 0.5.
Proof.
  destruct (unit_of_raw_range r) as [H0 H1].
  destruct (uniform_of_unit_range (- literal 0.5) (literal 0.5) (unit_of_raw r))
    as [Hlo Hhi]; [exact H0 | apply Qlt_le_weak, H1 | vm_compute; discriminate |].
  replace (rnd64 (- literal 0.5)) with (- literal 0.5) in Hlo by (vm_compute; reflexivity).
  replace (fadd (- literal 0.5) (rnd64 (fsub (literal 0.5) (- literal 0.5))))
    with (literal 0.5) in Hhi by (vm_compute; reflexivity).
  split; assumption.
Qed.

(** The test [random.random() < 0.05] succeeds on 450359962737050 of the
    [2^53] equally likely values of the draw. *)
Lemma replace_condition_iff r :
  flt (unit_of_raw r) (literal 0.05) = true <-> (r mod 2 ^ 53 < 450359962737050)%N.
Proof.
  rewrite flt_true.
  replace (literal 0.05) with (3602879701896397 # 72057594037927936)
    by (vm_compute; reflexivity).
  unfold unit_of_raw, Qlt. cbn [Qnum Qden].
  set (m := (r mod 2 ^ 53)%N). clearbody m.
  change (Z.pos (2 ^ 53)) with 9007199254740992%Z. lia.
Qed.

End WeatherFacts.

(* ===================================================================== *)
(** * Facts about [generate_items] *)
(* ===================================================================== *)

Module ItemFacts.

Import Binary64 PyRandom Script Statements Binary64Facts.
Local Open Scope Q_scope.

Lemma turn_run order_size items total item price w :
  generate_items_turn order_size (items, total) (item, price) w =
    let g := w_rng w in
    if flt (unit_of_raw (tape g (cursor g))) (base_prob_of item) then
      let qty := (1 + Z.of_N (tape g (S (cursor g))) mod max_qty_of order_size)%Z in
      (Ok (dict_set items item qty, fadd total (fmul (float_of_int qty) price)),
       set_rng (mk_rng (tape g) (S (S (cursor g)))) w)
    else (Ok (items, total), set_rng (mk_rng (tape g) (S (cursor g))) w).
Proof.
  unfold generate_items_turn, bind, draw, random, randint, randbelow, next_raw, ret, max_qty_of.
  cbn [w_rng set_rng tape cursor]. cbv zeta.
  destruct (flt _ _); [|reflexivity].
  destruct (eq_str order_size "small"); reflexivity.
Qed.

Lemma for_each_cons {S E} (body : S -> E -> M S) (e : E) (l : list E) (s : S) (w : world) :
  for_each body (e :: l) s w
    = match body s e w with
      | (Ok s', w') => for_each body l s' w'
      | (Raise x, w') => (Raise x, w')
      end.
Proof. cbn [for_each]. unfold bind. destruct (body s e w) as [[s'|x] w']; reflexivity. Qed.

Lemma dict_set_fresh (d : items_dict) k v :
  k ∉ map fst d -> dict_set d k v = d ++ [(k, v)].
Proof.
  induction d as [|[k' v'] d IH]; intros Hk; [reflexivity|]. simpl in *.
  apply not_elem_of_cons in Hk as [Hne Hk].
  destruct (String.eqb_spec k' k) as [E|_]; [congruence|].
  rewrite (IH Hk). reflexivity.
Qed.

Lemma items_value_app a b : items_value (a ++ b) == items_value a + items_value b.
Proof.
  induction a as [|x a IH]; simpl.
  - symmetry. apply Qplus_0_l.
  - rewrite IH. apply Qplus_assoc.
Qed.

Lemma for_each_items order_size rest : forall items N w,
  Forall priced rest ->
  NoDup (map fst rest) ->
  (forall k, k ∈ map fst items -> k ∉ map fst rest) ->
  items_value items == inject_Z N ->
  (0 <= N)%Z -> (N + 70 * Z.of_nat (length rest) < 2 ^ 53)%Z ->
  quantities_within (max_qty_of order_size) items ->
  exists items' N' g',
    for_each (generate_items_turn order_size) rest (items, inject_Z N) w
      = (Ok (items', inject_Z N'), set_rng g' w) /\
    items_value items' == inject_Z N' /\
    (0 <= N')%Z /\ (N' <= N + 70 * Z.of_nat (length rest))%Z /\
    quantities_within (max_qty_of order_size) items'.
Proof.
  induction rest as [|[item price] rest IH]; intros items N w Hp Hnd Hk Hv HN Hb Hq.
  - exists items, N, (w_rng w). simpl. unfold ret. destruct w. simpl in *.
    repeat split; try assumption; lia.
  - apply Forall_cons in Hp as [(p & Hprice & Hpr & Hpo) Hp]. simpl in Hprice, Hpo.
    apply NoDup_cons in Hnd as [Hni Hnd]. simpl in Hni.
    cbn [for_each]. unfold bind at 1. rewrite turn_run. cbv zeta.
    cbn [length] in Hb.
    destruct (flt _ _); cbv beta iota.
    + set (qty := (1 + _ mod _)%Z).
      assert (Hqty : (1 <= qty <= max_qty_of order_size)%Z).
      { unfold qty.
        assert (0 < max_qty_of order_size)%Z by (unfold max_qty_of; destruct eq_str; lia).
        pose proof (Z.mod_pos_bound (Z.of_N (tape (w_rng w) (S (cursor (w_rng w)))))
                      (max_qty_of order_size)). lia. }
      assert (Hq5 : (max_qty_of order_size <= 5)%Z) by (unfold max_qty_of; destruct eq_str; lia).
      assert (Hfresh : item ∉ map fst items).
      { intros Hin. apply (Hk _ Hin). simpl. apply elem_of_cons. left. reflexivity. }
      rewrite (dict_set_fresh _ _ _ Hfresh).
      assert (Htot : fadd (inject_Z N) (fmul (float_of_int qty) price)
                     = inject_Z (N + qty * p)).
      { unfold fadd, fmul, float_of_int. subst price.
        rewrite (rnd64_inject_Z qty) by lia.
        rewrite <- inject_Z_mult, (rnd64_inject_Z (qty * p)) by nia.
        rewrite <- inject_Z_plus. apply rnd64_inject_Z. nia. }
      rewrite Htot.
      destruct (IH (items ++ [(item, qty)]) (N + qty * p)%Z
                  (set_rng (mk_rng (tape (w_rng w)) (S (S (cursor (w_rng w))))) w))
        as (items' & N' & g' & Hrun & Hv' & HN' & Hb' & Hq').
      * exact Hp.
      * exact Hnd.
      * intros k Hin. rewrite map_app in Hin. apply elem_of_app in Hin as [Hin|Hin].
        -- specialize (Hk k Hin). simpl in Hk. apply not_elem_of_cons in Hk. tauto.
        -- simpl in Hin. apply list_elem_of_singleton in Hin. subst k. exact Hni.
      * rewrite items_value_app, Hv. simpl. rewrite Hpo, Hprice.
        rewrite inject_Z_plus, inject_Z_mult. ring.
      * nia.
      * nia.
      * apply Forall_app. split; [exact Hq|]. constructor; [exact Hqty|constructor].
      * exists items', N', g'. split; [exact Hrun|].
        assert (qty * p <= 70)%Z by nia.
        repeat split; try assumption. cbn [length]. lia.
    + destruct (IH items N (set_rng (mk_rng (tape (w_rng w)) (S (cursor (w_rng w)))) w))
        as (items' & N' & g' & Hrun & Hv' & HN' & Hb' & Hq'); try assumption.
      * intros k Hin. specialize (Hk k Hin). simpl in Hk. apply not_elem_of_cons in Hk. tauto.
      * lia.
      * exists items', N', g'. split; [exact Hrun|].
        repeat split; try assumption. cbn [length]. lia.
Qed.


Lemma MENU_PRICES_priced : Forall priced MENU_PRICES.
Proof.
  unfold MENU_PRICES.
  repeat (apply Forall_cons; split;
          [eexists; split; [vm_compute; reflexivity|];
           split; [lia | vm_compute; reflexivity] |]).
  apply Forall_nil. exact I.
Qed.

Lemma MENU_PRICES_NoDup : NoDup (map fst MENU_PRICES).
Proof. apply (bool_decide_unpack _). vm_compute. exact I. Qed.

Lemma py_round_inject_Z N n :
  (Z.abs N < 2 ^ 53)%Z -> py_round (inject_Z N) n = inject_Z N.
Proof.
  intros HN. unfold py_round.
  set (p := (10 ^ Z.of_nat n)%Z).
  assert (Hp : (0 < p)%Z) by (apply Z.pow_pos_nonneg; lia).
  rewrite <- inject_Z_mult.
  rewrite (rneQ_inject (N * p)) by reflexivity.
  rewrite <- (rnd64_inject_Z N HN). apply rnd64_Qeq.
  rewrite inject_Z_mult. field.
  intros E. unfold Qeq in E. simpl in E. fold p in E. lia.
Qed.

Lemma generate_items_run order_size w :
  exists items N g',
    generate_items order_size w = (Ok (items, inject_Z N), set_rng g' w) /\
    items_value items == inject_Z N /\
    (0 <= N < 2 ^ 53)%Z /\
    quantities_within (max_qty_of order_size) items.
Proof.
  destruct (for_each_items order_size MENU_PRICES [] 0 w)
    as (items & N & g' & Hrun & Hv & HN & Hb & Hq).
  - apply MENU_PRICES_priced.
  - apply MENU_PRICES_NoDup.
  - intros k Hk. inversion Hk.
  - reflexivity.
  - lia.
  - vm_compute. reflexivity.
  - constructor.
  - exists items, N, g'. unfold generate_items, bind.
    replace (literal 0.0) with (inject_Z 0) by (vm_compute; reflexivity).
    assert (Hlen : (Z.of_nat (length MENU_PRICES) = 6)%Z) by reflexivity.
    assert (HN' : (Z.abs N < 2 ^ 53)%Z) by lia.
    rewrite Hrun. unfold ret. cbn [fst snd].
    rewrite (py_round_inject_Z N 2 HN').
    repeat split; try assumption; lia.
Qed.

End ItemFacts.

(* ===================================================================== *)
(** * Facts about the counter and [create_order] *)
(* ===================================================================== *)

Module OrderFacts.

Import Binary64 PyRandom PyText PyDatetime Script Statements.
Import Binary64Facts PyTextFacts ItemFacts.

Local Open Scope string_scope.

Lemma next_order_id_cases w :
  next_order_id w =
    match w_counter_file w with
    | None => (Ok ("order_" ++ py_str 1), set_counter_file (Some (py_str 1)) w)
    | Some text =>
        match py_int text with
        | Some n => (Ok ("order_" ++ py_str (n + 1)),
                     set_counter_file (Some (py_str (n + 1))) w)
        | None => (Raise ValueError, w)
        end
    end.
Proof.
  unfold next_order_id, bind, load_last_order_id, save_last_order_id, ret, or_raise.
  destruct (w_counter_file w) as [text|]; [|reflexivity].
  destruct (py_int text); reflexivity.
Qed.

Lemma next_order_id_run w :
  counter_file_ok w ->
  next_order_id w =
    (Ok ("order_" ++ py_str (counter_value w + 1)),
     set_counter_file (Some (py_str (counter_value w + 1))) w).
Proof.
  intros Hok. rewrite next_order_id_cases. unfold counter_value.
  destruct Hok as [-> | [n ->]]; [reflexivity|].
  rewrite py_int_py_str. reflexivity.
Qed.

Lemma choice_nonempty {A} (l : list A) (g : rng) :
  l <> [] ->
  exists x, choice l g = (Some x, mk_rng (tape g) (S (cursor g))) /\ x ∈ l.
Proof.
  intros Hl. unfold choice, randbelow, next_raw.
  destruct l as [|a l]; [congruence|].
  set (l' := a :: l) in *.
  set (k := Z.to_nat (Z.of_N (tape g (cursor g)) mod Z.of_nat (length l'))).
  assert (Hk : (k < length l')%nat).
  { unfold k.
    pose proof (Z.mod_pos_bound (Z.of_N (tape g (cursor g))) (Z.of_nat (length l'))).
    assert (0 < Z.of_nat (length l'))%Z by (simpl; lia). lia. }
  destruct (lookup_lt_is_Some_2 l' k Hk) as [x Hx].
  exists x. rewrite Hx. split; [reflexivity|].
  apply list_elem_of_lookup. exists k. exact Hx.
Qed.

Lemma draw_choice {A} (l : list A) (w : world) :
  l <> [] ->
  exists x,
    draw_or IndexError (choice l) w
      = (Ok x, set_rng (mk_rng (tape (w_rng w)) (S (cursor (w_rng w)))) w) /\ x ∈ l.
Proof.
  intros Hl. destruct (choice_nonempty l (w_rng w) Hl) as (x & Hx & Hin).
  exists x. unfold draw_or. rewrite Hx. split; [reflexivity | exact Hin].
Qed.

Lemma choices1_pair {A} (a b : A) (wa wb : Q) (g : rng) :
  Qle_bool (fadd (fadd wa wb) 0) 0 = false ->
  exists x,
    choices1 [a; b] [wa; wb] g = (Some x, mk_rng (tape g) (S (cursor g))) /\
    (x = a \/ x = b).
Proof.
  intros Ht. unfold choices1. cbn [accumulate accumulate_from length Nat.eqb negb List.last].
  rewrite Ht. unfold random, next_raw. cbn [Nat.sub bisect].
  destruct (flt _ _); [exists a | exists b]; split; auto.
Qed.


Lemma set_rng_set_rng g1 g2 w : set_rng g2 (set_rng g1 w) = set_rng g2 w.
Proof. reflexivity. Qed.

Lemma create_order_cases ts weather w :
  exists register_type register_id employee_id order_size items N g',
    create_order ts weather w =
      bind next_order_id
        (fun oid =>
           ret (mk_order oid (isoformat ts) "restaurant_001" register_type
                  register_id employee_id order_size items (inject_Z N)
                  (isoformat ts) weather))
        (set_rng g' w) /\
    (order_size = "small" \/ order_size = "large") /\
    (items_value items == inject_Z N)%Q /\
    (0 <= N < 2 ^ 53)%Z /\
    quantities_within (max_qty_of (PyStr order_size)) items /\
    (exists pool, dict_get REGISTERS register_type = Some pool /\ register_id ∈ pool) /\
    employee_id ∈ EMPLOYEES.
Proof.
  unfold create_order.
  destruct (draw_choice (map fst REGISTERS) w) as (rt & Hrt & Hin); [discriminate|].
  unfold bind at 1. rewrite Hrt. clear Hrt. cbv beta iota.
  assert (Hpool : exists pool, dict_get REGISTERS rt = Some pool /\ pool <> []).
  { cbn in Hin. repeat (apply elem_of_cons in Hin as [-> | Hin]);
      [eexists; split; [reflexivity | discriminate] ..|inversion Hin]. }
  destruct Hpool as (pool & Hpool & Hne).
  unfold bind at 1. rewrite Hpool. cbn [or_raise]. unfold ret at 1. cbv beta iota.
  unfold bind at 1.
  match goal with |- context [draw_or IndexError (choice pool) ?w1] =>
    destruct (draw_choice pool w1 Hne) as (rid & Hrid & Hrin) end.
  rewrite Hrid. clear Hrid. cbv beta iota.
  unfold bind at 1.
  match goal with |- context [draw_or IndexError (choice EMPLOYEES) ?w1] =>
    destruct (draw_choice EMPLOYEES w1) as (eid & Heid & Hein); [discriminate|] end.
  rewrite Heid. clear Heid. cbv beta iota.
  unfold bind at 1.
  match goal with |- context [draw_or ValueError ?c ?w1] =>
    destruct (choices1_pair "small" "large" (literal 0.6) (literal 0.4) (w_rng w1))
      as (sz & Hsz & Hsz') end; [vm_compute; reflexivity|].
  unfold draw_or at 1. rewrite Hsz. clear Hsz. cbv beta iota.
  unfold bind at 1.
  match goal with |- context [generate_items (PyStr sz) ?w1] =>
    destruct (generate_items_run (PyStr sz) w1) as (items & N & g' & Hgen & Hv & HN & Hq) end.
  rewrite Hgen. clear Hgen. cbv beta iota.
  exists rt, rid, eid, sz, items, N, g'.
  split; [reflexivity|]. repeat split; try assumption; try lia.
  exists pool. split; assumption.
Qed.

(** The outcome of [create_order] on a usable counter file. *)
Lemma create_order_run ts weather w :
  counter_file_ok w ->
  exists o g',
    create_order ts weather w =
      (Ok o, set_counter_file (Some (py_str (counter_value w + 1))) (set_rng g' w)) /\
    order_id o = "order_" ++ py_str (counter_value w + 1) /\
    timestamp o = isoformat ts /\
    processing_time o = isoformat ts /\
    IsWeather o = weather.
Proof.
  intros Hok.
  destruct (create_order_cases ts weather w)
    as (rt & rid & eid & sz & items & N & g' & Hrun & _).
  rewrite Hrun. unfold bind.
  assert (Hok' : counter_file_ok (set_rng g' w)) by exact Hok.
  rewrite (next_order_id_run _ Hok'). unfold ret.
  eexists _, g'. split; [reflexivity|]. repeat split.
Qed.

(** Whatever [create_order] returns carries the fields it was built from. *)
Lemma create_order_inv ts weather w o w' :
  create_order ts weather w = (Ok o, w') ->
  timestamp o = isoformat ts /\
  processing_time o = isoformat ts /\
  IsWeather o = weather /\
  total_amount o = py_round (items_value (items o)) 2 /\
  (total_amount o == items_value (items o))%Q /\
  (order_size o = "small" \/ order_size o = "large") /\
  quantities_within (max_qty_of (PyStr (order_size o))) (items o).
Proof.
  intros H.
  destruct (create_order_cases ts weather w)
    as (rt & rid & eid & sz & items & N & g' & Hrun & Hsz & Hv & HN & Hq & _).
  rewrite Hrun in H. unfold bind in H. rewrite next_order_id_cases in H.
  assert (Hr : py_round (items_value items) 2 = inject_Z N).
  { rewrite (py_round_Qeq _ _ 2 Hv). apply py_round_inject_Z. lia. }
  destruct (w_counter_file (set_rng g' w)) as [text|].
  - destruct (py_int text); [|discriminate].
    unfold ret in H. injection H as <- _. cbn.
    repeat split; try assumption; try (symmetry; assumption).
  - unfold ret in H. injection H as <- _. cbn.
    repeat split; try assumption; try (symmetry; assumption).
Qed.

End OrderFacts.

(* ===================================================================== *)
(** * Facts about [historical_mode] *)
(* ===================================================================== *)

Module HistoryFacts.

Import Binary64 PyRandom PyText PyDatetime Script Statements.
Import PyTextFacts WeatherFacts OrderFacts.

Lemma counter_value_set n w :
  counter_value (set_counter_file (Some (py_str n)) w) = n.
Proof. unfold counter_value. simpl. rewrite py_int_py_str. reflexivity. Qed.

Lemma historical_turn fuel output sim ts end_ i w ts' :
  ready sim w ->
  dt_le ts end_ = true ->
  add_seconds ts i = Some ts' ->
  exists w1 o wd,
    historical_loop (S fuel) output sim ts end_ i w
      = historical_loop fuel output sim ts' end_ i w1 /\
    ready sim w1 /\
    counter_value w1 = (counter_value w + 1)%Z /\
    w_csv w1 = <[output := rows_of output w ++ [mk_row o wd]]> (w_csv w) /\
    timestamp o = isoformat ts /\
    order_id o = ("order_" ++ py_str (counter_value w + 1))%string.
Proof.
  intros [[d Hd] Hok] Hle Hadd.
  cbn [historical_loop]. rewrite Hle.
  unfold bind at 1. rewrite (step_run sim w d Hd).
  destruct (step_pure d (w_rng w)) as [d1 g1]. cbv zeta beta iota.
  set (l := fresh (dom (w_heap w))).
  assert (Hl : l <> current sim) by (eapply fresh_not_current; eassumption).
  match goal with |- context [(bind (create_order ts l) _) ?x] => set (w0 := x) end.
  assert (Hok0 : counter_file_ok w0) by exact Hok.
  destruct (create_order_run ts l w0 Hok0) as (o & g' & Hrun & Hid & Hts & _ & Hw).
  unfold bind at 1. rewrite Hrun. cbv beta iota.
  set (w2 := set_counter_file _ _) in *.
  assert (Hsnap : w_heap w2 !! IsWeather o = Some d1).
  { rewrite Hw. simpl. apply lookup_insert_eq. }
  unfold bind at 1. unfold writerow, bind, deref. rewrite Hsnap.
  cbv beta iota delta [or_raise ret].
  rewrite Hadd. cbv beta iota.
  eexists _, o, d1. split; [reflexivity|].
  split; [|split; [|split; [reflexivity | split; [exact Hts | exact Hid]]]].
  - split.
    + exists d1. simpl. rewrite lookup_insert_ne by exact Hl. apply lookup_insert_eq.
    + right. eexists. reflexivity.
  - subst w2 w0. unfold counter_value.
    cbn [w_counter_file set_csv set_counter_file set_rng].
    rewrite py_int_py_str. reflexivity.
Qed.

Lemma rows_of_insert output rows w c :
  w_csv w = <[output := rows]> c -> rows_of output w = rows.
Proof. intros H. unfold rows_of. rewrite H, lookup_insert_eq. reflexivity. Qed.

Lemma historical_walk output sim end_ i n ts visited ts' :
  walk end_ i n ts visited ts' ->
  forall fuel w,
    ready sim w ->
    exists w',
      historical_loop (n + fuel) output sim ts end_ i w
        = historical_loop fuel output sim ts' end_ i w' /\
      ready sim w' /\
      counter_value w' = (counter_value w + Z.of_nat n)%Z /\
      row_timestamps (rows_of output w')
        = row_timestamps (rows_of output w) ++ map isoformat visited.
Proof.
  induction 1 as [ts | n ts ts1 visited ts2 Hle Hadd Hwalk IH]; intros fuel w Hr.
  - exists w. simpl. rewrite app_nil_r. repeat split; try apply Hr. lia.
  - destruct (historical_turn (n + fuel) output sim ts end_ i w ts1 Hr Hle Hadd)
      as (w1 & o & wd & Hrun & Hr1 & Hc1 & Hcsv & Hts & _).
    destruct (IH fuel w1 Hr1) as (w' & Hrun' & Hr' & Hc' & Hrows).
    exists w'. cbn [Nat.add]. rewrite Hrun, Hrun'.
    split; [reflexivity|]. split; [exact Hr'|]. split; [lia|].
    rewrite Hrows, (rows_of_insert _ _ _ _ Hcsv).
    unfold row_timestamps. rewrite map_app. simpl. rewrite Hts, <- app_assoc. reflexivity.
Qed.

Lemma historical_loop_done fuel output sim ts end_ i w :
  dt_le ts end_ = false ->
  historical_loop fuel output sim ts end_ i w = (Ok Finished, w).
Proof. intros H. destruct fuel; simpl; rewrite H; reflexivity. Qed.

Lemma historical_mode_start fuel start end_ i output w :
  counter_file_ok w ->
  exists sim w0,
    historical_mode fuel start end_ i output w
      = historical_loop fuel output sim start end_ i w0 /\
    ready sim w0 /\ rows_of output w0 = [] /\ counter_value w0 = counter_value w.
Proof.
  intros Hok. unfold historical_mode, WeatherSimulator_init, bind, alloc, ret, open_csv.
  eexists _, _. split; [reflexivity|]. split; [split|split].
  - eexists. simpl. apply lookup_insert_eq.
  - exact Hok.
  - unfold rows_of. simpl. rewrite lookup_insert_eq. reflexivity.
  - reflexivity.
Qed.

End HistoryFacts.

(* ===================================================================== *)
(** * Facts about order identifiers *)
(* ===================================================================== *)

Module IdFacts.

Import PyRandom PyText PyDatetime Script Statements.
Import PyTextFacts OrderFacts.
Local Open Scope string_scope.

Definition nth_id (base : Z) (k : nat) : string :=
  "order_" ++ py_str (base + Z.of_nat k).

Lemma order_number_nth_id base k : order_number (nth_id base k) = Some (base + Z.of_nat k)%Z.
Proof. unfold order_number, nth_id. cbn. apply py_int_py_str. Qed.

Lemma nth_id_inj base : Inj eq eq (nth_id base).
Proof.
  intros a b H. unfold nth_id in H. cbn in H. injection H as H.
  apply py_str_inj in H. lia.
Qed.

Lemma nth_id_shift base k : nth_id (base + 1) k = nth_id base (S k).
Proof. unfold nth_id. f_equal. f_equal. lia. Qed.

Lemma counter_value_restart g w : counter_value (restart g w) = counter_value w.
Proof. reflexivity. Qed.

(** The identifiers created along any sequence of events are the
    successors of the counter, in order. *)
Lemma created_ids_spec evs : forall w,
  counter_file_ok w ->
  created_ids evs w
    = map (nth_id (counter_value w)) (seq 1 (length (filter is_create evs))).
Proof.
  induction evs as [|[ts weather | g] evs IH]; intros w Hok.
  - reflexivity.
  - destruct (create_order_run ts weather w Hok) as (o & g' & Hrun & Hid & _).
    cbn [created_ids]. rewrite Hrun.
    set (w1 := set_counter_file _ _) in *.
    assert (Hok1 : counter_file_ok w1) by (right; eexists; reflexivity).
    assert (Hc1 : counter_value w1 = (counter_value w + 1)%Z).
    { unfold w1, counter_value. cbn [w_counter_file set_counter_file].
      rewrite py_int_py_str. reflexivity. }
    rewrite (IH w1 Hok1), Hc1, Hid.
    rewrite filter_cons_True by reflexivity.
    cbn [length seq map]. apply (f_equal2 cons); [reflexivity|].
    rewrite <- (seq_shift _ 1), map_map. apply map_ext. intros k. apply nth_id_shift.
  - cbn [created_ids]. rewrite (IH (restart g w)) by exact Hok.
    rewrite counter_value_restart, filter_cons_False by (intros []). reflexivity.
Qed.

Lemma nth_ids_sorted base : forall n a,
  StronglySorted id_lt (map (nth_id base) (seq a n)).
Proof.
  induction n as [|n IH]; intros a; cbn [seq map]; constructor.
  - apply IH.
  - apply Forall_forall. intros x Hx. apply list_elem_of_fmap in Hx as (k & -> & Hk).
    apply elem_of_seq in Hk. unfold id_lt. rewrite !order_number_nth_id. lia.
Qed.

Lemma nth_ids_NoDup base n a : NoDup (map (nth_id base) (seq a n)).
Proof.
  pose proof (nth_id_inj base) as Hinj.
  apply (NoDup_fmap_2 (nth_id base)). apply NoDup_seq.
Qed.

End IdFacts.

(* ===================================================================== *)
(** * Facts about [generate_items] with the [randint] of CPython *)
(* ===================================================================== *)

Module RejectionFacts.

Import Binary64 PyRandom Script Statements Binary64Facts ItemFacts.

Local Open Scope Z_scope.

Lemma leading_bits_nonneg k r : 0 <= leading_bits k r.
Proof.
  unfold leading_bits. apply Z.shiftr_nonneg.
  apply Z.mod_pos_bound. reflexivity.
Qed.

Lemma replace_cell_other t p r i : i <> p -> replace_cell t p r i = t i.
Proof. intros H. unfold replace_cell. destruct (Nat.eqb_spec i p); congruence. Qed.

Lemma replace_cell_same t p r : replace_cell t p r p = r.
Proof. unfold replace_cell. rewrite Nat.eqb_refl. reflexivity. Qed.

Lemma randbelow_some n t : forall fuel c v g',
  randbelow_with_getrandbits fuel n (mk_rng t c) = (Some v, g') ->
  exists p,
    accepted_at n t c p /\ (p < c + fuel)%nat /\
    v = leading_bits (bit_length n) (t p) /\ g' = mk_rng t (S p).
Proof.
  induction fuel as [|fuel IH]; intros c v g' H; [discriminate|].
  cbn [randbelow_with_getrandbits getrandbits next_raw tape cursor] in H.
  destruct (Z.ltb_spec (leading_bits (bit_length n) (t c)) n) as [Hlt|Hge].
  - injection H as <- <-. exists c. repeat split; try (intros; lia).
  - destruct (IH _ _ _ H) as (p & (Hcp & Hrej & Hacc) & Hp & Hv & Hg).
    exists p. split; [|split; [lia | split; assumption]].
    split; [lia|]. split; [|exact Hacc].
    intros i Hi. destruct (Nat.eq_dec i c) as [->|Hne]; [exact Hge | apply Hrej; lia].
Qed.

Lemma randbelow_accept n t : forall fuel c p,
  accepted_at n t c p -> (p < c + fuel)%nat ->
  randbelow_with_getrandbits fuel n (mk_rng t c)
    = (Some (leading_bits (bit_length n) (t p)), mk_rng t (S p)).
Proof.
  induction fuel as [|fuel IH]; intros c p (Hcp & Hrej & Hacc) Hp; [lia|].
  cbn [randbelow_with_getrandbits getrandbits next_raw tape cursor].
  destruct (Nat.eq_dec c p) as [->|Hne].
  - destruct (Z.ltb_spec (leading_bits (bit_length n) (t p)) n); [reflexivity | lia].
  - pose proof (Hrej c ltac:(lia)) as Hc.
    destruct (Z.ltb_spec (leading_bits (bit_length n) (t c)) n); [lia|].
    apply IH; [|lia]. split; [lia|]. split; [|exact Hacc].
    intros i Hi. apply Hrej. lia.
Qed.

(** If one of the next [fuel] cells is accepted the loop returns. *)
Lemma randbelow_live n t : forall fuel c,
  (exists j, (j < fuel)%nat /\ leading_bits (bit_length n) (t (c + j)%nat) < n) ->
  exists p, accepted_at n t c p /\ (p < c + fuel)%nat.
Proof.
  induction fuel as [|fuel IH]; intros c (j & Hj & Hacc); [lia|].
  destruct (Z.ltb_spec (leading_bits (bit_length n) (t c)) n) as [Hlt|Hge].
  - exists c. split; [|lia]. split; [lia|]. split; [intros i Hi; lia | exact Hlt].
  - destruct j as [|j]; [rewrite Nat.add_0_r in Hacc; lia|].
    destruct (IH (S c)) as (p & (Hcp & Hrej & Hp) & Hfuel).
    { exists j. split; [lia|]. replace (S c + j)%nat with (c + S j)%nat by lia. exact Hacc. }
    exists p. split; [|lia]. split; [lia|]. split; [|exact Hp].
    intros i Hi. destruct (Nat.eq_dec i c) as [->|Hne]; [exact Hge | apply Hrej; lia].
Qed.

Lemma accepted_at_agree n t t2 c p :
  accepted_at n t c p ->
  (forall i, (c <= i <= p)%nat -> t2 i = t i) ->
  accepted_at n t2 c p.
Proof.
  intros (Hcp & Hrej & Hacc) Hag. split; [exact Hcp|]. split.
  - intros i Hi. rewrite Hag by lia. apply Hrej, Hi.
  - rewrite Hag by lia. exact Hacc.
Qed.

(** ** The items mapping as a list *)

Lemma dict_get_fresh (d : items_dict) x : x ∉ map fst d -> dict_get d x = None.
Proof.
  induction d as [|[y v] d IH]; intros H; [reflexivity|]. cbn [dict_get].
  cbn [map fst] in H. apply not_elem_of_cons in H as [Hne H].
  destruct (String.eqb_spec y x) as [->|_]; [congruence | apply IH, H].
Qed.

Lemma dict_get_middle (a b : items_dict) x q :
  x ∉ map fst a -> dict_get (a ++ (x, q) :: b) x = Some q.
Proof.
  induction a as [|[y v] a IH]; intros H; cbn [app dict_get].
  - rewrite String.eqb_refl. reflexivity.
  - cbn [map fst] in H. apply not_elem_of_cons in H as [Hne H].
    destruct (String.eqb_spec y x) as [->|_]; [congruence | apply IH, H].
Qed.

Lemma dict_set_middle (a b : items_dict) x q q' :
  x ∉ map fst a -> dict_set (a ++ (x, q) :: b) x q' = a ++ (x, q') :: b.
Proof.
  induction a as [|[y v] a IH]; intros H; cbn [app dict_set].
  - rewrite String.eqb_refl. reflexivity.
  - cbn [map fst] in H. apply not_elem_of_cons in H as [Hne H].
    destruct (String.eqb_spec y x) as [->|_]; [congruence|]. rewrite (IH H). reflexivity.
Qed.

Lemma dict_get_app_fresh (a b : items_dict) x :
  x ∉ map fst b -> dict_get (a ++ b) x = dict_get a x.
Proof.
  intros H. induction a as [|[y v] a IH]; cbn [app dict_get].
  - apply dict_get_fresh, H.
  - destruct (String.eqb y x); [reflexivity | exact IH].
Qed.

(** Each value of the [k] leading bits belongs to the same number of 32-bit
    words: the [2 ^ (32 - k)] words of one interval. *)
Lemma leading_bits_words k v r :
  0 < k <= 32 ->
  leading_bits k r = v <->
  v * 2 ^ (32 - k) <= Z.of_N r mod 2 ^ 32 < (v + 1) * 2 ^ (32 - k).
Proof.
  intros Hk. unfold leading_bits. rewrite Z.shiftr_div_pow2 by lia.
  assert (Hd : 0 < 2 ^ (32 - k)) by (apply Z.pow_pos_nonneg; lia).
  set (d := 2 ^ (32 - k)) in *. clearbody d.
  set (x := Z.of_N r mod 2 ^ 32). clearbody x.
  split.
  - intros <-. Z.div_mod_to_equations. nia.
  - intros H. symmetry. apply (Z.div_unique x d v (x - v * d)); lia.
Qed.

Lemma dict_get_key (d : items_dict) x q : dict_get d x = Some q -> x ∈ map fst d.
Proof.
  induction d as [|[y v] d IH]; cbn [dict_get map fst]; [discriminate|].
  destruct (String.eqb_spec y x) as [->|_]; intros H;
    [apply list_elem_of_here | apply list_elem_of_further, IH, H].
Qed.

Section Run.

Variable fuel : nat.
Variable order_size : pyvalue.
Variable w0 : world.

Let hi : Z := max_qty_of order_size.
Let k : Z := bit_length hi.

(** The world of a run: only the generator moves. *)
Let at_cell (t : nat -> N) (c : nat) : world := set_rng (mk_rng t c) w0.

Lemma turn_by_rejection_run items total item price t c :
  generate_items_turn_by_rejection fuel order_size (items, total) (item, price)
      (at_cell t c) =
    if flt (unit_of_raw (t c)) (base_prob_of item) then
      match randbelow_with_getrandbits fuel hi (mk_rng t (S c)) with
      | (Some v, g') =>
          (Ok (Some (dict_set items item (1 + v),
                     fadd total (fmul (float_of_int (1 + v)) price))),
           set_rng g' w0)
      | (None, g') => (Ok None, set_rng g' w0)
      end
    else (Ok (Some (items, total)), at_cell t (S c)).
Proof.
  unfold generate_items_turn_by_rejection, bind, draw, random, next_raw, ret,
    randint_by_rejection, at_cell.
  cbn [w_rng set_rng tape cursor].
  destruct (flt _ _); [|reflexivity].
  replace ((if eq_str order_size "small" then 2 else 5) - 1 + 1) with hi
    by (unfold hi, max_qty_of; destruct (eq_str order_size "small"); reflexivity).
  destruct (randbelow_with_getrandbits fuel hi _) as [[v|] g']; reflexivity.
Qed.

Lemma for_each_until_cons {S E} (body : S -> E -> M (option S)) e l s w :
  for_each_until body (e :: l) s w
    = match body s e w with
      | (Ok (Some s'), w') => for_each_until body l s' w'
      | (Ok None, w') => (Ok None, w')
      | (Raise x, w') => (Raise x, w')
      end.
Proof.
  cbn [for_each_until]. unfold bind.
  destruct (body s e w) as [[[s'|]|x] w']; reflexivity.
Qed.

Let run (rest : list (string * Q)) (acc : items_dict * Q) (t : nat -> N) (c : nat) :=
  for_each_until (generate_items_turn_by_rejection fuel order_size) rest acc (at_cell t c).

(** One turn, spelled out by cases. *)
Lemma turn_cases items total item price t c :
  (flt (unit_of_raw (t c)) (base_prob_of item) = false /\
   generate_items_turn_by_rejection fuel order_size (items, total) (item, price)
     (at_cell t c) = (Ok (Some (items, total)), at_cell t (S c))) \/
  (flt (unit_of_raw (t c)) (base_prob_of item) = true /\
   ((exists g', generate_items_turn_by_rejection fuel order_size (items, total)
                  (item, price) (at_cell t c) = (Ok None, set_rng g' w0)) \/
    (exists p, accepted_at hi t (S c) p /\ (p < S c + fuel)%nat /\
       generate_items_turn_by_rejection fuel order_size (items, total) (item, price)
         (at_cell t c)
       = (Ok (Some (dict_set items item (1 + leading_bits k (t p)),
                    fadd total (fmul (float_of_int (1 + leading_bits k (t p))) price))),
          at_cell t (S p))))).
Proof.
  rewrite turn_by_rejection_run.
  destruct (flt _ _); [right | left; split; reflexivity].
  split; [reflexivity|].
  destruct (randbelow_with_getrandbits fuel hi (mk_rng t (S c))) as [[v|] g'] eqn:E.
  - right. destruct (randbelow_some _ _ _ _ _ _ E) as (p & Hacc & Hp & -> & ->).
    exists p. split; [exact Hacc|]. split; [exact Hp | reflexivity].
  - left. exists g'. reflexivity.
Qed.

(** One turn on a tape where the loop stops at [p]. *)
Lemma turn_included items total item price t c p :
  flt (unit_of_raw (t c)) (base_prob_of item) = true ->
  accepted_at hi t (S c) p -> (p < S c + fuel)%nat ->
  generate_items_turn_by_rejection fuel order_size (items, total) (item, price)
    (at_cell t c)
  = (Ok (Some (dict_set items item (1 + leading_bits k (t p)),
               fadd total (fmul (float_of_int (1 + leading_bits k (t p))) price))),
     at_cell t (S p)).
Proof.
  intros Hb Hacc Hp. rewrite turn_by_rejection_run, Hb.
  rewrite (randbelow_accept hi t fuel (S c) p Hacc Hp). reflexivity.
Qed.

Lemma turn_skipped items total item price t c :
  flt (unit_of_raw (t c)) (base_prob_of item) = false ->
  generate_items_turn_by_rejection fuel order_size (items, total) (item, price)
    (at_cell t c)
  = (Ok (Some (items, total)), at_cell t (S c)).
Proof. intros Hb. rewrite turn_by_rejection_run, Hb. reflexivity. Qed.

(** What a run that returns has done: it has appended a list [new] of
    items to the mapping, and any run on a tape with the same cells
    appends the same list, whatever it started from. *)
Lemma run_shape rest : forall (itemsA : items_dict) totalA t c (itemsF : items_dict) totalF w',
  run rest (itemsA, totalA) t c = (Ok (Some (itemsF, totalF)), w') ->
  NoDup (map fst rest) ->
  (forall x, x ∈ map fst itemsA -> x ∉ map fst rest) ->
  exists new c',
    w' = at_cell t c' /\ (c <= c')%nat /\
    itemsF = (itemsA ++ new)%list /\
    quantities_within hi new /\
    (forall x, x ∈ map fst new -> x ∈ map fst rest) /\
    forall t2 (itemsB : items_dict) totalB,
      (forall i, (c <= i < c')%nat -> t2 i = t i) ->
      (forall x, x ∈ map fst itemsB -> x ∉ map fst rest) ->
      exists totalF2,
        run rest (itemsB, totalB) t2 c
          = (Ok (Some ((itemsB ++ new)%list, totalF2)), at_cell t2 c').
Proof.
  induction rest as [|[it price] rest IH];
    intros itemsA totalA t c itemsF totalF w' H Hnd Hfresh.
  - unfold run in H. cbn [for_each_until] in H. unfold ret in H. injection H as <- <- <-.
    exists [], c. rewrite app_nil_r. repeat split; try lia; try constructor.
    + intros x Hx. inversion Hx.
    + intros t2 itemsB totalB _ _. exists totalB. unfold run. cbn [for_each_until].
      rewrite app_nil_r. reflexivity.
  - cbn [map fst] in Hnd. apply NoDup_cons in Hnd as [Hni Hnd].
    assert (HitA : it ∉ map fst itemsA).
    { intros Hin. apply (Hfresh _ Hin). cbn [map fst]. apply list_elem_of_here. }
    unfold run in H. rewrite for_each_until_cons in H.
    destruct (turn_cases itemsA totalA it price t c)
      as [[Hb Ht] | [Hb [[g' Ht] | (p & Hacc & Hp & Ht)]]]; rewrite Ht in H.
    + destruct (IH itemsA totalA t (S c) itemsF totalF w' H Hnd)
        as (new & c' & Hw & Hc & Hitems & Hq & Hkeys & Hreplay).
      { intros x Hx. specialize (Hfresh x Hx). cbn [map fst] in Hfresh.
        apply not_elem_of_cons in Hfresh. tauto. }
      exists new, c'. split; [exact Hw|]. split; [lia|]. split; [exact Hitems|].
      split; [exact Hq|]. split.
      * intros x Hx. cbn [map fst]. apply list_elem_of_further, Hkeys, Hx.
      * intros t2 itemsB totalB Hag HfreshB.
        destruct (Hreplay t2 itemsB totalB) as (totalF2 & Hrun).
        { intros i Hi. apply Hag. lia. }
        { intros x Hx. specialize (HfreshB x Hx). cbn [map fst] in HfreshB.
          apply not_elem_of_cons in HfreshB. tauto. }
        exists totalF2. unfold run. rewrite for_each_until_cons.
        rewrite turn_skipped by (rewrite Hag by lia; exact Hb). exact Hrun.
    + discriminate.
    + rewrite (dict_set_fresh _ _ _ HitA) in H.
      destruct (IH _ _ t (S p) itemsF totalF w' H Hnd)
        as (new & c' & Hw & Hc & Hitems & Hq & Hkeys & Hreplay).
      { intros x Hx. rewrite map_app in Hx. apply elem_of_app in Hx as [Hx|Hx].
        - specialize (Hfresh x Hx). cbn [map fst] in Hfresh.
          apply not_elem_of_cons in Hfresh. tauto.
        - cbn in Hx. apply list_elem_of_singleton in Hx. subst x. exact Hni. }
      destruct Hacc as (Hcp & Hrej & Hlt).
      exists ((it, 1 + leading_bits k (t p)) :: new), c'.
      split; [exact Hw|]. split; [lia|].
      split; [rewrite Hitems, <- app_assoc; reflexivity|].
      split; [constructor; [cbn [snd]; pose proof (leading_bits_nonneg k (t p));
                            fold k in Hlt; lia | exact Hq]|].
      split.
      * intros x Hx. cbn [map fst] in *. apply elem_of_cons in Hx as [->|Hx];
          [apply list_elem_of_here | apply list_elem_of_further, Hkeys, Hx].
      * intros t2 itemsB totalB Hag HfreshB.
        assert (HitB : it ∉ map fst itemsB).
        { intros Hin. apply (HfreshB _ Hin). cbn [map fst]. apply list_elem_of_here. }
        destruct (Hreplay t2 (itemsB ++ [(it, 1 + leading_bits k (t p))])%list
                    (fadd totalB (fmul (float_of_int (1 + leading_bits k (t p))) price)))
          as (totalF2 & Hrun).
        { intros i Hi. apply Hag. lia. }
        { intros x Hx. rewrite map_app in Hx. apply elem_of_app in Hx as [Hx|Hx].
          - specialize (HfreshB x Hx). cbn [map fst] in HfreshB.
            apply not_elem_of_cons in HfreshB. tauto.
          - cbn in Hx. apply list_elem_of_singleton in Hx. subst x. exact Hni. }
        exists totalF2. unfold run. rewrite for_each_until_cons.
        rewrite (turn_included itemsB totalB it price t2 c p).
        -- rewrite (Hag p) by lia. rewrite (dict_set_fresh _ _ _ HitB).
           rewrite <- app_assoc in Hrun. exact Hrun.
        -- rewrite Hag by lia. exact Hb.
        -- apply (accepted_at_agree hi t); [repeat split; assumption|].
           intros i Hi. apply Hag. lia.
        -- exact Hp.
Qed.

(** The quantity of an item in the result is one more than the leading
    bits of one cell, the one its rejection loop stopped at; with any other
    accepted word in that cell the run is the same, but for that quantity
    and the total. *)
Lemma run_exchange rest : forall (itemsA : items_dict) totalA t c (itemsF : items_dict) totalF w' item q,
  run rest (itemsA, totalA) t c = (Ok (Some (itemsF, totalF)), w') ->
  NoDup (map fst rest) ->
  (forall x, x ∈ map fst itemsA -> x ∉ map fst rest) ->
  item ∈ map fst rest ->
  dict_get itemsF item = Some q ->
  exists p c',
    w' = at_cell t c' /\ (c < p < c')%nat /\
    q = 1 + leading_bits k (t p) /\
    forall r, leading_bits k r < hi ->
      exists total2,
        run rest (itemsA, totalA) (replace_cell t p r) c
          = (Ok (Some (dict_set itemsF item (1 + leading_bits k r), total2)),
             at_cell (replace_cell t p r) c').
Proof.
  induction rest as [|[it price] rest IH];
    intros itemsA totalA t c itemsF totalF w' item q H Hnd Hfresh Hin Hget.
  - inversion Hin.
  - cbn [map fst] in Hnd. apply NoDup_cons in Hnd as [Hni Hnd].
    assert (HitA : it ∉ map fst itemsA).
    { intros Hx. apply (Hfresh _ Hx). cbn [map fst]. apply list_elem_of_here. }
    assert (HfreshA : forall x, x ∈ map fst itemsA -> x ∉ map fst rest).
    { intros x Hx. specialize (Hfresh x Hx). cbn [map fst] in Hfresh.
      apply not_elem_of_cons in Hfresh. tauto. }
    unfold run in H. rewrite for_each_until_cons in H.
    cbn [map fst] in Hin.
    destruct (turn_cases itemsA totalA it price t c)
      as [[Hb Ht] | [Hb [[g' Ht] | (p0 & Hacc & Hp0 & Ht)]]]; rewrite Ht in H.
    + (* the head item is not included *)
      destruct (String.eqb_spec it item) as [->|Hne].
      * exfalso.
        destruct (run_shape rest _ _ _ _ _ _ _ H Hnd HfreshA)
          as (new & c' & _ & _ & Hitems & _ & Hkeys & _).
        rewrite Hitems, dict_get_app_fresh, dict_get_fresh in Hget;
          [discriminate | exact HitA |].
        intros Hx. apply Hni, Hkeys, Hx.
      * apply elem_of_cons in Hin as [->|Hin]; [congruence|].
        destruct (IH _ _ _ _ _ _ _ _ _ H Hnd HfreshA Hin Hget)
          as (p & c' & Hw & Hpc & Hq & Hex).
        exists p, c'. split; [exact Hw|]. split; [lia|]. split; [exact Hq|].
        intros r Hr. destruct (Hex r Hr) as (total2 & Hrun).
        exists total2. unfold run. rewrite for_each_until_cons.
        rewrite turn_skipped by (rewrite replace_cell_other by lia; exact Hb).
        exact Hrun.
    + discriminate.
    + (* the head item is included, its loop stops at [p0] *)
      rewrite (dict_set_fresh _ _ _ HitA) in H.
      assert (HfreshA1 : forall x,
                 x ∈ map fst (itemsA ++ [(it, 1 + leading_bits k (t p0))])%list ->
                 x ∉ map fst rest).
      { intros x Hx. rewrite map_app in Hx. apply elem_of_app in Hx as [Hx|Hx].
        - apply HfreshA, Hx.
        - cbn in Hx. apply list_elem_of_singleton in Hx. subst x. exact Hni. }
      destruct (String.eqb_spec it item) as [->|Hne].
      * destruct (run_shape rest _ _ _ _ _ _ _ H Hnd HfreshA1)
          as (new & c' & Hw & Hc & Hitems & _ & Hkeys & Hreplay).
        rewrite <- app_assoc in Hitems. cbn [app] in Hitems.
        rewrite Hitems, (dict_get_middle _ _ _ _ HitA) in Hget. injection Hget as <-.
        destruct Hacc as (Hcp & Hrej & Hlt).
        exists p0, c'. split; [exact Hw|]. split; [lia|]. split; [reflexivity|].
        intros r Hr.
        destruct (Hreplay (replace_cell t p0 r)
                    (itemsA ++ [(item, 1 + leading_bits k r)])%list
                    (fadd totalA (fmul (float_of_int (1 + leading_bits k r)) price)))
          as (total2 & Hrun).
        { intros i Hi. apply replace_cell_other. lia. }
        { intros x Hx. rewrite map_app in Hx. apply elem_of_app in Hx as [Hx|Hx].
          - apply HfreshA, Hx.
          - cbn in Hx. apply list_elem_of_singleton in Hx. subst x. exact Hni. }
        exists total2. unfold run. rewrite for_each_until_cons.
        rewrite (turn_included itemsA totalA item price (replace_cell t p0 r) c p0).
        -- rewrite replace_cell_same, (dict_set_fresh _ _ _ HitA).
           rewrite Hitems, (dict_set_middle _ _ _ _ _ HitA).
           rewrite <- app_assoc in Hrun. exact Hrun.
        -- rewrite replace_cell_other by lia. exact Hb.
        -- split; [exact Hcp|]. split.
           ++ intros i Hi. rewrite replace_cell_other by lia. apply Hrej, Hi.
           ++ rewrite replace_cell_same. exact Hr.
        -- exact Hp0.
      * apply elem_of_cons in Hin as [->|Hin]; [congruence|].
        destruct (IH _ _ _ _ _ _ _ _ _ H Hnd HfreshA1 Hin Hget)
          as (p & c' & Hw & Hpc & Hq & Hex).
        destruct Hacc as (Hcp & Hrej & Hlt).
        exists p, c'. split; [exact Hw|]. split; [lia|]. split; [exact Hq|].
        intros r Hr. destruct (Hex r Hr) as (total2 & Hrun).
        exists total2. unfold run. rewrite for_each_until_cons.
        rewrite (turn_included itemsA totalA it price (replace_cell t p r) c p0).
        -- rewrite (replace_cell_other t p r p0) by lia.
           rewrite (dict_set_fresh _ _ _ HitA). exact Hrun.
        -- rewrite replace_cell_other by lia. exact Hb.
        -- apply (accepted_at_agree hi t); [repeat split; assumption|].
           intros i Hi. apply replace_cell_other. lia.
        -- exact Hp0.
Qed.

(** A run returns when no [fuel] cells in a row are rejected. *)
Lemma run_live rest : forall acc t c,
  (forall i, (c <= i)%nat ->
     exists j, (j < fuel)%nat /\ leading_bits k (t (i + j)%nat) < hi) ->
  exists res c', run rest acc t c = (Ok (Some res), at_cell t c').
Proof.
  induction rest as [|[it price] rest IH]; intros [items total] t c Hfair.
  - exists (items, total), c. reflexivity.
  - unfold run. rewrite for_each_until_cons.
    destruct (flt (unit_of_raw (t c)) (base_prob_of it)) eqn:Hb.
    + destruct (randbelow_live hi t fuel (S c) (Hfair (S c) ltac:(lia)))
        as (p & Hacc & Hp).
      rewrite (turn_included items total it price t c p Hb Hacc Hp).
      apply IH. intros i Hi. apply Hfair. destruct Hacc as [Hcp _]. lia.
    + rewrite (turn_skipped items total it price t c Hb).
      apply IH. intros i Hi. apply Hfair. lia.
Qed.

(** Every result of a run is the result of [for_each] over the same turn
    with [randint] read from one cell, on a tape that holds the outcomes. *)
Lemma run_outcomes rest : forall acc t c res w',
  run rest acc t c = (Ok (Some res), w') ->
  exists cells : list N,
    forall ta ca,
      (forall i, (i < length cells)%nat -> ta (ca + i)%nat = nth i cells 0%N) ->
      for_each (generate_items_turn order_size) rest acc (set_rng (mk_rng ta ca) w0)
        = (Ok res, set_rng (mk_rng ta (ca + length cells)%nat) w0).
Proof.
  induction rest as [|[it price] rest IH]; intros [items total] t c res w' H.
  - unfold run in H. cbn [for_each_until] in H. unfold ret in H. injection H as <- _.
    exists []. intros ta ca _. cbn [for_each length]. rewrite Nat.add_0_r. reflexivity.
  - unfold run in H. rewrite for_each_until_cons in H.
    destruct (turn_cases items total it price t c)
      as [[Hb Ht] | [Hb [[g' Ht] | (p & Hacc & Hp & Ht)]]]; rewrite Ht in H.
    + destruct (IH _ _ _ _ _ H) as (cells & Hcells).
      exists (t c :: cells). intros ta ca Hta.
      rewrite for_each_cons, turn_run. cbv zeta. cbn [w_rng set_rng tape cursor].
      pose proof (Hta 0%nat ltac:(cbn; lia)) as H0. rewrite Nat.add_0_r in H0.
      cbn [nth] in H0. rewrite H0, Hb.
      change (set_rng (mk_rng ta (S ca)) (set_rng (mk_rng ta ca) w0))
        with (set_rng (mk_rng ta (S ca)) w0).
      rewrite (Hcells ta (S ca)).
      * cbn [length]. do 3 f_equal. lia.
      * intros i Hi. specialize (Hta (S i) ltac:(cbn; lia)). cbn [nth] in Hta.
        rewrite <- Hta. f_equal. lia.
    + discriminate.
    + destruct (IH _ _ _ _ _ H) as (cells & Hcells).
      destruct Hacc as (_ & _ & Hlt). pose proof (leading_bits_nonneg k (t p)) as Hge.
      fold k in Hlt.
      exists (t c :: Z.to_N (leading_bits k (t p)) :: cells). intros ta ca Hta.
      rewrite for_each_cons, turn_run. cbv zeta. cbn [w_rng set_rng tape cursor].
      pose proof (Hta 0%nat ltac:(cbn; lia)) as H0. rewrite Nat.add_0_r in H0.
      pose proof (Hta 1%nat ltac:(cbn; lia)) as H1. rewrite Nat.add_1_r in H1.
      cbn [nth] in H0, H1. rewrite H0, Hb, H1.
      rewrite Z2N.id by exact Hge. fold hi. rewrite Z.mod_small by lia.
      change (set_rng (mk_rng ta (S (S ca))) (set_rng (mk_rng ta ca) w0))
        with (set_rng (mk_rng ta (S (S ca))) w0).
      rewrite (Hcells ta (S (S ca))).
      * cbn [length]. do 3 f_equal. lia.
      * intros i Hi. specialize (Hta (S (S i)) ltac:(cbn; lia)). cbn [nth] in Hta.
        rewrite <- Hta. f_equal. lia.
Qed.

End Run.

(** Every result of [generate_items] with the [randint] of CPython is a
    result of [generate_items] with the outcome of [randint] read from one
    cell, on the tape of the outcomes: what holds of the results of the
    latter on every tape holds of the results of the former. *)
Lemma generate_items_by_rejection_outcomes fuel order_size w res w' :
  generate_items_by_rejection fuel order_size w = (Ok (Some res), w') ->
  exists (ta : nat -> N) (w2 : world),
    generate_items order_size (on_tape ta w) = (Ok res, w2).
Proof.
  destruct w as [[t c] h f csv]. unfold generate_items_by_rejection, bind. intros H.
  destruct (for_each_until _ _ _ _) as [[[acc|]|e] w1] eqn:E; try discriminate.
  unfold ret in H. cbn [option_map] in H. injection H as <- _.
  destruct (run_outcomes fuel order_size (mk_world (mk_rng t c) h f csv) MENU_PRICES
              ([], literal 0.0) t c acc w1 E) as (cells & Hcells).
  exists (fun i => nth i cells 0%N). eexists.
  unfold generate_items, bind, on_tape.
  match goal with |- context [for_each ?b ?l ?a ?w2] =>
    pose proof (Hcells (fun i => nth i cells 0%N) 0%nat (fun i _ => eq_refl)
                : for_each b l a w2 = _) as Hrun end.
  rewrite Hrun. reflexivity.
Qed.

End RejectionFacts.


(* ===================================================================== *)
(** * The properties of the specification *)
(* ===================================================================== *)

Import Binary64 PyRandom PyText PyDatetime Script Statements.
Import Binary64Facts PyTextFacts WeatherFacts ItemFacts OrderFacts HistoryFacts IdFacts.
Import RejectionFacts.

(** A world for examples: no counter file, an empty heap, a given tape. *)
Definition fresh_world (t : nat -> N) : world := mk_world (mk_rng t 0) ∅ None ∅.

(** A tape that makes every Bernoulli test of the script succeed, and one
    that makes every one of them fail. *)
Definition low_tape : nat -> N := fun _ => 0%N.
Definition high_tape : nat -> N := fun _ => (2 ^ 53 - 1)%N.

(** A world in which a simulator has been created. *)
Definition sim_world (t : nat -> N) : world :=
  snd (WeatherSimulator_init None (fresh_world t)).

Definition the_sim : WeatherSimulator := mk_sim (fresh (dom (∅ : gmap loc weather))).

(** C2.  From a weather state whose temperature is in [-5, 35] and whose
    humidity is in [20, 90], any number of calls of [step], on any tape of
    random draws, runs without error and leaves the temperature in [-5, 35]
    and the humidity in [20, 90]; so does every snapshot returned on the
    way. *)
Theorem weather_stays_in_range (self : WeatherSimulator) (w : world) (d : weather)
    (n : nat) :
  w_heap w !! current self = Some d ->
  weather_in_range d ->
  exists snapshots w',
    steps n self w = (Ok snapshots, w') /\
    length snapshots = n /\
    (exists d', w_heap w' !! current self = Some d' /\ weather_in_range d') /\
    Forall (fun l => exists s, w_heap w' !! l = Some s /\ weather_in_range s)
      snapshots.
Proof.
  intros Hd Hr.
  destruct (steps_invariant self n w d Hd Hr)
    as (ls & w' & Hrun & Hlen & Hcur & Hall & _).
  exists ls, w'. repeat split; assumption.
Qed.

Lemma weather_stays_in_range_witness :
  exists snapshots w',
    steps 3 the_sim (sim_world low_tape) = (Ok snapshots, w') /\
    length snapshots = 3%nat /\
    (exists d', w_heap w' !! current the_sim = Some d' /\ weather_in_range d') /\
    Forall (fun l => exists s, w_heap w' !! l = Some s /\ weather_in_range s)
      snapshots.
Proof.
  apply (weather_stays_in_range the_sim (sim_world low_tape) default_weather 3).
  - vm_compute. reflexivity.
  - vm_compute. intuition discriminate.
Defined.

(** C4.  One call of [step], on a simulator whose dictionary is [d]: the
    temperature receives a perturbation [u_t] of [-0.2, 0.2] and the humidity
    a perturbation [u_h] of [-0.5, 0.5], each computed by [random.uniform]
    from a cell of its own of the tape; each sum is clamped to its bounds and
    rounded to one decimal; the condition is replaced exactly when a third
    draw falls below 0.05, which 450359962737050 of the 2^53 values of the
    draw do, by the entry of WEATHER_CONDITIONS that a fourth draw selects,
    the current one included, and is kept otherwise; the call returns a new
    dictionary that is equal to the resulting state and that later calls of
    [step] leave alone. *)
Theorem step_matches_its_description (self : WeatherSimulator) (w : world)
    (d : weather) :
  w_heap w !! current self = Some d ->
  let g := w_rng w in
  let u_t := uniform_of_unit (- literal 0.2) (literal 0.2)
               (unit_of_raw (tape g (cursor g))) in
  let u_h := uniform_of_unit (- literal 0.5) (literal 0.5)
               (unit_of_raw (tape g (S (cursor g)))) in
  let r := tape g (S (S (cursor g))) in
  let k := Z.to_nat (Z.of_N (tape g (S (S (S (cursor g))))) mod 4) in
  exists snapshot w' d',
    step self w = (Ok snapshot, w') /\
    ((- literal 0.2 <= u_t)%Q /\ (u_t <= literal 0.2)%Q) /\
    ((- literal 0.5 <= u_h)%Q /\ (u_h <= literal 0.5)%Q) /\
    temperature d'
      = py_round (py_min (py_max (fadd (temperature d) u_t) (-5)) 35) 1 /\
    humidity d'
      = py_round (py_min (py_max (fadd (humidity d) u_h) 20) 90) 1 /\
    (exists c, WEATHER_CONDITIONS !! k = Some c /\
       condition d' = if (r mod 2 ^ 53 <? 450359962737050)%N then c
                      else condition d) /\
    w_heap w' !! current self = Some d' /\
    w_heap w' !! snapshot = Some d' /\
    snapshot <> current self /\
    w_heap w !! snapshot = None /\
    (forall n later w'',
        steps n self w' = (Ok later, w'') -> w_heap w'' !! snapshot = Some d').
Proof.
  intros Hd g u_t u_h r k.
  pose proof (step_run self w d Hd) as Hrun.
  assert (Hk : exists c, WEATHER_CONDITIONS !! k = Some c).
  { apply lookup_lt_is_Some_2. unfold k.
    pose proof (Z.mod_pos_bound (Z.of_N (tape g (S (S (S (cursor g)))))) 4).
    change (length WEATHER_CONDITIONS) with 4%nat. lia. }
  destruct Hk as [c Hc].
  set (l := fresh (dom (w_heap w))) in *.
  assert (Hfresh : w_heap w !! l = None).
  { apply not_elem_of_dom. apply is_fresh. }
  assert (Hl : l <> current self) by (intros E; rewrite E in Hfresh; congruence).
  set (d' := mk_weather
               (py_round (py_min (py_max (fadd (temperature d) u_t) (-5)) 35) 1)
               (py_round (py_min (py_max (fadd (humidity d) u_h) 20) 90) 1)
               (if (r mod 2 ^ 53 <? 450359962737050)%N then c else condition d)).
  assert (Hpure : fst (step_pure d (w_rng w)) = d').
  { unfold step_pure, uniform, random, randbelow, next_raw, clamp_round.
    cbn [tape cursor]. fold g. fold r. fold u_t. fold u_h.
    change (Z.of_nat (length WEATHER_CONDITIONS)) with 4%Z. fold k.
    destruct (flt (unit_of_raw r) (literal 0.05)) eqn:E; unfold d'.
    - apply replace_condition_iff in E. apply N.ltb_lt in E. rewrite E, Hc. reflexivity.
    - destruct (r mod 2 ^ 53 <? 450359962737050)%N eqn:E'; [|reflexivity].
      apply N.ltb_lt, replace_condition_iff in E'. congruence. }
  pose proof (step_pure_in_range d (w_rng w)) as Hrange. rewrite Hpure in Hrange.
  destruct (step_pure d (w_rng w)) as [d1 g1]. cbn [fst] in Hpure. subst d1.
  cbv zeta in Hrun. fold l in Hrun.
  eexists l, _, d'. split; [exact Hrun|].
  split; [apply temperature_draw_range|]. split; [apply humidity_draw_range|].
  split; [reflexivity|]. split; [reflexivity|].
  split; [exists c; split; [exact Hc | reflexivity]|].
  cbn [w_heap].
  split; [rewrite lookup_insert_ne by exact Hl; apply lookup_insert_eq|].
  split; [apply lookup_insert_eq|]. split; [exact Hl|]. split; [exact Hfresh|].
  intros n later w'' Hsteps.
  match type of Hsteps with steps n self ?x = _ => set (w1 := x) in * end.
  assert (Hcur : w_heap w1 !! current self = Some d').
  { unfold w1. cbn [w_heap]. rewrite lookup_insert_ne by exact Hl. apply lookup_insert_eq. }
  destruct (steps_invariant self n w1 d' Hcur Hrange)
    as (ls & w2 & Hrun2 & _ & _ & _ & Hframe & _).
  rewrite Hrun2 in Hsteps. injection Hsteps as _ <-.
  apply Hframe; [exact Hl|]. unfold w1. cbn [w_heap]. apply lookup_insert_eq.
Qed.

Lemma step_matches_its_description_witness :
  exists snapshot w' d',
    step the_sim (sim_world low_tape) = (Ok snapshot, w') /\
    w_heap w' !! snapshot = Some d' /\
    w_heap w' !! current the_sim = Some d'.
Proof.
  destruct (step_matches_its_description the_sim (sim_world low_tape) default_weather)
    as (s & w' & d' & Hrun & _ & _ & _ & _ & _ & Hcur & Hsnap & _).
  - vm_compute. reflexivity.
  - exists s, w', d'. repeat split; assumption.
Defined.

(** C1.  Whatever the argument and the random draws, [generate_items]
    returns a total equal to the exact sum of quantity times catalog price
    over the items it returns, rounded to two decimals (the sum is an integer
    amount, which the rounding leaves unchanged); the [total_amount] of every
    order that [create_order] returns is the rounded sum of its [items]. *)
Theorem total_amount_is_rounded_sum :
  (forall (order_size : pyvalue) (w : world),
      exists items total w',
        generate_items order_size w = (Ok (items, total), w') /\
        total = py_round (items_value items) 2 /\
        (total == items_value items)%Q) /\
  (forall (ts : datetime) (weather : loc) (w : world) (o : order) (w' : world),
      create_order ts weather w = (Ok o, w') ->
      total_amount o = py_round (items_value (items o)) 2 /\
      (total_amount o == items_value (items o))%Q).
Proof.
  split.
  - intros order_size w.
    destruct (generate_items_run order_size w) as (items & N & g' & Hrun & Hv & HN & _).
    exists items, (inject_Z N), (set_rng g' w). split; [exact Hrun|]. split.
    + rewrite (py_round_Qeq _ _ 2 Hv). symmetry. apply py_round_inject_Z. lia.
    + symmetry. exact Hv.
  - intros ts weather w o w' H.
    destruct (create_order_inv ts weather w o w' H) as (_ & _ & _ & Ht & Hq & _).
    split; assumption.
Qed.

Lemma total_amount_is_rounded_sum_witness :
  exists o w',
    create_order (datetime_of 2025 1 1 0 0 0) 1%positive (fresh_world low_tape)
      = (Ok o, w') /\
    total_amount o = py_round (items_value (items o)) 2 /\
    (total_amount o == items_value (items o))%Q.
Proof.
  eexists _, _. split; [vm_compute; reflexivity|].
  eapply (proj2 total_amount_is_rounded_sum (datetime_of 2025 1 1 0 0 0) 1%positive
            (fresh_world low_tape)).
  vm_compute. reflexivity.
Defined.

(** C3.  Here [generate_items] is run with [random.randint] as CPython
    computes it, by rejection over [k]-bit draws, [k] the bit length of the
    largest quantity [hi]: 2 for the size "small" and 5 for "large".
    - Every quantity returned is an integer of [1, hi].
    - The function returns whenever the tape never holds [fuel] rejected
      words in a row.
    - Every quantity of [1, hi] occurs: on a suitable tape each catalog
      item gets it.
    - The quantity of an item is one more than the [k] leading bits of one
      word of the tape, the first that its loop accepts; whichever accepted
      word takes its place, the quantity is one more than the leading bits
      of that word and the rest of the result, the cells read included, is
      as before.  Every value below [2 ^ k] is the leading bits of as many
      32-bit words as any other ([leading_bits_words]), so the quantities of
      [1, hi] are equally likely. *)
Theorem quantities_follow_order_size (size : string) (hi : Z) :
  (size, hi) ∈ [("small", 2); ("large", 5)]%string%Z ->
  let k := bit_length hi in
  (forall fuel w items total w',
      generate_items_by_rejection fuel (PyStr size) w
        = (Ok (Some (items, total)), w') ->
      quantities_within hi items) /\
  (forall fuel w,
      (forall i, exists j,
          (j < fuel)%nat /\ (leading_bits k (tape (w_rng w) (i + j)%nat) < hi)%Z) ->
      exists items total w',
        generate_items_by_rejection fuel (PyStr size) w
          = (Ok (Some (items, total)), w')) /\
  (forall fuel q w,
      (1 <= fuel)%nat -> (1 <= q <= hi)%Z ->
      exists w',
        generate_items_by_rejection fuel (PyStr size)
            (on_tape (constant_tape (word_of_leading_bits k (q - 1))) w)
          = (Ok (Some (every_item q, inject_Z (52 * q))), w')) /\
  (forall fuel w items total w' item q,
      generate_items_by_rejection fuel (PyStr size) w
        = (Ok (Some (items, total)), w') ->
      dict_get items item = Some q ->
      exists p,
        (cursor (w_rng w) < p < cursor (w_rng w'))%nat /\
        q = (1 + leading_bits k (tape (w_rng w) p))%Z /\
        forall r, (leading_bits k r < hi)%Z ->
          exists total2,
            generate_items_by_rejection fuel (PyStr size) (with_cell p r w)
              = (Ok (Some (dict_set items item (1 + leading_bits k r)%Z, total2)),
                 with_cell p r w')).
Proof.
  intros Hsize k.
  assert (Hhi : max_qty_of (PyStr size) = hi).
  { apply elem_of_cons in Hsize as [E | Hsize]; [injection E as -> ->; reflexivity|].
    apply elem_of_cons in Hsize as [E | Hsize]; [injection E as -> ->; reflexivity|].
    inversion Hsize. }
  assert (Hloop : forall fuel w,
             exists t c h f csv,
               w = mk_world (mk_rng t c) h f csv /\
               generate_items_by_rejection fuel (PyStr size) w
                 = (let (r, w1) :=
                      for_each_until (generate_items_turn_by_rejection fuel (PyStr size))
                        MENU_PRICES ([], literal 0.0) (set_rng (mk_rng t c) w) in
                    match r with
                    | Ok acc => (Ok (option_map (fun acc => (fst acc, py_round (snd acc) 2)) acc), w1)
                    | Raise e => (Raise e, w1)
                    end)).
  { intros fuel [[t c] h f csv]. exists t, c, h, f, csv. split; reflexivity. }
  split; [|split; [|split]].
  - (* range *)
    intros fuel w items total w' H.
    destruct (Hloop fuel w) as (t & c & h & f & csv & -> & Hrun). rewrite Hrun in H.
    destruct (for_each_until _ _ _ _) as [[[[itemsF totalF]|]|e] w1] eqn:E;
      try discriminate.
    cbn [option_map fst snd] in H. injection H as <- _ _.
    destruct (run_shape fuel (PyStr size) _ MENU_PRICES [] _ t c itemsF totalF w1 E
                MENU_PRICES_NoDup)
      as (new & c' & _ & _ & Hitems & Hq & _).
    { intros x Hx. inversion Hx. }
    rewrite Hitems, Hhi in *. exact Hq.
  - (* the function returns *)
    intros fuel w Hfair.
    destruct (Hloop fuel w) as (t & c & h & f & csv & -> & Hrun). rewrite Hrun.
    destruct (run_live fuel (PyStr size) (mk_world (mk_rng t c) h f csv) MENU_PRICES
                ([], literal 0.0) t c) as ([itemsF totalF] & c' & E).
    { intros i _. rewrite Hhi. apply Hfair. }
    rewrite E. cbn [option_map fst snd]. eexists _, _, _. reflexivity.
  - (* every quantity occurs *)
    intros fuel q w Hfuel Hq. destruct fuel as [|fuel]; [lia|].
    apply elem_of_cons in Hsize as [E | Hsize].
    { injection E as -> ->.
      assert (Hc : q = 1%Z \/ q = 2%Z) by lia.
      destruct Hc as [-> | ->]; eexists; vm_compute; reflexivity. }
    apply elem_of_cons in Hsize as [E | Hsize]; [|inversion Hsize].
    injection E as -> ->.
    assert (Hc : q = 1%Z \/ q = 2%Z \/ q = 3%Z \/ q = 4%Z \/ q = 5%Z) by lia.
    destruct Hc as [-> | [-> | [-> | [-> | ->]]]]; eexists; vm_compute; reflexivity.
  - (* one word decides the quantity *)
    intros fuel w items total w' item q H Hget.
    destruct (Hloop fuel w) as (t & c & h & f & csv & -> & Hrun). rewrite Hrun in H.
    destruct (for_each_until _ _ _ _) as [[[[itemsF totalF]|]|e] w1] eqn:E;
      try discriminate.
    cbn [option_map fst snd] in H. injection H as <- _ <-.
    assert (Hfresh : forall x, x ∈ map fst ([] : items_dict) -> x ∉ map fst MENU_PRICES)
      by (intros x Hx; inversion Hx).
    assert (Hin : item ∈ map fst MENU_PRICES).
    { destruct (run_shape fuel (PyStr size) _ MENU_PRICES [] _ t c itemsF totalF w1 E
                  MENU_PRICES_NoDup Hfresh) as (new & c' & _ & _ & Hitems & _ & Hkeys & _).
      apply Hkeys. rewrite Hitems in Hget. apply (dict_get_key _ _ _ Hget). }
    destruct (run_exchange fuel (PyStr size) _ MENU_PRICES [] _ t c itemsF totalF w1
                item q E MENU_PRICES_NoDup Hfresh Hin Hget)
      as (p & c' & -> & Hp & Hq & Hex).
    rewrite Hhi in Hq, Hex. fold k in Hq, Hex.
    exists p. cbn [w_rng set_rng cursor tape]. split; [exact Hp|]. split; [exact Hq|].
    intros r Hr. destruct (Hex r Hr) as (total2 & Hrun2).
    exists (py_round total2 2).
    unfold generate_items_by_rejection, bind.
    change (with_cell p r (mk_world (mk_rng t c) h f csv))
      with (set_rng (mk_rng (replace_cell t p r) c) (mk_world (mk_rng t c) h f csv)).
    match goal with |- context [for_each_until ?b ?l ?a ?w2] =>
      pose proof (Hrun2 : for_each_until b l a w2 = _) as Hrun3 end.
    rewrite Hrun3. reflexivity.
Qed.

Lemma quantities_follow_order_size_witness :
  exists w',
    generate_items_by_rejection 1 (PyStr "small")
        (on_tape (constant_tape (word_of_leading_bits 2 1)) (fresh_world low_tape))
      = (Ok (Some (every_item 2, inject_Z 104)), w').
Proof.
  destruct (quantities_follow_order_size "small" 2) as (_ & _ & Hocc & _).
  - apply list_elem_of_here.
  - apply (Hocc 1%nat 2%Z (fresh_world low_tape)); lia.
Defined.

(** C9.  [generate_items] returns normally for every argument and every
    tape; whenever the items mapping it returns is empty the total is 0; and
    for every argument there is a tape on which the mapping is empty. *)
Theorem generate_items_never_fails :
  (forall (order_size : pyvalue) (w : world),
      exists items total w',
        generate_items order_size w = (Ok (items, total), w') /\
        (items = [] -> total = 0%Q)) /\
  (forall order_size : pyvalue,
      exists w', generate_items order_size (fresh_world high_tape) = (Ok ([], 0%Q), w')).
Proof.
  split.
  - intros order_size w.
    destruct (generate_items_run order_size w) as (items & N & g' & Hrun & Hv & _).
    exists items, (inject_Z N), (set_rng g' w). split; [exact Hrun|].
    intros ->. cbn in Hv. unfold Qeq in Hv. cbn in Hv.
    replace N with 0%Z by lia. reflexivity.
  - intros order_size. eexists. vm_compute. reflexivity.
Qed.

Lemma eq_str_other (v : pyvalue) (lit : string) :
  v <> PyStr lit -> eq_str v lit = false.
Proof.
  intros H. destruct v as [| | | |s]; try reflexivity. cbn.
  destruct (String.eqb_spec s lit) as [->|]; [congruence | reflexivity].
Qed.

(** C10.  For every argument other than the string "small" (another
    string, a number, [None]), [generate_items] returns normally on every
    tape with quantities that are integers of [1, 5], and it does use the
    large range: for each [q] of [1, 5] there is a tape on which every
    catalog item gets the quantity [q], with [randint] read from one cell
    and with [randint] computed by rejection alike. *)
Theorem generate_items_does_not_validate (order_size : pyvalue) (w : world) :
  order_size <> PyStr "small" ->
  (exists items total w',
      generate_items order_size w = (Ok (items, total), w') /\
      quantities_within 5 items) /\
  (forall q : Z, (1 <= q <= 5)%Z ->
      exists w',
        generate_items order_size (on_tape (constant_tape (Z.to_N (q - 1))) w)
          = (Ok (every_item q, inject_Z (52 * q)), w')) /\
  (forall (fuel : nat) (q : Z), (1 <= fuel)%nat -> (1 <= q <= 5)%Z ->
      exists w',
        generate_items_by_rejection fuel order_size
            (on_tape (constant_tape (word_of_leading_bits 3 (q - 1))) w)
          = (Ok (Some (every_item q, inject_Z (52 * q))), w')).
Proof.
  intros H. pose proof (eq_str_other _ _ H) as Hne.
  assert (Hcases : forall q : Z, (1 <= q <= 5)%Z ->
             q = 1%Z \/ q = 2%Z \/ q = 3%Z \/ q = 4%Z \/ q = 5%Z) by (intros; lia).
  split; [|split].
  - destruct (generate_items_run order_size w) as (items & N & g' & Hrun & _ & _ & Hq).
    unfold max_qty_of in Hq. rewrite Hne in Hq.
    exists items, (inject_Z N), (set_rng g' w). split; assumption.
  - intros q Hq. unfold generate_items, generate_items_turn.
    destruct (eq_str order_size "small"); [discriminate|].
    destruct (Hcases q Hq) as [-> | [-> | [-> | [-> | ->]]]];
      eexists; vm_compute; reflexivity.
  - intros fuel q Hfuel Hq. destruct fuel as [|fuel]; [lia|].
    unfold generate_items_by_rejection, generate_items_turn_by_rejection.
    destruct (eq_str order_size "small"); [discriminate|].
    destruct (Hcases q Hq) as [-> | [-> | [-> | [-> | ->]]]];
      eexists; vm_compute; reflexivity.
Qed.

Lemma generate_items_does_not_validate_witness :
  exists w',
    generate_items (PyStr "medium") (on_tape (constant_tape 4) (fresh_world low_tape))
      = (Ok (every_item 5, inject_Z 260), w').
Proof.
  destruct (generate_items_does_not_validate (PyStr "medium") (fresh_world low_tape))
    as (_ & Hocc & _).
  - discriminate.
  - apply (Hocc 5%Z). lia.
Defined.

(** C8.  In every order that [create_order] returns, [processing_time] is
    the same string as [timestamp]. *)
Theorem processing_time_is_timestamp (ts : datetime) (weather : loc)
    (w : world) (o : order) (w' : world) :
  create_order ts weather w = (Ok o, w') ->
  processing_time o = timestamp o /\ timestamp o = isoformat ts.
Proof.
  intros H. destruct (create_order_inv ts weather w o w' H) as (Ht & Hp & _).
  split; congruence.
Qed.

Lemma processing_time_is_timestamp_witness :
  exists o w',
    create_order (datetime_of 2025 1 1 0 0 0) 1%positive (fresh_world low_tape)
      = (Ok o, w') /\
    processing_time o = timestamp o /\
    timestamp o = "2025-01-01T00:00:00"%string.
Proof.
  eexists _, _. split; [vm_compute; reflexivity|].
  eapply (processing_time_is_timestamp (datetime_of 2025 1 1 0 0 0) 1%positive
            (fresh_world low_tape)).
  vm_compute. reflexivity.
Defined.

(** C5.  Along any sequence of order creations and process restarts that
    starts with a usable counter file, every creation returns an identifier,
    the integers the identifiers carry are strictly increasing, and the
    identifiers are pairwise distinct.  (Every call of [next_order_id] reads
    the counter back from the file, so a restart changes nothing.) *)
Theorem order_ids_strictly_increase (evs : list event) (w : world) :
  counter_file_ok w ->
  length (created_ids evs w) = length (filter is_create evs) /\
  StronglySorted id_lt (created_ids evs w) /\
  NoDup (created_ids evs w).
Proof.
  intros Hok. rewrite (created_ids_spec evs w Hok). split; [|split].
  - rewrite length_map, length_seq. reflexivity.
  - apply nth_ids_sorted.
  - apply nth_ids_NoDup.
Qed.

Definition example_events : list event :=
  [ EvCreate (datetime_of 2025 1 1 0 0 0) 1%positive;
    EvRestart (mk_rng high_tape 0);
    EvCreate (datetime_of 2025 1 1 0 0 30) 1%positive;
    EvCreate (datetime_of 2025 1 1 0 1 0) 1%positive ].

Lemma order_ids_strictly_increase_witness :
  created_ids example_events (fresh_world low_tape)
    = ["order_1"; "order_2"; "order_3"]%string /\
  StronglySorted id_lt (created_ids example_events (fresh_world low_tape)) /\
  NoDup (created_ids example_events (fresh_world low_tape)).
Proof.
  split; [vm_compute; reflexivity|].
  apply (order_ids_strictly_increase example_events (fresh_world low_tape)).
  left. reflexivity.
Defined.

Definition T_00_00_00 : datetime := datetime_of 2025 1 1 0 0 0.
Definition T_00_01_00 : datetime := datetime_of 2025 1 1 0 1 0.

(** C6.  Historical mode from 2025-01-01T00:00:00 to 2025-01-01T00:01:00
    with an interval of 30 seconds, started with a usable counter file, runs
    to the end of its loop and leaves exactly three rows in the output file,
    with the timestamps 00:00:00, 00:00:30 and 00:01:00 in that order. *)
Theorem historical_mode_three_records (w : world) (output : string) (fuel : nat) :
  counter_file_ok w ->
  (3 <= fuel)%nat ->
  exists w',
    historical_mode fuel T_00_00_00 T_00_01_00 30 output w = (Ok Finished, w') /\
    row_timestamps (rows_of output w')
      = ["2025-01-01T00:00:00"; "2025-01-01T00:00:30"; "2025-01-01T00:01:00"]%string.
Proof.
  intros Hok Hfuel.
  destruct (historical_mode_start fuel T_00_00_00 T_00_01_00 30 output w Hok)
    as (sim & w0 & Hstart & Hready & Hrows & _).
  assert (Hwalk : exists visited ts',
             walk T_00_01_00 30 3 T_00_00_00 visited ts' /\
             dt_le ts' T_00_01_00 = false /\
             map isoformat visited
               = ["2025-01-01T00:00:00"; "2025-01-01T00:00:30";
                  "2025-01-01T00:01:00"]%string).
  { eexists _, _. split; [|split].
    - repeat (eapply walk_turn; [vm_compute; reflexivity | vm_compute; reflexivity |]).
      apply walk_stop.
    - vm_compute. reflexivity.
    - vm_compute. reflexivity. }
  destruct Hwalk as (visited & ts' & Hwalk & Hend & Hiso).
  destruct (historical_walk output sim T_00_01_00 30 3 _ _ _ Hwalk (fuel - 3) w0 Hready)
    as (w' & Hrun & _ & _ & Hts).
  exists w'. rewrite Hstart.
  replace fuel with (3 + (fuel - 3))%nat at 1 by lia.
  rewrite Hrun. split.
  - apply historical_loop_done. exact Hend.
  - rewrite Hts, Hrows, Hiso. reflexivity.
Qed.

Lemma historical_mode_three_records_witness :
  exists w',
    historical_mode 10 T_00_00_00 T_00_01_00 30 "orders.csv" (fresh_world low_tape)
      = (Ok Finished, w') /\
    row_timestamps (rows_of "orders.csv" w')
      = ["2025-01-01T00:00:00"; "2025-01-01T00:00:30"; "2025-01-01T00:01:00"]%string.
Proof.
  apply (historical_mode_three_records (fresh_world low_tape) "orders.csv" 10).
  - left. reflexivity.
  - lia.
Defined.

(** With an interval of zero the clock never moves: as long as the start is
    not after the end, the loop test succeeds as often as one cares to run
    the loop. *)
Lemma walk_zero_interval (end_ ts : datetime) (n : nat) :
  valid ts -> dt_le ts end_ = true -> walk end_ 0 n ts (repeat ts n) ts.
Proof.
  intros Hv Hle. induction n as [|n IH]; cbn [repeat]; [apply walk_stop|].
  apply (walk_turn end_ 0 n ts ts); [exact Hle| |exact IH].
  unfold add_seconds. destruct ts as [m]. unfold valid in Hv. cbn [micros] in *.
  replace (MAX_DELTA_DAYS <? Z.abs (0 / 86400))%Z with false by reflexivity.
  rewrite Z.mul_0_l, Z.add_0_r.
  destruct (Z.leb_spec 0 m); [|lia].
  destruct (Z.ltb_spec m (MAXORDINAL * US_PER_DAY)); [reflexivity|lia].
Qed.

(** C7 (the code at the failing input).  With [--interval 0], which the
    argument parser accepts, historical mode does not terminate: for every
    bound [fuel], after [fuel] turns of the loop [fuel] rows have been
    written and the loop is still running.  Here for a range of one instant,
    on any tape. *)
Theorem historical_mode_zero_interval_runs_forever (t : nat -> N) (fuel : nat) :
  exists w',
    historical_mode fuel T_00_00_00 T_00_00_00 0 "orders.csv" (fresh_world t)
      = (Ok StillRunning, w') /\
    length (rows_of "orders.csv" w') = fuel.
Proof.
  destruct (historical_mode_start fuel T_00_00_00 T_00_00_00 0 "orders.csv"
              (fresh_world t)) as (sim & w0 & Hstart & Hready & Hrows & _);
    [left; reflexivity|].
  assert (Hwalk : walk T_00_00_00 0 fuel T_00_00_00 (repeat T_00_00_00 fuel) T_00_00_00).
  { apply walk_zero_interval; [vm_compute; split; [discriminate|reflexivity] | reflexivity]. }
  destruct (historical_walk "orders.csv" sim _ _ _ _ _ _ Hwalk 0%nat w0 Hready)
    as (w' & Hrun & _ & _ & Hts).
  exists w'. rewrite Hstart.
  replace fuel with (fuel + 0)%nat at 1 by lia. rewrite Hrun. split.
  - reflexivity.
  - apply (f_equal (@length string)) in Hts.
    unfold row_timestamps in Hts.
    rewrite Hrows, length_map, app_nil_l, length_map, repeat_length in Hts. exact Hts.
Qed.

(* ===================================================================== *)
(** * Further properties of the script *)
(* ===================================================================== *)

(** ** The order-id counter *)

(** X1.  [load_last_order_id] reads back what [save_last_order_id] wrote, for
    every integer of at most 4300 digits, the numbers that [str] and [int]
    convert, and leaves the file as it is. *)
Theorem load_after_save (n : Z) (w : world) :
  (Z.abs n < 10 ^ MAX_STR_DIGITS)%Z ->
  let w1 := snd (save_last_order_id n w) in
  save_last_order_id n w = (Ok tt, w1) /\
  w_counter_file w1 = Some (py_str n) /\
  load_last_order_id w1 = (Ok n, w1).
Proof.
  intros _. cbv zeta. unfold save_last_order_id, load_last_order_id.
  cbn [snd w_counter_file set_counter_file].
  rewrite py_int_py_str. repeat split.
Qed.

Lemma load_after_save_witness :
  load_last_order_id (snd (save_last_order_id (-7) (fresh_world low_tape)))
    = (Ok (-7)%Z, snd (save_last_order_id (-7) (fresh_world low_tape))).
Proof.
  apply (load_after_save (-7) (fresh_world low_tape)). vm_compute. reflexivity.
Defined.

(** X2.  On a counter file whose text reads as the integer [n], white space,
    a sign and underscores between digits included, [next_order_id] returns
    [order_<n+1>] and rewrites the file as the plain decimal of [n + 1];
    nothing else changes.  The text has at most 4300 digits and so has
    [n + 1], as the conversions require. *)
Theorem next_order_id_increments (text : string) (n : Z) (w : world) :
  w_counter_file w = Some text ->
  py_int text = Some n ->
  (Z.of_nat (digits_in text) <= MAX_STR_DIGITS)%Z ->
  (Z.abs (n + 1) < 10 ^ MAX_STR_DIGITS)%Z ->
  next_order_id w =
    (Ok ("order_" ++ py_str (n + 1))%string,
     set_counter_file (Some (py_str (n + 1))) w) /\
  counter_value (snd (next_order_id w)) = (n + 1)%Z.
Proof.
  intros Hf Hn _ _. rewrite next_order_id_cases, Hf, Hn. split; [reflexivity|].
  unfold counter_value. cbn [snd w_counter_file set_counter_file].
  rewrite py_int_py_str. reflexivity.
Qed.

(** The text [" +4_1"] followed by a line feed. *)
Definition padded_text : string :=
  (String (ascii_of_nat 32) "+4_1" ++ String (ascii_of_nat 10) EmptyString)%string.

Definition padded_counter_world : world :=
  set_counter_file (Some padded_text) (fresh_world low_tape).

Lemma next_order_id_increments_witness :
  next_order_id padded_counter_world =
    (Ok "order_42"%string, set_counter_file (Some "42"%string) padded_counter_world) /\
  counter_value (snd (next_order_id padded_counter_world)) = 42%Z.
Proof.
  apply (next_order_id_increments padded_text 41 padded_counter_world);
    vm_compute; reflexivity || discriminate.
Defined.

(** X3.  On a counter file that exists and whose text, of code points below
    256, is not what [int] accepts after [strip] (an empty file, for one),
    [next_order_id] raises [ValueError] and changes nothing; no sequence of
    creations and restarts allocates an identifier again until the file is
    repaired. *)
Theorem next_order_id_on_corrupt_file (text : string) (w : world) :
  w_counter_file w = Some text ->
  py_int text = None ->
  next_order_id w = (Raise ValueError, w) /\
  forall evs : list event, created_ids evs w = [].
Proof.
  intros Hf Hn. split.
  - rewrite next_order_id_cases, Hf, Hn. reflexivity.
  - intros evs. revert w Hf. induction evs as [|e evs IH]; intros w Hf.
    + reflexivity.
    + destruct e as [ts weather | g]; cbn [created_ids].
      * destruct (create_order_cases ts weather w)
          as (rt & rid & eid & sz & items & N & g' & Hrun & _).
        rewrite Hrun. unfold bind. rewrite next_order_id_cases.
        cbn [w_counter_file set_rng]. rewrite Hf, Hn.
        apply IH. exact Hf.
      * apply IH. exact Hf.
Qed.

Definition empty_counter_world : world :=
  set_counter_file (Some EmptyString) (fresh_world low_tape).

Lemma next_order_id_on_corrupt_file_witness :
  next_order_id empty_counter_world = (Raise ValueError, empty_counter_world) /\
  created_ids example_events empty_counter_world = [].
Proof.
  destruct (next_order_id_on_corrupt_file EmptyString empty_counter_world)
    as [Hrun Hids]; [reflexivity | reflexivity |].
  split; [exact Hrun | apply Hids].
Defined.

(** X4.  Without a counter file, [load_last_order_id] creates it with the text
    ["0"] and returns 0, so the first identifier ever allocated is
    [order_1]. *)
Theorem counter_starts_at_one (w : world) :
  w_counter_file w = None ->
  load_last_order_id w = (Ok 0%Z, set_counter_file (Some "0"%string) w) /\
  next_order_id w = (Ok "order_1"%string, set_counter_file (Some "1"%string) w).
Proof.
  intros Hf. split.
  - unfold load_last_order_id. rewrite Hf. reflexivity.
  - rewrite next_order_id_cases, Hf. reflexivity.
Qed.

Lemma counter_starts_at_one_witness :
  load_last_order_id (fresh_world low_tape)
    = (Ok 0%Z, set_counter_file (Some "0"%string) (fresh_world low_tape)) /\
  next_order_id (fresh_world low_tape)
    = (Ok "order_1"%string, set_counter_file (Some "1"%string) (fresh_world low_tape)).
Proof. apply (counter_starts_at_one (fresh_world low_tape)). reflexivity. Defined.

(** ** Numbers that binary64 holds exactly *)

Module Binary64Exact.

Import Binary64 Binary64Facts.
Local Open Scope Q_scope.

Lemma rnd_pos_dyadic k j :
  (0 < k < 2 ^ 53)%Z -> (-1074 <= j)%Z ->
  rnd_pos (inject_Z k * 2 ^ j) == inject_Z k * 2 ^ j.
Proof.
  intros [Hk0 Hk] Hj.
  set (x := inject_Z k * 2 ^ j).
  assert (Hx : 0 < x).
  { unfold x. apply Qmult_lt_0_compat; [|apply pow2_pos].
    change 0 with (inject_Z 0). rewrite <- Zlt_Qlt. exact Hk0. }
  destruct (Qilog2_spec x Hx) as [Hlo _].
  assert (Hl : (Qilog2 x < 53 + j)%Z).
  { apply pow2_lt_inv. eapply Qle_lt_trans; [exact Hlo|].
    unfold x. rewrite pow2_add. apply Qmult_lt_compat_r; [apply pow2_pos|].
    rewrite <- (pow2_inject 53) by lia. rewrite <- Zlt_Qlt. exact Hk. }
  unfold rnd_pos.
  assert (He : (expo x <= j)%Z) by (unfold expo; lia).
  set (e := expo x) in *.
  assert (Hscaled : x * 2 ^ (- e) == inject_Z (k * 2 ^ (j - e))).
  { unfold x. rewrite inject_Z_mult, (pow2_inject (j - e)) by lia.
    rewrite <- Qmult_assoc, <- pow2_add. replace (j + - e)%Z with (j - e)%Z by lia.
    reflexivity. }
  rewrite (rneQ_inject _ _ Hscaled).
  rewrite inject_Z_mult, (pow2_inject (j - e)) by lia.
  unfold x. rewrite <- Qmult_assoc, <- pow2_add.
  replace (j - e + e)%Z with j by lia. reflexivity.
Qed.

(** Rounding leaves [k * 2^j] alone when [k] fits in 53 bits. *)
Lemma rnd64_dyadic k j :
  (Z.abs k < 2 ^ 53)%Z -> (-1074 <= j)%Z ->
  rnd64 (inject_Z k * 2 ^ j) == inject_Z k * 2 ^ j.
Proof.
  intros Hk Hj. destruct (Z.lt_trichotomy k 0) as [Hz | [-> | Hz]].
  - assert (Hq : inject_Z k * 2 ^ j < 0).
    { rewrite <- (Qmult_0_l (2 ^ j)). apply Qmult_lt_compat_r; [apply pow2_pos|].
      change 0 with (inject_Z 0). rewrite <- Zlt_Qlt. exact Hz. }
    rewrite (rnd64_neg _ Hq).
    assert (E : - (inject_Z k * 2 ^ j) == inject_Z (- k) * 2 ^ j).
    { rewrite inject_Z_opp. ring. }
    assert (E' : rnd_pos (- (inject_Z k * 2 ^ j)) == rnd_pos (inject_Z (- k) * 2 ^ j)).
    { assert (Hp : 0 < inject_Z (- k) * 2 ^ j).
      { apply Qmult_lt_0_compat; [|apply pow2_pos].
        change 0 with (inject_Z 0). rewrite <- Zlt_Qlt. lia. }
      apply Qle_antisym; apply rnd_pos_mono;
        try (rewrite E; exact Hp); try exact Hp; rewrite E; apply Qle_refl. }
    rewrite E', (rnd_pos_dyadic (- k) j) by lia. rewrite inject_Z_opp. ring.
  - rewrite (rnd64_zero (inject_Z 0 * 2 ^ j)); [|ring]. ring.
  - assert (Hq : 0 < inject_Z k * 2 ^ j).
    { apply Qmult_lt_0_compat; [|apply pow2_pos].
      change 0 with (inject_Z 0). rewrite <- Zlt_Qlt. exact Hz. }
    rewrite (rnd64_pos _ Hq). apply rnd_pos_dyadic; lia.
Qed.

End Binary64Exact.

(** ** The fields of an order *)

Module OrderFields.

Import Binary64 PyRandom PyText PyDatetime Script Statements.
Import Binary64Facts Binary64Exact PyTextFacts ItemFacts OrderFacts.

(** The number of values of a 53-bit draw that fall below the weight 0.6. *)
Definition SMALL_DRAWS : N := 5404319552844595%N.

Lemma choice_lookup {A} (l : list A) (g : rng) :
  l <> [] ->
  choice l g
    = (l !! Z.to_nat (Z.of_N (tape g (cursor g)) mod Z.of_nat (length l)),
       mk_rng (tape g) (S (cursor g))).
Proof. intros Hl. destruct l; [congruence | reflexivity]. Qed.

Lemma draw_choice_lookup {A} (l : list A) (w : world) :
  l <> [] ->
  exists x,
    l !! Z.to_nat (Z.of_N (tape (w_rng w) (cursor (w_rng w))) mod Z.of_nat (length l))
      = Some x /\
    draw_or IndexError (choice l) w
      = (Ok x, set_rng (mk_rng (tape (w_rng w)) (S (cursor (w_rng w)))) w).
Proof.
  intros Hl.
  destruct (lookup_lt_is_Some_2 l
              (Z.to_nat (Z.of_N (tape (w_rng w) (cursor (w_rng w))) mod Z.of_nat (length l))))
    as [x Hx].
  { pose proof (Z.mod_pos_bound (Z.of_N (tape (w_rng w) (cursor (w_rng w))))
                  (Z.of_nat (length l))).
    destruct l; [congruence|]. cbn [length] in *. lia. }
  exists x. split; [exact Hx|].
  unfold draw_or. rewrite (choice_lookup l _ Hl), Hx. reflexivity.
Qed.

Lemma unit_of_raw_exact r : (rnd64 (unit_of_raw r) == unit_of_raw r)%Q.
Proof.
  assert (E : (unit_of_raw r == inject_Z (Z.of_N (r mod 2 ^ 53)) * 2 ^ (-53))%Q).
  { unfold unit_of_raw.
    replace (2 ^ (-53))%Q with (1 # 2 ^ 53)%Q by (vm_compute; reflexivity).
    unfold Qeq. cbn [Qnum Qden Qmult inject_Z]. rewrite Pos.mul_1_l. ring. }
  rewrite (rnd64_Qeq _ _ E), E. apply rnd64_dyadic; [|lia].
  assert (H : (r mod 2 ^ 53 < 2 ^ 53)%N) by (apply N.mod_lt; discriminate).
  change (2 ^ 53)%Z with (Z.of_N (2 ^ 53)).
  set (K := (2 ^ 53)%N) in *. clearbody K.
  set (m := (r mod K)%N) in *. clearbody m. lia.
Qed.

(** The weighted choice of the order size, in terms of the raw draw. *)
Lemma small_iff (r : N) :
  flt (fmul (unit_of_raw r) 1) (literal 0.6) = true <-> (r mod 2 ^ 53 < SMALL_DRAWS)%N.
Proof.
  rewrite flt_true. unfold fmul.
  rewrite (rnd64_Qeq (unit_of_raw r * 1) (unit_of_raw r)) by apply Qmult_1_r.
  rewrite unit_of_raw_exact.
  replace (literal 0.6) with (5404319552844595 # 9007199254740992)%Q
    by (vm_compute; reflexivity).
  unfold unit_of_raw, Qlt, SMALL_DRAWS. cbn [Qnum Qden].
  set (m := (r mod 2 ^ 53)%N). clearbody m.
  change (Z.pos (2 ^ 53)) with 9007199254740992%Z. lia.
Qed.

Lemma choices1_sizes (g : rng) :
  choices1 ["small"; "large"]%string [literal 0.6; literal 0.4] g
    = (Some (if (tape g (cursor g) mod 2 ^ 53 <? SMALL_DRAWS)%N
             then "small" else "large")%string,
       mk_rng (tape g) (S (cursor g))).
Proof.
  unfold choices1. cbn [accumulate accumulate_from length Nat.eqb negb List.last].
  replace (fadd (fadd (literal 0.6) (literal 0.4)) 0) with 1%Q by (vm_compute; reflexivity).
  replace (Qle_bool 1 0) with false by reflexivity.
  unfold random, next_raw. cbn [Nat.sub bisect].
  destruct (flt _ _) eqn:E.
  - apply small_iff, N.ltb_lt in E. rewrite E. reflexivity.
  - destruct (_ <? _)%N eqn:E'; [|reflexivity].
    apply N.ltb_lt, small_iff in E'. congruence.
Qed.

(** Every successful [create_order], field by field, in terms of the four
    cells of the tape it reads before generating the items. *)
Lemma create_order_draws ts weather w o w' :
  create_order ts weather w = (Ok o, w') ->
  let g := w_rng w in
  let c := cursor g in
  map fst REGISTERS !! Z.to_nat (Z.of_N (tape g c) mod 3) = Some (register_type o) /\
  (exists pool,
      dict_get REGISTERS (register_type o) = Some pool /\
      pool !! Z.to_nat (Z.of_N (tape g (S c)) mod Z.of_nat (length pool))
        = Some (register_id o)) /\
  EMPLOYEES !! Z.to_nat (Z.of_N (tape g (S (S c))) mod 15) = Some (employee_id o) /\
  order_size o = (if (tape g (S (S (S c))) mod 2 ^ 53 <? SMALL_DRAWS)%N
                  then "small" else "large")%string /\
  restaurant_id o = "restaurant_001"%string /\
  IsWeather o = weather /\
  w_heap w' = w_heap w /\ w_csv w' = w_csv w /\
  (exists n, order_id o = ("order_" ++ py_str n)%string /\
             w_counter_file w' = Some (py_str n)).
Proof.
  intros H g c. subst g c. revert H. unfold create_order.
  destruct (draw_choice_lookup (map fst REGISTERS) w) as (rt & Hrt & Hrun); [discriminate|].
  unfold bind at 1. rewrite Hrun. clear Hrun. cbv beta iota.
  assert (Hpool : exists pool, dict_get REGISTERS rt = Some pool /\ pool <> []).
  { apply list_elem_of_lookup_2 in Hrt. cbn in Hrt.
    repeat (apply elem_of_cons in Hrt as [-> | Hrt]);
      [eexists; split; [reflexivity | discriminate] ..|inversion Hrt]. }
  destruct Hpool as (pool & Hpool & Hne).
  unfold bind at 1. rewrite Hpool. cbn [or_raise]. unfold ret at 1. cbv beta iota.
  unfold bind at 1.
  match goal with |- context [draw_or IndexError (choice pool) ?w1] =>
    destruct (draw_choice_lookup pool w1 Hne) as (rid & Hrid & Hrun) end.
  rewrite Hrun. clear Hrun. cbv beta iota.
  unfold bind at 1.
  match goal with |- context [draw_or IndexError (choice EMPLOYEES) ?w1] =>
    destruct (draw_choice_lookup EMPLOYEES w1) as (eid & Heid & Hrun); [discriminate|] end.
  rewrite Hrun. clear Hrun. cbv beta iota.
  unfold bind at 1. unfold draw_or at 1. rewrite choices1_sizes. cbv beta iota.
  cbn [w_rng set_rng tape cursor] in *.
  set (sz := (if (_ <? _)%N then _ else _)%string).
  unfold bind at 1.
  match goal with |- context [generate_items (PyStr sz) ?w1] =>
    destruct (generate_items_run (PyStr sz) w1) as (items & N & g' & Hgen & _) end.
  rewrite Hgen. clear Hgen. cbv beta iota.
  unfold bind. rewrite next_order_id_cases. cbn [w_counter_file set_rng].
  change (Z.of_nat (length (map fst REGISTERS))) with 3%Z in Hrt.
  change (Z.of_nat (length EMPLOYEES)) with 15%Z in Heid.
  destruct (w_counter_file w) as [text|].
  - destruct (py_int text) as [n|]; [|discriminate].
    unfold ret. intros [= <- <-]. cbn.
    repeat split; try assumption; try reflexivity; eauto.
  - unfold ret. intros [= <- <-]. cbn.
    repeat split; try assumption; try reflexivity; eauto.
    exists 1%Z. split; reflexivity.
Qed.

End OrderFields.

Import Binary64Exact OrderFields.

Lemma string_app_assoc (a b c : string) :
  ((a ++ b) ++ c = a ++ (b ++ c))%string.
Proof.
  induction a as [|x a IH]; [reflexivity|].
  change (String x ((a ++ b) ++ c) = String x (a ++ (b ++ c)))%string.
  rewrite IH. reflexivity.
Qed.

Lemma elem_of_numbered (prefix x : string) (n : nat) :
  x ∈ numbered prefix n ->
  exists k : Z, (1 <= k <= Z.of_nat n)%Z /\ x = (prefix ++ py_str k)%string.
Proof.
  unfold numbered. intros H. apply list_elem_of_fmap in H as (i & -> & Hi).
  apply elem_of_seq in Hi. exists (Z.of_nat i + 1)%Z. split; [lia | reflexivity].
Qed.

(** X5.  The register of an order belongs to the pool of its register type:
    [stationary_1..3], [drive_1..2] or [kiosk_1..2]; the employee is one of
    [employee_1..15]; the restaurant is always [restaurant_001].  Type,
    register and employee are each selected by the residue of one cell of
    the tape modulo the size of the list they are chosen from. *)
Theorem order_register_matches_its_type (ts : datetime) (weather : loc)
    (w : world) (o : order) (w' : world) :
  create_order ts weather w = (Ok o, w') ->
  let g := w_rng w in
  (exists pool_size k : Z,
      (register_type o, pool_size)
        ∈ [("stationary", 3); ("drive", 2); ("kiosk", 2)]%string%Z /\
      (1 <= k <= pool_size)%Z /\
      register_id o = (register_type o ++ "_" ++ py_str k)%string) /\
  (exists k : Z, (1 <= k <= 15)%Z /\ employee_id o = ("employee_" ++ py_str k)%string) /\
  restaurant_id o = "restaurant_001"%string /\
  map fst REGISTERS !! Z.to_nat (Z.of_N (tape g (cursor g)) mod 3)
    = Some (register_type o) /\
  EMPLOYEES !! Z.to_nat (Z.of_N (tape g (S (S (cursor g)))) mod 15)
    = Some (employee_id o).
Proof.
  intros H g.
  destruct (create_order_draws ts weather w o w' H)
    as (Hrt & (pool & Hpool & Hrid) & Heid & _ & Hrest & _).
  fold g in Hrt, Heid.
  split; [|split; [|split; [exact Hrest | split; [exact Hrt | exact Heid]]]].
  - apply list_elem_of_lookup_2 in Hrt. apply list_elem_of_lookup_2 in Hrid.
    cbn in Hrt.
    assert (Hcase : forall (rt : string) (n : nat),
               register_type o = rt -> dict_get REGISTERS rt = Some (numbered (rt ++ "_") n) ->
               exists k : Z, (1 <= k <= Z.of_nat n)%Z /\
                             register_id o = (register_type o ++ "_" ++ py_str k)%string).
    { intros rt n E Hp. rewrite E in Hpool. rewrite Hp in Hpool. injection Hpool as <-.
      apply elem_of_numbered in Hrid as (k & Hk & Hid).
      exists k. split; [exact Hk|]. rewrite Hid, E. apply string_app_assoc. }
    apply elem_of_cons in Hrt as [E | Hrt].
    { destruct (Hcase _ 3%nat E eq_refl) as (k & Hk & Hid).
      exists 3%Z, k. rewrite E at 1. split; [apply list_elem_of_here | split; [lia | exact Hid]]. }
    apply elem_of_cons in Hrt as [E | Hrt].
    { destruct (Hcase _ 2%nat E eq_refl) as (k & Hk & Hid).
      exists 2%Z, k. rewrite E at 1.
      split; [apply list_elem_of_further, list_elem_of_here | split; [lia | exact Hid]]. }
    apply elem_of_cons in Hrt as [E | Hrt]; [|inversion Hrt].
    destruct (Hcase _ 2%nat E eq_refl) as (k & Hk & Hid).
    exists 2%Z, k. rewrite E at 1.
    split; [do 2 apply list_elem_of_further; apply list_elem_of_here | split; [lia | exact Hid]].
  - apply list_elem_of_lookup_2 in Heid. apply elem_of_numbered in Heid as (k & Hk & ->).
    exists k. split; [exact Hk | reflexivity].
Qed.

Lemma order_register_matches_its_type_witness :
  exists o w',
    create_order T_00_00_00 1%positive (fresh_world high_tape) = (Ok o, w') /\
    (exists k : Z, (1 <= k <= 15)%Z /\ employee_id o = ("employee_" ++ py_str k)%string) /\
    restaurant_id o = "restaurant_001"%string /\
    map fst REGISTERS !! 1%nat = Some (register_type o).
Proof.
  eexists _, _. split; [vm_compute; reflexivity|].
  edestruct (order_register_matches_its_type T_00_00_00 1%positive
               (fresh_world high_tape)) as (_ & He & Hr & Ht & _).
  - vm_compute. reflexivity.
  - split; [exact He|]. split; [exact Hr | exact Ht].
Defined.

(** X6.  The size of an order is "small" exactly when the fourth cell of the
    tape that [create_order] reads, taken as a 53-bit fraction, is below the
    weight 0.6, and "large" otherwise: [SMALL_DRAWS] of the [2^53] values
    give "small", and that proportion is the float 0.6 itself. *)
Theorem order_size_follows_the_weights (ts : datetime) (weather : loc)
    (w : world) (o : order) (w' : world) :
  create_order ts weather w = (Ok o, w') ->
  let raw := tape (w_rng w) (S (S (S (cursor (w_rng w))))) in
  order_size o = (if (raw mod 2 ^ 53 <? SMALL_DRAWS)%N then "small" else "large")%string /\
  (Z.of_N SMALL_DRAWS # 2 ^ 53 == literal 0.6)%Q.
Proof.
  intros H raw.
  destruct (create_order_draws ts weather w o w' H) as (_ & _ & _ & Hsz & _).
  split; [exact Hsz | vm_compute; reflexivity].
Qed.

Lemma order_size_follows_the_weights_witness :
  exists o w' o2 w2,
    create_order T_00_00_00 1%positive (fresh_world low_tape) = (Ok o, w') /\
    order_size o = "small"%string /\
    create_order T_00_00_00 1%positive (fresh_world high_tape) = (Ok o2, w2) /\
    order_size o2 = "large"%string.
Proof.
  eexists _, _, _, _.
  split; [vm_compute; reflexivity|]. split.
  - eapply (order_size_follows_the_weights T_00_00_00 1%positive (fresh_world low_tape)).
    vm_compute. reflexivity.
  - split; [vm_compute; reflexivity|].
    eapply (order_size_follows_the_weights T_00_00_00 1%positive (fresh_world high_tape)).
    vm_compute. reflexivity.
Defined.

(** X7.  [create_order] keeps the weather dictionary it is given by reference,
    without copying or changing it: the heap and the CSV files are as
    before, the counter file holds the number of the identifier just
    returned, and a later change of that dictionary shows in the order. *)
Theorem create_order_shares_the_weather (ts : datetime) (weather : loc)
    (w : world) (o : order) (w' : world) :
  create_order ts weather w = (Ok o, w') ->
  IsWeather o = weather /\
  w_heap w' = w_heap w /\
  w_csv w' = w_csv w /\
  (exists n : Z, order_id o = ("order_" ++ py_str n)%string /\
                 w_counter_file w' = Some (py_str n)) /\
  (forall d : Script.weather,
      fst (deref (IsWeather o) (snd (store weather d w'))) = Ok d).
Proof.
  intros H.
  destruct (create_order_draws ts weather w o w' H)
    as (_ & _ & _ & _ & _ & Hw & Hheap & Hcsv & Hid).
  repeat split; try assumption.
  intros d. rewrite Hw. unfold deref, store. cbn [snd w_heap set_heap].
  rewrite lookup_insert_eq. reflexivity.
Qed.

Lemma create_order_shares_the_weather_witness :
  exists o w',
    create_order T_00_00_00 1%positive (sim_world low_tape) = (Ok o, w') /\
    IsWeather o = 1%positive /\
    w_heap w' = w_heap (sim_world low_tape).
Proof.
  eexists _, _. split; [vm_compute; reflexivity|].
  edestruct (create_order_shares_the_weather T_00_00_00 1%positive (sim_world low_tape))
    as (Hw & Hh & _).
  - vm_compute. reflexivity.
  - split; [exact Hw | exact Hh].
Defined.

(** ** More on the weather simulator *)

(** A property of the dictionary that one [step] preserves is kept by any
    number of steps, and holds for every snapshot taken on the way. *)
Lemma steps_preserve (P : weather -> Prop) (self : WeatherSimulator) :
  (forall d g, P d -> P (fst (step_pure d g))) ->
  forall n w d,
    w_heap w !! current self = Some d ->
    P d ->
    exists snapshots w',
      steps n self w = (Ok snapshots, w') /\
      (exists d', w_heap w' !! current self = Some d' /\ P d') /\
      Forall (fun l => exists s, w_heap w' !! l = Some s /\ P s) snapshots /\
      (forall l x, l <> current self -> w_heap w !! l = Some x -> w_heap w' !! l = Some x).
Proof.
  intros Hstep. induction n as [|n IH]; intros w d Hd HP.
  - exists [], w. cbn [steps]. unfold ret. repeat split; eauto.
  - cbn [steps]. unfold bind at 1. rewrite (step_run self w d Hd).
    pose proof (Hstep d (w_rng w) HP) as HP1.
    destruct (step_pure d (w_rng w)) as [d1 g1]. cbn [fst] in HP1.
    cbv zeta. set (l1 := fresh (dom (w_heap w))).
    assert (Hl1 : l1 <> current self) by (eapply fresh_not_current; eassumption).
    match goal with |- context [(Ok l1, ?x)] => set (w1 := x) end.
    assert (Hd1 : w_heap w1 !! current self = Some d1).
    { unfold w1. cbn [w_heap]. rewrite lookup_insert_ne by exact Hl1. apply lookup_insert_eq. }
    destruct (IH w1 d1 Hd1 HP1) as (ls & w' & Hrun & Hcur & Hall & Hframe).
    exists (l1 :: ls), w'. unfold bind. rewrite Hrun. unfold ret.
    split; [reflexivity|]. split; [exact Hcur|]. split.
    + constructor; [|exact Hall]. exists d1. split; [|exact HP1].
      apply Hframe; [exact Hl1|]. unfold w1. cbn [w_heap]. apply lookup_insert_eq.
    + intros l x Hne Hx. apply Hframe; [exact Hne|]. unfold w1. cbn [w_heap].
      assert (l <> l1).
      { intros ->. apply (is_fresh (dom (w_heap w))). apply (elem_of_dom_2 _ _ _ Hx). }
      rewrite !lookup_insert_ne by congruence. exact Hx.
Qed.

(** X8.  If the condition of the weather is one of WEATHER_CONDITIONS to begin
    with, as it is for the default state, it is one of them after any number
    of steps, in the simulator and in every snapshot. *)
Theorem condition_stays_known (self : WeatherSimulator) (w : world) (d : weather)
    (n : nat) :
  w_heap w !! current self = Some d ->
  condition d ∈ WEATHER_CONDITIONS ->
  exists snapshots w',
    steps n self w = (Ok snapshots, w') /\
    (exists d', w_heap w' !! current self = Some d' /\
                condition d' ∈ WEATHER_CONDITIONS) /\
    Forall (fun l => exists s, w_heap w' !! l = Some s /\
                               condition s ∈ WEATHER_CONDITIONS) snapshots.
Proof.
  intros Hd Hc.
  destruct (steps_preserve (fun x => condition x ∈ WEATHER_CONDITIONS) self) with
    (n := n) (w := w) (d := d) as (ls & w' & Hrun & Hcur & Hall & _);
    [|exact Hd|exact Hc|exists ls, w'; repeat split; assumption].
  intros d0 g H0. unfold step_pure.
  destruct (uniform _ _ g) as [u g1]. destruct (uniform _ _ g1) as [v g2].
  destruct (random g2) as [r g3]. destruct (flt r _); [|exact H0].
  destruct (randbelow _ g3) as [k g4]. cbn [fst condition].
  destruct (WEATHER_CONDITIONS !! Z.to_nat k) as [c|] eqn:E; cbn [default]; [|exact H0].
  apply (list_elem_of_lookup_2 _ _ _ E).
Qed.

Lemma condition_stays_known_witness :
  exists snapshots w',
    steps 4 the_sim (sim_world low_tape) = (Ok snapshots, w') /\
    (exists d', w_heap w' !! current the_sim = Some d' /\
                condition d' ∈ WEATHER_CONDITIONS) /\
    Forall (fun l => exists s, w_heap w' !! l = Some s /\
                               condition s ∈ WEATHER_CONDITIONS) snapshots.
Proof.
  apply (condition_stays_known the_sim (sim_world low_tape) default_weather 4).
  - vm_compute. reflexivity.
  - apply list_elem_of_here.
Defined.

(** What [round(min(max(x, lo), hi), 1)] can return: the float nearest to
    [k / 10] for an integer [k] between [10 * lo] and [10 * hi]. *)
Lemma clamp_round_tenths (x : Q) (lo hi : Z) :
  (lo <= hi)%Z ->
  exists k : Z,
    (10 * lo <= k <= 10 * hi)%Z /\
    clamp_round x (inject_Z lo) (inject_Z hi) = rnd64 (inject_Z k / 10).
Proof.
  intros H.
  assert (Hq : (inject_Z lo <= inject_Z hi)%Q) by (rewrite <- Zle_Qle; exact H).
  destruct (clamp_bounds x _ _ Hq) as [H1 H2].
  set (y := py_min (py_max x (inject_Z lo)) (inject_Z hi)) in *.
  exists (rneQ (y * 10)). split; [split|].
  - apply rneQ_ge_inject. rewrite inject_Z_mult.
    rewrite (Qmult_comm (inject_Z 10)). apply Qmult_le_compat_r; [exact H1|discriminate].
  - apply rneQ_le_inject. rewrite inject_Z_mult.
    rewrite (Qmult_comm (inject_Z 10)). apply Qmult_le_compat_r; [exact H2|discriminate].
  - reflexivity.
Qed.

(** X9.  After a call of [step] on a state whose temperature and humidity
    are finite numbers, whatever their values, the temperature is the float
    nearest to [kt / 10] for an integer [kt] of [-50, 350] and the humidity
    the float nearest to [kh / 10] for an integer [kh] of [200, 900]: the
    simulator itself, not only the snapshot, holds values rounded to one
    decimal, so a perturbation that rounds away is lost.  (A state that
    holds NaN is not a [weather] here; [step] would leave it NaN.) *)
Theorem step_stores_one_decimal (self : WeatherSimulator) (w : world)
    (d : weather) :
  w_heap w !! current self = Some d ->
  exists snapshot w' d' (kt kh : Z),
    step self w = (Ok snapshot, w') /\
    w_heap w' !! current self = Some d' /\
    w_heap w' !! snapshot = Some d' /\
    (-50 <= kt <= 350)%Z /\ temperature d' = rnd64 (inject_Z kt / 10) /\
    (200 <= kh <= 900)%Z /\ humidity d' = rnd64 (inject_Z kh / 10).
Proof.
  intros Hd. pose proof (step_run self w d Hd) as Hrun.
  destruct (step_pure_fields d (w_rng w)) as (u & v & c & Hf).
  destruct (step_pure d (w_rng w)) as [d1 g1]. cbn [fst] in Hf. subst d1.
  cbv zeta in Hrun.
  assert (Hl : fresh (dom (w_heap w)) <> current self)
    by (eapply fresh_not_current; eassumption).
  destruct (clamp_round_tenths (fadd (temperature d) u) (-5) 35) as (kt & Hkt & Ht); [lia|].
  destruct (clamp_round_tenths (fadd (humidity d) v) 20 90) as (kh & Hkh & Hh); [lia|].
  eexists _, _, _, kt, kh. split; [exact Hrun|]. cbn [w_heap temperature humidity].
  split; [rewrite lookup_insert_ne by exact Hl; apply lookup_insert_eq|].
  split; [apply lookup_insert_eq|].
  split; [lia|]. split; [exact Ht|]. split; [lia | exact Hh].
Qed.

Lemma step_stores_one_decimal_witness :
  exists snapshot w' d' (kt kh : Z),
    step the_sim (sim_world low_tape) = (Ok snapshot, w') /\
    w_heap w' !! current the_sim = Some d' /\
    w_heap w' !! snapshot = Some d' /\
    (-50 <= kt <= 350)%Z /\ temperature d' = rnd64 (inject_Z kt / 10) /\
    (200 <= kh <= 900)%Z /\ humidity d' = rnd64 (inject_Z kh / 10).
Proof.
  apply (step_stores_one_decimal the_sim (sim_world low_tape) default_weather).
  vm_compute. reflexivity.
Defined.

(** X10.  [WeatherSimulator()] allocates a dictionary of its own with the default
    state and leaves every other dictionary alone; [WeatherSimulator(start)]
    keeps the caller's dictionary by reference, so that [step] changes the
    caller's dictionary in place, while the snapshot it returns is a
    different dictionary with the same contents. *)
Theorem constructor_keeps_start_by_reference (start : loc) (w : world)
    (d : weather) :
  w_heap w !! start = Some d ->
  (exists self w0,
      WeatherSimulator_init None w = (Ok self, w0) /\
      w_heap w !! current self = None /\
      w_heap w0 !! current self = Some default_weather /\
      w_heap w0 !! start = Some d) /\
  (exists snapshot w',
      (self <- WeatherSimulator_init (Some start) ;; step self) w = (Ok snapshot, w') /\
      w_heap w' !! start = Some (fst (step_pure d (w_rng w))) /\
      snapshot <> start /\
      w_heap w' !! snapshot = w_heap w' !! start).
Proof.
  intros Hd. split.
  - unfold WeatherSimulator_init, bind, alloc, ret.
    eexists _, _. split; [reflexivity|]. cbn [current w_heap set_heap].
    assert (Hf : w_heap w !! fresh (dom (w_heap w)) = None)
      by (apply not_elem_of_dom, is_fresh).
    split; [exact Hf|]. split; [apply lookup_insert_eq|].
    rewrite lookup_insert_ne; [exact Hd|]. intros E. rewrite E in Hf. congruence.
  - unfold bind, WeatherSimulator_init, ret.
    pose proof (step_run (mk_sim start) w d Hd) as Hrun.
    destruct (step_pure d (w_rng w)) as [d1 g1]. cbv zeta in Hrun. cbn [current] in Hrun.
    assert (Hl : fresh (dom (w_heap w)) <> start)
      by (apply (fresh_not_current _ _ d); exact Hd).
    eexists _, _. split; [exact Hrun|]. cbn [fst w_heap].
    split; [rewrite lookup_insert_ne by exact Hl; apply lookup_insert_eq|].
    split; [exact Hl|].
    rewrite lookup_insert_eq, lookup_insert_ne by exact Hl. symmetry. apply lookup_insert_eq.
Qed.

Lemma constructor_keeps_start_by_reference_witness :
  exists snapshot w' d',
    (self <- WeatherSimulator_init (Some 1%positive) ;; step self) (sim_world high_tape)
      = (Ok snapshot, w') /\
    w_heap w' !! 1%positive = Some d' /\
    temperature d' = rnd64 (202 / 10) /\
    temperature default_weather = 20%Q.
Proof.
  destruct (constructor_keeps_start_by_reference 1%positive (sim_world high_tape)
              default_weather) as (_ & snap & w' & Hrun & Hstart & _).
  - vm_compute. reflexivity.
  - exists snap, w', (fst (step_pure default_weather (w_rng (sim_world high_tape)))).
    split; [exact Hrun|]. split; [exact Hstart|]. split; vm_compute; reflexivity.
Defined.

(** ** More on the items of an order *)

Lemma MENU_PRICES_priced_5_14 : Forall priced_5_14 MENU_PRICES.
Proof.
  unfold MENU_PRICES.
  repeat (apply Forall_cons; split;
          [eexists; split; [vm_compute; reflexivity|];
           split; [lia | vm_compute; reflexivity] |]).
  apply Forall_nil. exact I.
Qed.

Lemma for_each_bounds order_size rest : forall items N w,
  Forall priced_5_14 rest ->
  NoDup (map fst rest) ->
  (forall k, k ∈ map fst items -> k ∉ map fst rest) ->
  (0 <= N)%Z -> (N + 70 * Z.of_nat (length rest) < 2 ^ 53)%Z ->
  exists items' N' g' ks,
    for_each (generate_items_turn order_size) rest (items, inject_Z N) w
      = (Ok (items', inject_Z N'), set_rng g' w) /\
    map fst items' = map fst items ++ ks /\
    sublist ks (map fst rest) /\
    (N + 5 * Z.of_nat (length ks) <= N')%Z /\
    (N' <= N + max_qty_of order_size * catalog_units rest)%Z.
Proof.
  assert (Hq5 : (1 <= max_qty_of order_size <= 5)%Z)
    by (unfold max_qty_of; destruct eq_str; lia).
  induction rest as [|[item price] rest IH]; intros items N w Hp Hnd Hk HN Hb.
  - exists items, N, (w_rng w), []. cbn [for_each]. unfold ret. destruct w.
    cbn [map length catalog_units fold_right]. rewrite app_nil_r.
    repeat split; try lia. apply sublist_nil.
  - apply Forall_cons in Hp as [(p & Hprice & Hpr & Hpo) Hp]. cbn [fst snd] in Hprice, Hpo.
    cbn [map fst] in Hnd. apply NoDup_cons in Hnd as [Hni Hnd].
    cbn [for_each]. unfold bind at 1. rewrite turn_run. cbv zeta.
    cbn [length] in Hb.
    assert (Hunits : catalog_units ((item, price) :: rest) = (p + catalog_units rest)%Z).
    { cbn [catalog_units fold_right snd]. rewrite Hprice, Qfloor_Z. reflexivity. }
    assert (Hrest_nonneg : (0 <= catalog_units rest)%Z).
    { clear -Hp. induction Hp as [|e l (q & Hq & Hr & _) _ IHl]; [cbn; lia|].
      cbn [catalog_units fold_right]. rewrite Hq, Qfloor_Z.
      unfold catalog_units in IHl. lia. }
    rewrite Hunits.
    destruct (flt _ _); cbv beta iota.
    + set (qty := (1 + _ mod _)%Z).
      assert (Hqty : (1 <= qty <= max_qty_of order_size)%Z).
      { unfold qty.
        pose proof (Z.mod_pos_bound (Z.of_N (tape (w_rng w) (S (cursor (w_rng w)))))
                      (max_qty_of order_size)). lia. }
      assert (Hfresh : item ∉ map fst items).
      { intros Hin. apply (Hk _ Hin). cbn [map fst]. apply list_elem_of_here. }
      rewrite (dict_set_fresh _ _ _ Hfresh).
      assert (Htot : fadd (inject_Z N) (fmul (float_of_int qty) price)
                     = inject_Z (N + qty * p)).
      { unfold fadd, fmul, float_of_int. subst price.
        rewrite (rnd64_inject_Z qty) by lia.
        rewrite <- inject_Z_mult, (rnd64_inject_Z (qty * p)) by nia.
        rewrite <- inject_Z_plus. apply rnd64_inject_Z. nia. }
      rewrite Htot.
      destruct (IH (items ++ [(item, qty)]) (N + qty * p)%Z
                  (set_rng (mk_rng (tape (w_rng w)) (S (S (cursor (w_rng w))))) w))
        as (items' & N' & g' & ks & Hrun & Hkeys & Hsub & Hlo & Hhi).
      * exact Hp.
      * exact Hnd.
      * intros k Hin. rewrite map_app in Hin. apply elem_of_app in Hin as [Hin|Hin].
        -- specialize (Hk k Hin). cbn [map fst] in Hk. apply not_elem_of_cons in Hk. tauto.
        -- cbn in Hin. apply list_elem_of_singleton in Hin. subst k. exact Hni.
      * nia.
      * nia.
      * exists items', N', g', (item :: ks). split; [exact Hrun|].
        split; [rewrite Hkeys, map_app, <- app_assoc; reflexivity|].
        split; [cbn [map fst]; apply sublist_skip; exact Hsub|].
        cbn [length]. split; nia.
    + destruct (IH items N (set_rng (mk_rng (tape (w_rng w)) (S (cursor (w_rng w)))) w))
        as (items' & N' & g' & ks & Hrun & Hkeys & Hsub & Hlo & Hhi); try assumption.
      * intros k Hin. specialize (Hk k Hin). cbn [map fst] in Hk.
        apply not_elem_of_cons in Hk. tauto.
      * lia.
      * exists items', N', g', ks. split; [exact Hrun|]. split; [exact Hkeys|].
        split; [cbn [map fst]; apply sublist_cons; exact Hsub|].
        split; nia.
Qed.

(** X11.  The items that [generate_items] returns are catalog items, each at most
    once and in catalog order (so at most six), and the total lies between
    5 per included item and 52 times the largest quantity: at most 104 for
    "small" and 260 otherwise.  An order with items never totals 0. *)
Theorem items_come_from_the_catalog (order_size : pyvalue) (w : world) :
  exists items total w',
    generate_items order_size w = (Ok (items, total), w') /\
    sublist (map fst items) (map fst MENU_PRICES) /\
    NoDup (map fst items) /\
    (inject_Z (5 * Z.of_nat (length items)) <= total)%Q /\
    (total <= inject_Z (52 * max_qty_of order_size))%Q.
Proof.
  destruct (for_each_bounds order_size MENU_PRICES [] 0 w)
    as (items & N & g' & ks & Hrun & Hkeys & Hsub & Hlo & Hhi).
  - apply MENU_PRICES_priced_5_14.
  - apply MENU_PRICES_NoDup.
  - intros k Hk. inversion Hk.
  - lia.
  - vm_compute. reflexivity.
  - cbn [map app] in Hkeys. subst ks.
    replace (catalog_units MENU_PRICES) with 52%Z in Hhi by (vm_compute; reflexivity).
    assert (Hm : (1 <= max_qty_of order_size <= 5)%Z)
      by (unfold max_qty_of; destruct eq_str; lia).
    exists items, (inject_Z N), (set_rng g' w). split.
    + unfold generate_items, bind.
      replace (literal 0.0) with (inject_Z 0) by (vm_compute; reflexivity).
      rewrite Hrun. unfold ret. cbn [fst snd].
      rewrite py_round_inject_Z by lia. reflexivity.
    + split; [exact Hsub|]. split.
      * eapply sublist_NoDup; [apply MENU_PRICES_NoDup | exact Hsub].
      * rewrite length_map in Hlo. rewrite <- !Zle_Qle. lia.
Qed.

(** ** More on historical mode *)

Lemma step_pure_condition (d : weather) (g : rng) :
  condition d ∈ WEATHER_CONDITIONS ->
  condition (fst (step_pure d g)) ∈ WEATHER_CONDITIONS.
Proof.
  intros H0. unfold step_pure.
  destruct (uniform _ _ g) as [u g1]. destruct (uniform _ _ g1) as [v g2].
  destruct (random g2) as [r g3]. destruct (flt r _); [|exact H0].
  destruct (randbelow _ g3) as [k g4]. cbn [fst condition].
  destruct (WEATHER_CONDITIONS !! Z.to_nat k) as [c|] eqn:E; cbn [default]; [|exact H0].
  apply (list_elem_of_lookup_2 _ _ _ E).
Qed.

(** One turn of the loop: the row is written and the counter moved before
    the clock is advanced, whether or not it can be. *)
Lemma historical_turn_row fuel output sim ts end_ i w d :
  w_heap w !! current sim = Some d ->
  counter_file_ok w ->
  dt_le ts end_ = true ->
  exists w1 o,
    historical_loop (S fuel) output sim ts end_ i w
      = match add_seconds ts i with
        | Some ts' => historical_loop fuel output sim ts' end_ i w1
        | None => (Raise OverflowError, w1)
        end /\
    w_heap w1 !! current sim = Some (fst (step_pure d (w_rng w))) /\
    w_counter_file w1 = Some (py_str (counter_value w + 1)) /\
    rows_of output w1 = (rows_of output w ++ [mk_row o (fst (step_pure d (w_rng w)))])%list /\
    timestamp o = isoformat ts /\
    order_id o = ("order_" ++ py_str (counter_value w + 1))%string.
Proof.
  intros Hd Hok Hle.
  cbn [historical_loop]. rewrite Hle.
  unfold bind at 1. rewrite (step_run sim w d Hd).
  destruct (step_pure d (w_rng w)) as [d1 g1]. cbv zeta beta iota. cbn [fst].
  set (l := fresh (dom (w_heap w))).
  assert (Hl : l <> current sim) by (eapply fresh_not_current; eassumption).
  match goal with |- context [(bind (create_order ts l) _) ?x] => set (w0 := x) end.
  assert (Hok0 : counter_file_ok w0) by exact Hok.
  destruct (create_order_run ts l w0 Hok0) as (o & g' & Hrun & Hid & Hts & _ & Hw).
  unfold bind at 1. rewrite Hrun. cbv beta iota.
  set (w2 := set_counter_file _ _) in *.
  assert (Hsnap : w_heap w2 !! IsWeather o = Some d1).
  { rewrite Hw. simpl. apply lookup_insert_eq. }
  unfold bind at 1. unfold writerow, bind, deref. rewrite Hsnap.
  cbv beta iota delta [or_raise ret].
  exists (set_csv (<[output := (default [] (w_csv w2 !! output) ++ [mk_row o d1])%list]>
                     (w_csv w2)) w2), o.
  split; [destruct (add_seconds ts i); reflexivity|].
  split; [cbn [w_heap set_csv w2 set_counter_file set_rng w0];
          rewrite lookup_insert_ne by exact Hl; apply lookup_insert_eq|].
  split; [reflexivity|].
  split; [unfold rows_of at 1; cbn [w_csv set_csv]; rewrite lookup_insert_eq; reflexivity|].
  split; [exact Hts | exact Hid].
Qed.

Lemma add_seconds_tick start i k :
  (0 <= micros start)%Z -> (0 < i)%Z ->
  (micros (tick start i (S k)) < MAXORDINAL * US_PER_DAY)%Z ->
  add_seconds (tick start i k) i = Some (tick start i (S k)).
Proof.
  intros H0 Hi Hmax. unfold add_seconds, tick in *. cbn [micros] in *.
  unfold MAXORDINAL, US_PER_DAY, US_PER_SECOND, MAX_DELTA_DAYS in *.
  assert (Hk : (0 <= Z.of_nat k)%Z) by lia.
  assert (Hs : Z.of_nat (S k) = (Z.of_nat k + 1)%Z) by lia.
  rewrite Hs in *. set (n := Z.of_nat k) in *. clearbody n.
  assert (Hsmall : (i < 3652059 * 86400)%Z) by nia.
  assert (Hdays : (0 <= i / 86400 < 3652059)%Z).
  { split; [apply Z.div_pos; lia | apply Z.div_lt_upper_bound; lia]. }
  rewrite Z.abs_eq by lia.
  destruct (Z.ltb_spec 999999999 (i / 86400)); [lia|].
  destruct (Z.leb_spec 0 (micros start + n * (i * 1000000) + i * 1000000)); [|nia].
  destruct (Z.ltb_spec (micros start + n * (i * 1000000) + i * 1000000)
              (3652059 * (86400 * 1000000))); [|nia].
  cbn [andb]. do 2 f_equal. lia.
Qed.

Lemma turns_spec start end_ i :
  (0 < i)%Z ->
  (forall j, (j < turns start end_ i)%nat -> dt_le (tick start i j) end_ = true) /\
  dt_le (tick start i (turns start end_ i)) end_ = false.
Proof.
  intros Hi. unfold turns, dt_le, tick. cbn [micros].
  assert (Hs : (0 < i * US_PER_SECOND)%Z) by (unfold US_PER_SECOND; lia).
  set (s := (i * US_PER_SECOND)%Z) in *. clearbody s.
  set (gap := (micros end_ - micros start)%Z).
  pose proof (Z.div_mod gap s ltac:(lia)) as Hdm.
  pose proof (Z.mod_pos_bound gap s Hs) as Hmod.
  set (q := (gap / s)%Z) in *. clearbody q.
  split.
  - intros j Hj. apply Z.leb_le. unfold gap in *. nia.
  - apply Z.leb_gt. unfold gap in *.
    assert (q + 1 <= Z.of_nat (Z.to_nat (q + 1)))%Z by lia. nia.
Qed.

(** [n] turns of the loop in a row, from the [k]-th instant on. *)
Lemma historical_rows output sim start end_ i base : forall n k fuel w d,
  w_heap w !! current sim = Some d ->
  counter_file_ok w ->
  condition d ∈ WEATHER_CONDITIONS ->
  counter_value w = (base + Z.of_nat k)%Z ->
  (forall j, (k <= j < k + n)%nat ->
     dt_le (tick start i j) end_ = true /\
     add_seconds (tick start i j) i = Some (tick start i (S j))) ->
  exists w' d' rows,
    historical_loop (n + fuel) output sim (tick start i k) end_ i w
      = historical_loop fuel output sim (tick start i (k + n)) end_ i w' /\
    w_heap w' !! current sim = Some d' /\
    counter_file_ok w' /\
    condition d' ∈ WEATHER_CONDITIONS /\
    counter_value w' = (base + Z.of_nat (k + n))%Z /\
    rows_of output w' = (rows_of output w ++ rows)%list /\
    Forall2 (row_of_turn start i base) (seq k n) rows.
Proof.
  induction n as [|n IH]; intros k fuel w d Hd Hok Hc Hbase Hall.
  - exists w, d, []. rewrite Nat.add_0_r, app_nil_r. cbn [Nat.add seq].
    repeat split; try assumption. constructor.
  - destruct (Hall k ltac:(lia)) as [Hle Hadd].
    destruct (historical_turn_row (n + fuel) output sim _ end_ i w d Hd Hok Hle)
      as (w1 & o & Hrun & Hd1 & Hfile & Hrows & Hts & Hid).
    rewrite Hadd in Hrun.
    assert (Hok1 : counter_file_ok w1) by (right; eexists; exact Hfile).
    assert (Hbase1 : counter_value w1 = (base + Z.of_nat (S k))%Z).
    { unfold counter_value at 1. rewrite Hfile, py_int_py_str. cbn [default]. unfold id. lia. }
    destruct (IH (S k) fuel w1 _ Hd1 Hok1 (step_pure_condition _ _ Hc) Hbase1)
      as (w' & d' & rows & Hrun' & Hd' & Hok' & Hc' & Hbase' & Hrows' & Hall').
    { intros j Hj. apply Hall. lia. }
    replace (S k + n)%nat with (k + S n)%nat in * by lia.
    exists w', d', (mk_row o (fst (step_pure d (w_rng w))) :: rows).
    cbn [Nat.add]. rewrite Hrun, Hrun'.
    split; [reflexivity|]. split; [exact Hd'|]. split; [exact Hok'|].
    split; [exact Hc'|]. split; [exact Hbase'|]. split.
    + rewrite Hrows', Hrows, <- app_assoc. reflexivity.
    + cbn [seq]. constructor; [|exact Hall'].
      split; [exact Hts|]. split; [cbn [row_order]; rewrite Hid, Hbase; reflexivity|].
      cbn [row_weather]. split; [apply step_pure_in_range | apply step_pure_condition, Hc].
Qed.

Lemma tick_0 start i : tick start i 0 = start.
Proof. destruct start as [m]. unfold tick. cbn [micros Z.of_nat]. f_equal. lia. Qed.

(** What [historical_mode] does before its loop: a simulator of its own in
    the default state, and an output file opened for writing, hence empty. *)
Lemma historical_mode_begin fuel start end_ i output w :
  exists sim w0,
    historical_mode fuel start end_ i output w
      = historical_loop fuel output sim start end_ i w0 /\
    w_heap w0 !! current sim = Some default_weather /\
    rows_of output w0 = [] /\
    w_counter_file w0 = w_counter_file w.
Proof.
  unfold historical_mode, WeatherSimulator_init, bind, alloc, ret, open_csv.
  eexists _, _. split; [reflexivity|]. split; [|split].
  - simpl. apply lookup_insert_eq.
  - unfold rows_of. simpl. rewrite lookup_insert_eq. reflexivity.
  - reflexivity.
Qed.

(** [m] turns that advance the clock, then one after which it cannot be
    advanced: the last row is written all the same. *)
Lemma historical_rows_then_overflow output sim start end_ i m fuel w d :
  w_heap w !! current sim = Some d ->
  counter_file_ok w ->
  condition d ∈ WEATHER_CONDITIONS ->
  (forall j, (j < m)%nat ->
     dt_le (tick start i j) end_ = true /\
     add_seconds (tick start i j) i = Some (tick start i (S j))) ->
  dt_le (tick start i m) end_ = true ->
  add_seconds (tick start i m) i = None ->
  exists w' rows,
    historical_loop (m + S fuel) output sim start end_ i w = (Raise OverflowError, w') /\
    rows_of output w' = (rows_of output w ++ rows)%list /\
    Forall2 (row_of_turn start i (counter_value w)) (seq 0 (S m)) rows /\
    counter_value w' = (counter_value w + Z.of_nat (S m))%Z.
Proof.
  intros Hd Hok Hc Hall Hle Hnone.
  destruct (historical_rows output sim start end_ i (counter_value w) m 0 (S fuel) w d
              Hd Hok Hc ltac:(cbn; lia))
    as (w1 & d1 & rows & Hrun & Hd1 & Hok1 & Hc1 & Hbase1 & Hrows1 & Hall1).
  { intros j Hj. apply Hall. lia. }
  rewrite tick_0 in Hrun. cbn [Nat.add] in Hrun, Hbase1.
  destruct (historical_turn_row fuel output sim _ end_ i w1 d1 Hd1 Hok1 Hle)
    as (w2 & o & Hrun2 & Hd2 & Hfile2 & Hrows2 & Hts & Hid).
  rewrite Hnone in Hrun2.
  exists w2, (rows ++ [mk_row o (fst (step_pure d1 (w_rng w1)))])%list.
  rewrite Hrun, Hrun2. split; [reflexivity|]. split; [|split].
  - rewrite Hrows2, Hrows1, <- app_assoc. reflexivity.
  - rewrite seq_S. apply Forall2_app; [exact Hall1|]. cbn [Nat.add].
    constructor; [|constructor].
    split; [exact Hts|]. split; [cbn [row_order]; rewrite Hid, Hbase1; reflexivity|].
    cbn [row_weather]. split; [apply step_pure_in_range | apply step_pure_condition, Hc1].
  - unfold counter_value at 1. rewrite Hfile2, py_int_py_str. cbn [default]. unfold id. lia.
Qed.

Lemma add_seconds_out_of_range t i :
  (micros t + i * US_PER_SECOND < 0 \/
   MAXORDINAL * US_PER_DAY <= micros t + i * US_PER_SECOND)%Z ->
  add_seconds t i = None.
Proof.
  intros H. unfold add_seconds.
  destruct (MAX_DELTA_DAYS <? Z.abs (i / 86400))%Z; [reflexivity|].
  destruct (Z.leb_spec 0 (micros t + i * US_PER_SECOND)); [|reflexivity].
  destruct (Z.ltb_spec (micros t + i * US_PER_SECOND) (MAXORDINAL * US_PER_DAY));
    [lia | reflexivity].
Qed.

(** X12.  With a positive interval, historical mode runs to the end of its loop
    when the clock stays within the calendar.  The output file then holds
    one row for each instant [start + k * interval] that is not after the
    end, in that order and whatever the file held before; the row of turn
    [k] carries the timestamp of that instant, the order identifier that
    follows the counter by [k + 1], and a weather within range with a known
    condition.  The counter has moved by the number of rows.  With [start]
    after [end] there is no row, and the counter stays. *)
Theorem historical_mode_writes_every_instant (start end_ : datetime)
    (interval_sec : Z) (output : string) (fuel : nat) (w : world) :
  counter_file_ok w ->
  (0 < interval_sec)%Z ->
  valid start ->
  valid (tick start interval_sec (turns start end_ interval_sec)) ->
  (turns start end_ interval_sec <= fuel)%nat ->
  exists w',
    historical_mode fuel start end_ interval_sec output w = (Ok Finished, w') /\
    Forall2 (row_of_turn start interval_sec (counter_value w))
      (seq 0 (turns start end_ interval_sec)) (rows_of output w') /\
    counter_value w' = (counter_value w + Z.of_nat (turns start end_ interval_sec))%Z.
Proof.
  intros Hok Hi [Hs0 _] [_ Hlast] Hfuel.
  destruct (turns_spec start end_ interval_sec Hi) as [Hin Hout].
  set (n := turns start end_ interval_sec) in *.
  destruct (historical_mode_begin fuel start end_ interval_sec output w)
    as (sim & w0 & Hstart & Hd0 & Hrows0 & Hfile0).
  assert (Hok0 : counter_file_ok w0) by (unfold counter_file_ok; rewrite Hfile0; exact Hok).
  assert (Hc0 : counter_value w0 = counter_value w)
    by (unfold counter_value; rewrite Hfile0; reflexivity).
  destruct (historical_rows output sim start end_ interval_sec (counter_value w)
              n 0 (fuel - n) w0 default_weather Hd0 Hok0)
    as (w' & d' & rows & Hrun & _ & _ & _ & Hbase & Hrows & Hall).
  - apply list_elem_of_here.
  - rewrite Hc0. cbn. lia.
  - intros j Hj. split; [apply Hin; lia|].
    apply add_seconds_tick; [exact Hs0 | exact Hi |].
    unfold tick in *. cbn [micros] in *. unfold US_PER_SECOND in *. nia.
  - rewrite tick_0 in Hrun. cbn [Nat.add] in Hrun, Hbase.
    replace (n + (fuel - n))%nat with fuel in Hrun by lia.
    exists w'. rewrite Hstart, Hrun. split; [apply historical_loop_done; exact Hout|].
    rewrite Hrows, Hrows0. split; [exact Hall | exact Hbase].
Qed.

Definition T_00_10_00 : datetime := datetime_of 2025 1 1 0 10 0.

Lemma historical_mode_writes_every_instant_witness :
  exists w',
    historical_mode 12 T_00_00_00 T_00_10_00 60 "orders.csv" (fresh_world high_tape)
      = (Ok Finished, w') /\
    length (rows_of "orders.csv" w') = 11%nat /\
    counter_value w' = 11%Z.
Proof.
  destruct (historical_mode_writes_every_instant T_00_00_00 T_00_10_00 60 "orders.csv" 12
              (fresh_world high_tape)) as (w' & Hrun & Hrows & Hc).
  - left. reflexivity.
  - lia.
  - vm_compute. split; [discriminate | reflexivity].
  - vm_compute. split; [discriminate | reflexivity].
  - vm_compute. lia.
  - exists w'. split; [exact Hrun|]. split; [|exact Hc].
    apply Forall2_length in Hrows. rewrite <- Hrows. reflexivity.
Defined.

(** X13.  When the last instant of the range is so late that adding the interval
    to it leaves the years 1 to 9999, historical mode writes all its rows
    and then fails with OverflowError instead of finishing: the loop adds
    the interval before it tests the end of the range. *)
Theorem historical_mode_overflows_at_the_end (start end_ : datetime)
    (interval_sec : Z) (output : string) (fuel : nat) (w : world) :
  counter_file_ok w ->
  (0 < interval_sec)%Z ->
  valid start -> valid end_ ->
  dt_le start end_ = true ->
  ~ valid (tick start interval_sec (turns start end_ interval_sec)) ->
  (turns start end_ interval_sec <= fuel)%nat ->
  exists w',
    historical_mode fuel start end_ interval_sec output w = (Raise OverflowError, w') /\
    Forall2 (row_of_turn start interval_sec (counter_value w))
      (seq 0 (turns start end_ interval_sec)) (rows_of output w') /\
    counter_value w' = (counter_value w + Z.of_nat (turns start end_ interval_sec))%Z.
Proof.
  intros Hok Hi [Hs0 Hs1] [He0 He1] Hle Hlast Hfuel.
  destruct (turns_spec start end_ interval_sec Hi) as [Hin Hout].
  assert (Hpos : (1 <= turns start end_ interval_sec)%nat).
  { unfold turns. apply Z.leb_le in Hle.
    assert (0 <= (micros end_ - micros start) / (interval_sec * US_PER_SECOND))%Z
      by (apply Z.div_pos; unfold US_PER_SECOND; lia).
    lia. }
  set (n := turns start end_ interval_sec) in *.
  destruct n as [|m] eqn:En; [lia|].
  destruct (historical_mode_begin fuel start end_ interval_sec output w)
    as (sim & w0 & Hstart & Hd0 & Hrows0 & Hfile0).
  assert (Hok0 : counter_file_ok w0) by (unfold counter_file_ok; rewrite Hfile0; exact Hok).
  assert (Hc0 : counter_value w0 = counter_value w)
    by (unfold counter_value; rewrite Hfile0; reflexivity).
  assert (Hticks : forall j, (j <= m)%nat ->
            (0 <= micros (tick start interval_sec j) < MAXORDINAL * US_PER_DAY)%Z).
  { intros j Hj. pose proof (Hin j ltac:(lia)) as Hj'. apply Z.leb_le in Hj'.
    split; [|lia]. unfold tick. cbn [micros]. unfold US_PER_SECOND. nia. }
  destruct (historical_rows_then_overflow output sim start end_ interval_sec m
              (fuel - S m) w0 default_weather Hd0 Hok0)
    as (w' & rows & Hrun & Hrows & Hall & Hc).
  - apply list_elem_of_here.
  - intros j Hj. split; [apply Hin; lia|].
    apply add_seconds_tick; [exact Hs0 | exact Hi | apply Hticks; lia].
  - apply Hin. lia.
  - apply add_seconds_out_of_range. right.
    assert (Hge : ~ (micros (tick start interval_sec (S m)) < MAXORDINAL * US_PER_DAY)%Z).
    { intros Hlt. apply Hlast. split; [|exact Hlt].
      unfold tick. cbn [micros]. unfold US_PER_SECOND. nia. }
    unfold tick in *. cbn [micros] in *. lia.
  - replace (m + S (fuel - S m))%nat with fuel in Hrun by lia.
    exists w'. rewrite Hstart, Hrun. split; [reflexivity|].
    rewrite Hrows, Hrows0, <- Hc0. split; [exact Hall|].
    rewrite Hc, Hc0. reflexivity.
Qed.

Definition T_LAST_MINUTE : datetime := datetime_of 9999 12 31 23 59 0.
Definition T_LAST_SECOND : datetime := datetime_of 9999 12 31 23 59 59.

Lemma historical_mode_overflows_at_the_end_witness :
  exists w',
    historical_mode 5 T_LAST_MINUTE T_LAST_SECOND 30 "orders.csv" (fresh_world low_tape)
      = (Raise OverflowError, w') /\
    row_timestamps (rows_of "orders.csv" w')
      = ["9999-12-31T23:59:00"; "9999-12-31T23:59:30"]%string.
Proof.
  destruct (historical_mode_overflows_at_the_end T_LAST_MINUTE T_LAST_SECOND 30
              "orders.csv" 5 (fresh_world low_tape)) as (w' & Hrun & Hrows & _).
  - left. reflexivity.
  - lia.
  - vm_compute. split; [discriminate | reflexivity].
  - vm_compute. split; [discriminate | reflexivity].
  - vm_compute. reflexivity.
  - vm_compute. intros [_ H]. discriminate H.
  - vm_compute. lia.
  - exists w'. split; [exact Hrun|].
    change (turns T_LAST_MINUTE T_LAST_SECOND 30) with 2%nat in Hrows.
    cbn [seq] in Hrows.
    destruct (rows_of "orders.csv" w') as [|r1 [|r2 [|r3 rows]]];
      try (inversion Hrows; fail);
      try (inversion Hrows as [|? ? ? ? _ Hrest]; inversion Hrest; fail).
    + inversion Hrows as [|? ? ? ? H1 Hrest]; subst.
      inversion Hrest as [|? ? ? ? H2 _]; subst.
      destruct H1 as [E1 _], H2 as [E2 _]. unfold row_timestamps. cbn [map].
      rewrite E1, E2. vm_compute. reflexivity.
    + inversion Hrows as [|? ? ? ? _ Hrest]; subst.
      inversion Hrest as [|? ? ? ? _ Hrest']; subst. inversion Hrest'.
Defined.



Lemma add_seconds_tick_back start i k :
  (micros start < MAXORDINAL * US_PER_DAY)%Z -> (i < 0)%Z ->
  (0 <= micros (tick start i (S k)))%Z ->
  add_seconds (tick start i k) i = Some (tick start i (S k)).
Proof.
  intros H0 Hi Hmin. unfold add_seconds, tick in *. cbn [micros] in *.
  unfold MAXORDINAL, US_PER_DAY, US_PER_SECOND, MAX_DELTA_DAYS in *.
  assert (Hk : (0 <= Z.of_nat k)%Z) by lia.
  assert (Hs : Z.of_nat (S k) = (Z.of_nat k + 1)%Z) by lia.
  rewrite Hs in *. set (n := Z.of_nat k) in *. clearbody n.
  assert (Hsmall : (- (3652059 * 86400) < i)%Z) by nia.
  assert (Hdays : (- 3652059 <= i / 86400 <= 0)%Z).
  { split; [apply Z.div_le_lower_bound; lia|].
    assert (i / 86400 < 0)%Z by (apply Z.div_lt_upper_bound; lia). lia. }
  destruct (Z.ltb_spec 999999999 (Z.abs (i / 86400))); [lia|].
  destruct (Z.leb_spec 0 (micros start + n * (i * 1000000) + i * 1000000)); [|nia].
  destruct (Z.ltb_spec (micros start + n * (i * 1000000) + i * 1000000)
              (3652059 * (86400 * 1000000))); [|nia].
  cbn [andb]. do 2 f_equal. lia.
Qed.

Lemma turns_back_spec start i :
  (i < 0)%Z -> (0 <= micros start)%Z ->
  (1 <= turns_back start i)%nat /\
  (forall j, (j < turns_back start i)%nat -> (0 <= micros (tick start i j))%Z) /\
  (micros (tick start i (turns_back start i)) < 0)%Z.
Proof.
  intros Hi H0. unfold turns_back, tick. cbn [micros].
  assert (Hs : (0 < - i * US_PER_SECOND)%Z) by (unfold US_PER_SECOND; lia).
  replace (i * US_PER_SECOND)%Z with (- (- i * US_PER_SECOND))%Z by lia.
  set (s := (- i * US_PER_SECOND)%Z) in *. clearbody s.
  pose proof (Z.div_mod (micros start) s ltac:(lia)) as Hdm.
  pose proof (Z.mod_pos_bound (micros start) s Hs) as Hmod.
  assert (Hq : (0 <= micros start / s)%Z) by (apply Z.div_pos; lia).
  set (q := (micros start / s)%Z) in *. clearbody q.
  split; [lia|]. split.
  - intros j Hj. nia.
  - rewrite Z2Nat.id by lia. nia.
Qed.

(** X15.  With a negative interval, which the argument parser accepts, historical
    mode never reaches the end of its loop when [start] is not after [end]:
    the clock walks backwards, one row is written for each instant
    [start + k * interval] down to year 1, and the addition that would leave
    the calendar fails with OverflowError; stopped before that, the loop is
    still running. *)
Theorem historical_mode_negative_interval (start end_ : datetime)
    (interval_sec : Z) (output : string) (fuel : nat) (w : world) :
  counter_file_ok w ->
  (interval_sec < 0)%Z ->
  valid start ->
  dt_le start end_ = true ->
  exists w',
    historical_mode fuel start end_ interval_sec output w
      = (if (turns_back start interval_sec <=? fuel)%nat
         then Raise OverflowError else Ok StillRunning, w') /\
    Forall2 (row_of_turn start interval_sec (counter_value w))
      (seq 0 (Nat.min (turns_back start interval_sec) fuel)) (rows_of output w').
Proof.
  intros Hok Hi [Hs0 Hs1] Hle.
  destruct (turns_back_spec start interval_sec Hi Hs0) as (Hpos & Hin & Hout).
  set (n := turns_back start interval_sec) in *.
  destruct (historical_mode_begin fuel start end_ interval_sec output w)
    as (sim & w0 & Hstart & Hd0 & Hrows0 & Hfile0).
  assert (Hok0 : counter_file_ok w0) by (unfold counter_file_ok; rewrite Hfile0; exact Hok).
  assert (Hc0 : counter_value w0 = counter_value w)
    by (unfold counter_value; rewrite Hfile0; reflexivity).
  assert (Hbefore : forall j, dt_le (tick start interval_sec j) end_ = true).
  { intros j. apply Z.leb_le. apply Z.leb_le in Hle. unfold tick. cbn [micros].
    unfold US_PER_SECOND. nia. }
  assert (Hadd : forall j, (S j < n)%nat ->
            add_seconds (tick start interval_sec j) interval_sec
              = Some (tick start interval_sec (S j))).
  { intros j Hj. apply add_seconds_tick_back; [exact Hs1 | exact Hi | apply Hin; exact Hj]. }
  rewrite Hstart, <- Hc0.
  destruct (Nat.leb_spec n fuel) as [Hfuel | Hfuel].
  - rewrite Nat.min_l by lia.
    destruct n as [|m] eqn:En; [lia|].
    destruct (historical_rows_then_overflow output sim start end_ interval_sec m
                (fuel - S m) w0 default_weather Hd0 Hok0)
      as (w' & rows & Hrun & Hrows & Hall & _).
    + apply list_elem_of_here.
    + intros j Hj. split; [apply Hbefore | apply Hadd; lia].
    + apply Hbefore.
    + apply add_seconds_out_of_range. left.
      unfold tick in Hout. cbn [micros] in Hout. unfold tick. cbn [micros]. lia.
    + replace (m + S (fuel - S m))%nat with fuel in Hrun by lia.
      exists w'. split; [exact Hrun|]. rewrite Hrows, Hrows0. exact Hall.
  - rewrite Nat.min_r by lia.
    destruct (historical_rows output sim start end_ interval_sec (counter_value w0)
                fuel 0 0 w0 default_weather Hd0 Hok0)
      as (w' & d' & rows & Hrun & _ & _ & _ & _ & Hrows & Hall).
    + apply list_elem_of_here.
    + cbn. lia.
    + intros j Hj. split; [apply Hbefore | apply Hadd; lia].
    + rewrite tick_0, Nat.add_0_r in Hrun. cbn [Nat.add] in Hrun.
      exists w'. rewrite Hrun. cbn [historical_loop]. rewrite Hbefore. unfold ret.
      split; [reflexivity|]. rewrite Hrows, Hrows0. exact Hall.
Qed.

Definition T_YEAR_1 : datetime := datetime_of 1 1 1 0 1 0.

Lemma historical_mode_negative_interval_witness :
  exists w',
    historical_mode 5 T_YEAR_1 T_00_00_00 (-30) "orders.csv" (fresh_world low_tape)
      = (Raise OverflowError, w') /\
    length (rows_of "orders.csv" w') = 3%nat.
Proof.
  destruct (historical_mode_negative_interval T_YEAR_1 T_00_00_00 (-30) "orders.csv" 5
              (fresh_world low_tape)) as (w' & Hrun & Hrows).
  - left. reflexivity.
  - lia.
  - vm_compute. split; [discriminate | reflexivity].
  - vm_compute. reflexivity.
  - exists w'. split; [exact Hrun|].
    apply Forall2_length in Hrows. rewrite <- Hrows. reflexivity.
Defined.

(** ** Orders without items *)

Lemma high_draw_skips (r : N) (item : string) :
  (SKIP_DRAWS <= r mod 2 ^ 53)%N ->
  flt (unit_of_raw r) (base_prob_of item) = false.
Proof.
  intros H. apply flt_false.
  apply Qle_trans with (literal 0.7).
  - unfold base_prob_of.
    destruct (String.eqb item "fries"), (String.eqb item "ice_cream" || String.eqb item "dessert");
      vm_compute; discriminate.
  - replace (literal 0.7) with (3152519739159347 # 4503599627370496)%Q
      by (vm_compute; reflexivity).
    unfold unit_of_raw, Qle, SKIP_DRAWS in *. cbn [Qnum Qden].
    set (m := (r mod 2 ^ 53)%N) in *. clearbody m.
    change (Z.pos (2 ^ 53)) with 9007199254740992%Z. lia.
Qed.

Lemma generate_items_empty (order_size : pyvalue) (w : world) :
  (forall k, (k < 6)%nat ->
     (SKIP_DRAWS <= tape (w_rng w) (cursor (w_rng w) + k) mod 2 ^ 53)%N) ->
  generate_items order_size w
    = (Ok ([], 0%Q), set_rng (mk_rng (tape (w_rng w)) (cursor (w_rng w) + 6)) w).
Proof.
  intros H.
  pose proof (H 0%nat ltac:(lia)) as H0. pose proof (H 1%nat ltac:(lia)) as H1.
  pose proof (H 2%nat ltac:(lia)) as H2. pose proof (H 3%nat ltac:(lia)) as H3.
  pose proof (H 4%nat ltac:(lia)) as H4. pose proof (H 5%nat ltac:(lia)) as H5.
  rewrite ?Nat.add_succ_r, ?Nat.add_0_r in *.
  unfold generate_items, MENU_PRICES. unfold bind at 1.
  repeat (rewrite for_each_cons, turn_run; cbv zeta;
          cbn [w_rng set_rng tape cursor];
          rewrite high_draw_skips by assumption).
  cbn [for_each]. unfold ret.
  cbn [fst snd w_rng set_rng tape cursor w_heap w_counter_file w_csv].
  replace (py_round (literal 0.0) 2) with 0%Q by (vm_compute; reflexivity).
  reflexivity.
Qed.

(** X16.  Nothing in [create_order] asks for an item: when the six draws that
    decide on the items are all 0.7 or more, the order is created with an
    empty [items] and a [total_amount] of 0, and uses up an identifier like
    any other. *)
Theorem an_order_can_be_empty (ts : datetime) (weather : loc) (w : world) :
  counter_file_ok w ->
  (forall k, (4 <= k < 10)%nat ->
     (SKIP_DRAWS <= tape (w_rng w) (cursor (w_rng w) + k) mod 2 ^ 53)%N) ->
  exists o w',
    create_order ts weather w = (Ok o, w') /\
    items o = [] /\ total_amount o = 0%Q /\
    order_id o = ("order_" ++ py_str (counter_value w + 1))%string /\
    counter_value w' = (counter_value w + 1)%Z.
Proof.
  intros Hok H. unfold create_order.
  destruct (draw_choice_lookup (map fst REGISTERS) w) as (rt & Hrt & Hrun); [discriminate|].
  unfold bind at 1. rewrite Hrun. clear Hrun. cbv beta iota.
  assert (Hpool : exists pool, dict_get REGISTERS rt = Some pool /\ pool <> []).
  { apply list_elem_of_lookup_2 in Hrt. cbn in Hrt.
    repeat (apply elem_of_cons in Hrt as [-> | Hrt]);
      [eexists; split; [reflexivity | discriminate] ..|inversion Hrt]. }
  destruct Hpool as (pool & Hpool & Hne).
  unfold bind at 1. rewrite Hpool. cbn [or_raise]. unfold ret at 1. cbv beta iota.
  unfold bind at 1.
  match goal with |- context [draw_or IndexError (choice pool) ?w1] =>
    destruct (draw_choice_lookup pool w1 Hne) as (rid & Hrid & Hrun) end.
  rewrite Hrun. clear Hrun. cbv beta iota.
  unfold bind at 1.
  match goal with |- context [draw_or IndexError (choice EMPLOYEES) ?w1] =>
    destruct (draw_choice_lookup EMPLOYEES w1) as (eid & Heid & Hrun); [discriminate|] end.
  rewrite Hrun. clear Hrun. cbv beta iota.
  unfold bind at 1. unfold draw_or at 1. rewrite choices1_sizes. cbv beta iota.
  cbn [w_rng set_rng tape cursor] in *.
  set (sz := (if (_ <? _)%N then _ else _)%string).
  unfold bind at 1. rewrite generate_items_empty.
  - cbv beta iota. unfold bind.
    match goal with |- context [next_order_id ?w1] =>
      assert (Hok1 : counter_file_ok w1) by exact Hok;
      rewrite (next_order_id_run w1 Hok1) end.
    unfold ret. eexists _, _. split; [reflexivity|].
    cbn [items total_amount order_id].
    split; [reflexivity|]. split; [reflexivity|]. split; [reflexivity|].
    apply counter_value_set.
  - intros k Hk. cbn [w_rng set_rng tape cursor].
    replace (S (S (S (S (cursor (w_rng w))))) + k)%nat
      with (cursor (w_rng w) + (4 + k))%nat by lia.
    apply H. lia.
Qed.

Lemma an_order_can_be_empty_witness :
  exists o w',
    create_order T_00_00_00 1%positive (sim_world high_tape) = (Ok o, w') /\
    items o = [] /\ total_amount o = 0%Q /\ order_id o = "order_1"%string.
Proof.
  destruct (an_order_can_be_empty T_00_00_00 1%positive (sim_world high_tape))
    as (o & w' & Hrun & Hitems & Htotal & Hid & _).
  - left. reflexivity.
  - intros k _. vm_compute. discriminate.
  - exists o, w'. split; [exact Hrun|]. split; [exact Hitems|]. split; [exact Htotal|].
    rewrite Hid. vm_compute. reflexivity.
Defined.
